(** * Navigation state machines of the booking configurator front-end

    A shallow embedding of the navigation controllers found under
    [src/features/Navigation]:

    - [DesktopNavigation.tsx]  (module [Desktop]): hover-intent close timer,
      click / keyboard toggling, focus return;
    - [components/DesktopDropdown.tsx] (module [Dropdown]): the grouping of
      the "more" dataset done by [renderDropdownContent];
    - [MobileNavigation.tsx] (module [Mobile]): the drawer, its category to
      submenu mapping and its deferred reset;
    - [NavigationContainer.tsx] (module [Container]): the combined
      controller, the only one that clears its timer when it unmounts.

    Modelling conventions.

    - A React component is a record of its [useState] cells and [useRef]
      cells, extended with the browser's timer table ([setTimeout] /
      [clearTimeout]), a clock in milliseconds, and two logs for the
      effects that leave the component: calls of [onNavigate] and calls of
      [focus()].
    - An event handler is a function from the state committed by the last
      render to the next state.  Names bound by [useState] inside a handler
      or inside a timer callback are the values of the render that created
      the closure; they are read from the argument named [r].  Refs and the
      timer table are mutable and are read from the state being built.
      Each handler call is followed by a commit before the next event.
    - A timer callback is data ([TimerAction]) carrying exactly what its
      closure captured.  No callback of these components arms or clears a
      timer, so the callbacks due within a time step are run in order of
      due time, ties in order of creation.
    - Strings are [string]; [toLowerCase] folds ASCII letters only. *)

From Stdlib Require Import List String Ascii ZArith Bool Arith Lia.
From Stdlib Require Import DecimalString.
From Stdlib Require Import Permutation Sorted.
Import ListNotations.
Open Scope string_scope.

Set Implicit Arguments.

(* ------------------------------------------------------------------ *)
(** * JavaScript helpers *)

Module Js.

Definition lowerAscii (c : ascii) : ascii :=
  let n := nat_of_ascii c in
  if ((65 <=? n) && (n <=? 90))%nat then ascii_of_nat (n + 32) else c.

(** [s.toLowerCase()] *)
Fixpoint toLowerCase (s : string) : string :=
  match s with
  | EmptyString => EmptyString
  | String c rest => String (lowerAscii c) (toLowerCase rest)
  end.

(** Truthiness of a string: only [""] is falsy. *)
Definition truthy (s : string) : bool := negb (s =? "").

(** [a || b] where [a] is an optional string argument. *)
Definition orElse (a : option string) (b : string) : string :=
  match a with
  | Some x => if truthy x then x else b
  | None => b
  end.

(** The guard [item.url && item.url !== '#']: the URL when it passes. *)
Definition realUrl (u : option string) : option string :=
  match u with
  | Some x => if truthy x && negb (x =? "#") then Some x else None
  | None => None
  end.

(** Truthiness of an optional boolean property. *)
Definition flag (b : option bool) : bool :=
  match b with Some true => true | _ => false end.

(** [a % n] on integers; [None] stands for [NaN] (n = 0). *)
Definition rem (a n : Z) : option Z :=
  if (n =? 0)%Z then None else Some (Z.rem a n).

End Js.

(* ------------------------------------------------------------------ *)
(** * The browser's timer table *)

Section TimerTable.

Variable A : Type.

Record Timer := mkTimer { tid : nat; due : nat; act : A }.

(** [clearTimeout(h)]; clearing [null] or a dead handle does nothing. *)
Definition clearTimeout (h : option nat) (ts : list Timer) : list Timer :=
  match h with
  | None => ts
  | Some i => filter (fun t => negb (tid t =? i)%nat) ts
  end.

(** Timers run in order of due time; equal due times in order of creation. *)
Fixpoint insertByDue (t : Timer) (ts : list Timer) : list Timer :=
  match ts with
  | [] => [t]
  | u :: rest =>
      if (due t <? due u)%nat then t :: u :: rest else u :: insertByDue t rest
  end.

Definition sortByDue (ts : list Timer) : list Timer :=
  fold_left (fun acc t => insertByDue t acc) ts [].

Definition isDue (limit : nat) (t : Timer) : bool := (due t <=? limit)%nat.

Definition dueTimers (limit : nat) (ts : list Timer) : list Timer :=
  sortByDue (filter (isDue limit) ts).

Definition laterTimers (limit : nat) (ts : list Timer) : list Timer :=
  filter (fun t => negb (isDue limit t)) ts.

End TimerTable.

Arguments mkTimer {A} _ _ _.
Arguments tid {A} _.
Arguments due {A} _.
Arguments act {A} _.

(* ------------------------------------------------------------------ *)
(** * DesktopNavigation.tsx *)

Module Desktop.

Import Js.

(** [DesktopNavItemData] (components/NavBar.tsx). *)
Record DesktopNavItemData := mkItem {
  id : string;
  label : string;
  hasDropdown : bool;
  url : option string
}.

(** The key under which an entry's dropdown is stored in [activeDropdown]:
    [item.label.toLowerCase()]. *)
Definition dropdownKey (item : DesktopNavItemData) : string :=
  toLowerCase (label item).

(** Elements on which the component calls [focus()]. *)
Inductive FocusTarget :=
| ElementById (domId : string)        (* document.getElementById(domId) *)
| CurrentTarget (itemId : string)     (* event.currentTarget of a NavItem *)
| ItemRef (index : nat)               (* itemRefs.current[index] *)
| FirstMenuItemOf (baseId : string)   (* focusFirstItem(getElementById(getDropdownId(baseId))) *)
| MenuItemAt (index : nat).           (* focusableElements[index] *)

(** Callbacks handed to [setTimeout], with what their closure captured. *)
Inductive TimerAction :=
| CloseIfNotHovering (hoveringNavItem hoveringDropdown : bool)
| FocusLater (target : FocusTarget)
| NavigateThenRefocus (urlToNavigate triggerLabel : string)
| RefocusTrigger (triggerLabel : string).

Inductive Key :=
| Enter | Space | ArrowDown | ArrowUp | ArrowLeft | ArrowRight
| Escape | Tab | HomeKey | EndKey | OtherKey.

Record State := mkState {
  activeDropdown : string;
  isHoveringNavItem : bool;
  isHoveringDropdown : bool;
  mouseLeaveTimeoutRef : option nat;
  timers : list (Timer TimerAction);
  nextTimerId : nat;
  now : nat;
  navigated : list string;
  focused : list FocusTarget;
  mounted : bool
}.

Definition initialState : State :=
  mkState "" false false None [] 1 0 [] [] true.

(** ** State cells *)

Definition setActiveDropdown (v : string) (s : State) : State :=
  mkState v (isHoveringNavItem s) (isHoveringDropdown s)
    (mouseLeaveTimeoutRef s) (timers s) (nextTimerId s) (now s)
    (navigated s) (focused s) (mounted s).

Definition setIsHoveringNavItem (v : bool) (s : State) : State :=
  mkState (activeDropdown s) v (isHoveringDropdown s)
    (mouseLeaveTimeoutRef s) (timers s) (nextTimerId s) (now s)
    (navigated s) (focused s) (mounted s).

Definition setIsHoveringDropdown (v : bool) (s : State) : State :=
  mkState (activeDropdown s) (isHoveringNavItem s) v
    (mouseLeaveTimeoutRef s) (timers s) (nextTimerId s) (now s)
    (navigated s) (focused s) (mounted s).

Definition setRef (h : option nat) (s : State) : State :=
  mkState (activeDropdown s) (isHoveringNavItem s) (isHoveringDropdown s)
    h (timers s) (nextTimerId s) (now s)
    (navigated s) (focused s) (mounted s).

Definition setTimers (ts : list (Timer TimerAction)) (s : State) : State :=
  mkState (activeDropdown s) (isHoveringNavItem s) (isHoveringDropdown s)
    (mouseLeaveTimeoutRef s) ts (nextTimerId s) (now s)
    (navigated s) (focused s) (mounted s).

Definition setNow (t : nat) (s : State) : State :=
  mkState (activeDropdown s) (isHoveringNavItem s) (isHoveringDropdown s)
    (mouseLeaveTimeoutRef s) (timers s) (nextTimerId s) t
    (navigated s) (focused s) (mounted s).

(** [onNavigate(u)] *)
Definition onNavigate (u : string) (s : State) : State :=
  mkState (activeDropdown s) (isHoveringNavItem s) (isHoveringDropdown s)
    (mouseLeaveTimeoutRef s) (timers s) (nextTimerId s) (now s)
    (navigated s ++ [u]) (focused s) (mounted s).

(** [target.focus()] *)
Definition focus (t : FocusTarget) (s : State) : State :=
  mkState (activeDropdown s) (isHoveringNavItem s) (isHoveringDropdown s)
    (mouseLeaveTimeoutRef s) (timers s) (nextTimerId s) (now s)
    (navigated s) (focused s ++ [t]) (mounted s).

(** [setTimeout(callback, delay)]: the handle and the new state. *)
Definition setTimeout (a : TimerAction) (delay : nat) (s : State)
  : nat * State :=
  (nextTimerId s,
   mkState (activeDropdown s) (isHoveringNavItem s) (isHoveringDropdown s)
     (mouseLeaveTimeoutRef s)
     (timers s ++ [mkTimer (nextTimerId s) (now s + delay) a])
     (S (nextTimerId s)) (now s)
     (navigated s) (focused s) (mounted s)).

(** A [setTimeout] whose handle is dropped. *)
Definition later (a : TimerAction) (delay : nat) (s : State) : State :=
  snd (setTimeout a delay s).

(** ** Timer logic (lines 60-73) *)

(** [startCloseTimer]: the callback tests the hover flags of the render
    [r] in which this [startCloseTimer] was created. *)
Definition startCloseTimer (r s : State) : State :=
  let s1 := setTimers (clearTimeout (mouseLeaveTimeoutRef s) (timers s)) s in
  let (h, s2) :=
    setTimeout
      (CloseIfNotHovering (isHoveringNavItem r) (isHoveringDropdown r))
      250 s1 in
  setRef (Some h) s2.

(** [clearCloseTimer]: the ref keeps the cleared handle. *)
Definition clearCloseTimer (s : State) : State :=
  setTimers (clearTimeout (mouseLeaveTimeoutRef s) (timers s)) s.

Section Handlers.

Variable desktopMenuItems : list DesktopNavItemData.

(** ** Event handlers (lines 78-114) *)

Definition handleItemHover (item : DesktopNavItemData) (r : State) : State :=
  let s1 := setIsHoveringNavItem true r in
  let s2 := clearCloseTimer s1 in
  let dropdownKey := if hasDropdown item then toLowerCase (label item) else "" in
  setActiveDropdown dropdownKey s2.

Definition handleItemLeave (r : State) : State :=
  startCloseTimer r (setIsHoveringNavItem false r).

Definition handleItemFocus (item : DesktopNavItemData) (r : State) : State :=
  clearCloseTimer (setIsHoveringNavItem true r).

Definition handleItemBlur (r : State) : State :=
  startCloseTimer r (setIsHoveringNavItem false r).

Definition handleDropdownEnter (r : State) : State :=
  clearCloseTimer (setIsHoveringDropdown true r).

Definition handleDropdownLeave (r : State) : State :=
  startCloseTimer r (setIsHoveringDropdown false r).

(** ** Action handlers (lines 120-178) *)

(** [desktopMenuItems.find(item => item.label.toLowerCase() === l.toLowerCase())] *)
Definition findByLabel (l : string) : option DesktopNavItemData :=
  find (fun item => toLowerCase (label item) =? toLowerCase l) desktopMenuItems.

Definition closeDropdown (r : State) (returnFocusToLabel : option string)
  (s : State) : State :=
  let currentActive := activeDropdown r in
  if negb (truthy currentActive) then s
  else
    let s1 := setActiveDropdown "" s in
    let focusLabel := orElse returnFocusToLabel currentActive in
    match findByLabel focusLabel with
    | Some triggerItem => later (FocusLater (ElementById (id triggerItem))) 50 s1
    | None => s1
    end.

(** In the toggle branch the updater [prev => ...] is the only update
    queued by the handler, so [prev] is the committed [activeDropdown]. *)
Definition handleDesktopItemClick (item : DesktopNavItemData) (r : State)
  : State :=
  let lowerLabel := toLowerCase (label item) in
  if negb (hasDropdown item) then
    let s1 := closeDropdown r None r in
    match realUrl (url item) with
    | Some u => onNavigate u s1
    | None => s1
    end
  else
    let s1 :=
      setActiveDropdown
        (if activeDropdown r =? lowerLabel then "" else lowerLabel) r in
    clearCloseTimer s1.

(** The dropdown item is represented by its [url]. *)
Definition handleDropdownItemClick (itemUrl : option string) (r : State)
  : State :=
  let triggerLabel := activeDropdown r in
  let s1 := setActiveDropdown "" r in
  match realUrl itemUrl with
  | Some urlToNavigate =>
      later (NavigateThenRefocus urlToNavigate triggerLabel) 600 s1
  | None => later (RefocusTrigger triggerLabel) 600 s1
  end.

(** ** Keyboard handlers (lines 184-322) *)

(** [desktopMenuItems.findIndex(i => i.id === item.id)], [-1] when absent. *)
Fixpoint findIndexFrom (k : Z) (items : list DesktopNavItemData)
  (item : DesktopNavItemData) : Z :=
  match items with
  | [] => (-1)%Z
  | i :: rest =>
      if id i =? id item then k else findIndexFrom (k + 1)%Z rest item
  end.

Definition findIndex (item : DesktopNavItemData) : Z :=
  findIndexFrom 0%Z desktopMenuItems item.

(** [itemRefs.current[k]]: NavBar stores the anchor of entry [index] at
    [navItemRefs.current[index]]; other indices (and [NaN]) hold nothing. *)
Definition itemRefAt (k : option Z) : option FocusTarget :=
  match k with
  | Some z =>
      if ((0 <=? z) && (z <? Z.of_nat (List.length desktopMenuItems)))%Z
      then Some (ItemRef (Z.to_nat z)) else None
  | None => None
  end.

Definition prevIndex (currentIndex : Z) : option Z :=
  let n := Z.of_nat (List.length desktopMenuItems) in
  rem (currentIndex - 1 + n)%Z n.

Definition nextIndex (currentIndex : Z) : option Z :=
  let n := Z.of_nat (List.length desktopMenuItems) in
  rem (currentIndex + 1)%Z n.

(** The [switch] of [handleItemKeyDown]: the state after the case and
    [nextFocusTarget]. *)
Definition itemKeyCase (item : DesktopNavItemData) (key : Key) (r : State)
  : State * option FocusTarget :=
  let lowerLabel := toLowerCase (label item) in
  let currentIndex := findIndex item in
  match key with
  | Enter | Space =>
      if hasDropdown item then
        let newState := if activeDropdown r =? lowerLabel then "" else lowerLabel in
        let s1 := clearCloseTimer (setActiveDropdown newState r) in
        if negb (newState =? "")
        then (later (FocusLater (FirstMenuItemOf (label item))) 50 s1, None)
        else (s1, Some (CurrentTarget (id item)))
      else
        (match realUrl (url item) with
         | Some u => onNavigate u r
         | None => r
         end, None)
  | ArrowDown =>
      if hasDropdown item then
        if negb (activeDropdown r =? lowerLabel) then
          let s1 := clearCloseTimer (setActiveDropdown lowerLabel r) in
          (later (FocusLater (FirstMenuItemOf (label item))) 50 s1, None)
        else (focus (FirstMenuItemOf (label item)) r, None)
      else (r, None)
  | ArrowLeft => (r, itemRefAt (prevIndex currentIndex))
  | ArrowRight => (r, itemRefAt (nextIndex currentIndex))
  | Escape =>
      if truthy (activeDropdown r)
      then (closeDropdown r (Some (label item)) r, Some (CurrentTarget (id item)))
      else (r, None)
  | Tab =>
      if truthy (activeDropdown r)
      then (closeDropdown r None r, None)
      else (r, None)
  | _ => (r, None)
  end.

Definition handleItemKeyDown (item : DesktopNavItemData) (key : Key)
  (r : State) : State :=
  let (s1, nextFocusTarget) := itemKeyCase item key r in
  match nextFocusTarget with
  | Some t => later (FocusLater t) 0 s1
  | None => s1
  end.

(** [focusableElements[k]] for the [count] focusable elements of the panel. *)
Definition menuItemAt (count : nat) (k : Z) : option FocusTarget :=
  if ((0 <=? k) && (k <? Z.of_nat count))%Z
  then Some (MenuItemAt (Z.to_nat k)) else None.

(** [handleDropdownKeyDown]; [count] is [focusableElements.length] and
    [currentIndex] the position of [document.activeElement] among them
    ([-1] when it is none of them), both read from the DOM. *)
Definition handleDropdownKeyDown (key : Key) (count : nat) (currentIndex : Z)
  (r : State) : State :=
  if negb (truthy (activeDropdown r)) then r
  else if (count =? 0)%nat then r
  else
    let n := Z.of_nat count in
    match key with
    | ArrowDown | ArrowUp =>
        let move := match key with ArrowDown => 1%Z | _ => (-1)%Z end in
        match menuItemAt count (Z.rem (currentIndex + move + n) n) with
        | Some t => later (FocusLater t) 0 r
        | None => r
        end
    | HomeKey => later (FocusLater (MenuItemAt 0)) 0 r
    | EndKey => later (FocusLater (MenuItemAt (count - 1))) 0 r
    | Tab | Escape => closeDropdown r (Some (activeDropdown r)) r
    | _ => r
    end.

(** ** Effects (lines 327-338) *)

(** [handleClickOutside] for a mousedown outside [navRef]. *)
Definition handleClickOutside (r : State) : State :=
  if truthy (activeDropdown r) then setActiveDropdown "" r else r.

(** Unmounting runs the effect cleanups.  The only cleanup of this
    component removes the [mousedown] listener; the timer table is not
    touched. *)
Definition unmount (s : State) : State :=
  mkState (activeDropdown s) (isHoveringNavItem s) (isHoveringDropdown s)
    (mouseLeaveTimeoutRef s) (timers s) (nextTimerId s) (now s)
    (navigated s) (focused s) false.

(** ** Timer callbacks *)

(** A state setter called after unmount is discarded by React. *)
Definition setActiveDropdownIfMounted (v : string) (s : State) : State :=
  if mounted s then setActiveDropdown v s else s.

Definition refocusTrigger (triggerLabel : string) (s : State) : State :=
  match findByLabel triggerLabel with
  | Some triggerItem => focus (ElementById (id triggerItem)) s
  | None => s
  end.

Definition runTimerAction (a : TimerAction) (s : State) : State :=
  match a with
  | CloseIfNotHovering hoveringNavItem hoveringDropdown =>
      if negb hoveringNavItem && negb hoveringDropdown
      then setActiveDropdownIfMounted "" s else s
  | FocusLater t => focus t s
  | NavigateThenRefocus u triggerLabel =>
      refocusTrigger triggerLabel (onNavigate u s)
  | RefocusTrigger triggerLabel => refocusTrigger triggerLabel s
  end.

(** Let [dt] milliseconds pass: the timers that fall due run in order and
    leave the table. *)
Definition runAll (fired : list (Timer TimerAction)) (s : State) : State :=
  fold_left (fun st t => runTimerAction (act t) st) fired s.

Definition advance (dt : nat) (s : State) : State :=
  let limit := now s + dt in
  let fired := dueTimers limit (timers s) in
  let s1 := setNow limit (setTimers (laterTimers limit (timers s)) s) in
  runAll fired s1.

(** ** The events of the component *)

Inductive Event :=
| ItemHover (item : DesktopNavItemData)
| ItemLeave
| ItemFocus (item : DesktopNavItemData)
| ItemBlur
| DropdownEnter
| DropdownLeave
| ItemClick (item : DesktopNavItemData)
| DropdownItemClick (itemUrl : option string)
| ItemKeyDown (item : DesktopNavItemData) (key : Key)
| DropdownKeyDown (key : Key) (count : nat) (currentIndex : Z)
| ClickOutside
| Advance (dt : nat).

Definition handle (e : Event) (s : State) : State :=
  match e with
  | ItemHover item => handleItemHover item s
  | ItemLeave => handleItemLeave s
  | ItemFocus item => handleItemFocus item s
  | ItemBlur => handleItemBlur s
  | DropdownEnter => handleDropdownEnter s
  | DropdownLeave => handleDropdownLeave s
  | ItemClick item => handleDesktopItemClick item s
  | DropdownItemClick u => handleDropdownItemClick u s
  | ItemKeyDown item key => handleItemKeyDown item key s
  | DropdownKeyDown key count currentIndex =>
      handleDropdownKeyDown key count currentIndex s
  | ClickOutside => handleClickOutside s
  | Advance dt => advance dt s
  end.

Definition run (es : list Event) (s : State) : State :=
  fold_left (fun st e => handle e st) es s.

(** States of a mounted component: the initial render followed by events. *)
Inductive Reachable : State -> Prop :=
| reach_init : Reachable initialState
| reach_step s e : Reachable s -> Reachable (handle e s).

(** ** What is on screen and what is pending *)

(** The [dropdowns] table (lines 343-347), by key. *)
Definition dropdowns : list string := ["motorbikes"; "scooter"; "more"].

(** The panels inside [AnimatePresence]: those whose key is [activeDropdown]. *)
Definition renderedDropdowns (s : State) : list string :=
  filter (fun key => activeDropdown s =? key) dropdowns.

Definition isCloseTimer (t : Timer TimerAction) : bool :=
  match act t with CloseIfNotHovering _ _ => true | _ => false end.

(** The close timers still in the timer table. *)
Definition closeTimers (s : State) : list (Timer TimerAction) :=
  filter isCloseTimer (timers s).

(** The pending close timer: [mouseLeaveTimeoutRef.current] names a live timer. *)
Definition pendingCloseTimer (s : State) : option (Timer TimerAction) :=
  match mouseLeaveTimeoutRef s with
  | Some h => find (fun t => (tid t =? h)%nat) (timers s)
  | None => None
  end.

End Handlers.

End Desktop.

(* ------------------------------------------------------------------ *)
(** * components/DesktopDropdown.tsx *)

Module Dropdown.

Inductive ItemType := model | link.

(** [AnyDropdownItem]: [ModelItem], [LinkItem] and [MoreLinkItem] share
    [label] and [url]; [image] and [group] are optional. *)
Record DropdownItem := mkDropdownItem {
  label : string;
  url : option string;
  type : ItemType;
  image : option string;
  group : option Z
}.

Inductive DropdownType := motorbikes | scooters | more.

Definition isModel (item : DropdownItem) : bool :=
  match type item with model => true | link => false end.

Definition isLink (item : DropdownItem) : bool :=
  match type item with link => true | model => false end.

(** [item.type === 'link' && typeof item.group === 'number'] *)
Definition isMoreLink (item : DropdownItem) : bool :=
  match type item, group item with
  | link, Some _ => true
  | _, _ => false
  end.

(** The object built by [reduce]: property keys with their arrays, in the
    order in which the properties were created. *)
Definition Grouped := list (Z * list DropdownItem).

(** [acc[groupKey] = acc[groupKey] || []; acc[groupKey].push(item)] *)
Fixpoint pushInto (groupKey : Z) (item : DropdownItem) (acc : Grouped)
  : Grouped :=
  match acc with
  | [] => [(groupKey, [item])]
  | (k, v) :: rest =>
      if (k =? groupKey)%Z then (k, (v ++ [item])%list) :: rest
      else (k, v) :: pushInto groupKey item rest
  end.

Definition reducer (acc : Grouped) (item : DropdownItem) : Grouped :=
  match group item with
  | Some groupKey => pushInto groupKey item acc
  | None => acc
  end.

Definition groupItems (moreItems : list DropdownItem) : Grouped :=
  fold_left reducer moreItems [].

(** [groupedItems[groupIndex]] *)
Fixpoint lookupGroup (groupIndex : Z) (acc : Grouped)
  : option (list DropdownItem) :=
  match acc with
  | [] => None
  | (k, v) :: rest =>
      if (k =? groupIndex)%Z then Some v else lookupGroup groupIndex rest
  end.

(** The array found under a key after [pushed] was pushed onto [o]. *)
Definition extended (o : option (list DropdownItem))
  (pushed : list DropdownItem) : option (list DropdownItem) :=
  match pushed with
  | [] => o
  | _ => Some (match o with Some v => v | None => [] end ++ pushed)%list
  end.

(** Property keys that are array indices come first in [Object.keys],
    in ascending order; the others follow in creation order. *)
Definition isArrayIndex (k : Z) : bool :=
  ((0 <=? k) && (k <? 4294967295))%Z.

Fixpoint insertAscending (k : Z) (ks : list Z) : list Z :=
  match ks with
  | [] => [k]
  | j :: rest =>
      if (k <? j)%Z then k :: j :: rest else j :: insertAscending k rest
  end.

Definition objectKeys (acc : Grouped) : list Z :=
  let keys := map fst acc in
  (fold_left (fun sorted k => insertAscending k sorted)
     (filter isArrayIndex keys) []
   ++ filter (fun k => negb (isArrayIndex k)) keys)%list.

(** [String(k)] for an integer. *)
Definition numberToString (k : Z) : string :=
  NilZero.string_of_int (Z.to_int k).

(** [Array.prototype.sort()] without a comparator: stable, by the string
    form of the elements. *)
Fixpoint insertByString (k : Z) (ks : list Z) : list Z :=
  match ks with
  | [] => [k]
  | j :: rest =>
      if String.ltb (numberToString k) (numberToString j)
      then k :: j :: rest else j :: insertByString k rest
  end.

Definition defaultSort (ks : list Z) : list Z :=
  fold_left (fun sorted k => insertByString k sorted) ks [].

(** What [renderDropdownContent] puts inside the panel. *)
Inductive Content :=
| NoItemsAvailable
| ModelsAndLinks (models links : list DropdownItem)
| MoreGroups (groups : list (Z * list DropdownItem)) (placeholders : nat).

Definition renderDropdownContent (type : DropdownType)
  (items : list DropdownItem) : Content :=
  match type with
  | motorbikes | scooters =>
      let models := filter isModel items in
      let links := filter isLink items in
      if ((List.length models =? 0) && (List.length links =? 0))%nat
      then NoItemsAvailable
      else ModelsAndLinks models links
  | more =>
      let moreItems := filter isMoreLink items in
      let groupedItems := groupItems moreItems in
      let groupKeys := defaultSort (objectKeys groupedItems) in
      if (List.length moreItems =? 0)%nat then NoItemsAvailable
      else
        MoreGroups
          (map (fun groupIndex =>
                  (groupIndex,
                   match lookupGroup groupIndex groupedItems with
                   | Some v => v
                   | None => []
                   end)) groupKeys)
          (Nat.max 0 (2 - List.length groupKeys))
  end.

(** The items of a dataset that carry group [g], in dataset order. *)
Definition inGroup (g : Z) (item : DropdownItem) : bool :=
  match group item with
  | Some k => (k =? g)%Z
  | None => false
  end.

End Dropdown.

(* ------------------------------------------------------------------ *)
(** * MobileNavigation.tsx *)

Module Mobile.

Import Js.

Inductive Icon := right | topRight | moreIcon.
Inductive Variant := mobile | mobileChild | mobileSubItem.

(** [MobileNavItemData] (components/MobileMenu.tsx).  The object
    [{ back: true }] sent by the bottom button has no label; it is
    [backItem] below. *)
Record MobileNavItemData := mkMobileItem {
  label : string;
  hasChildren : option bool;
  icon : option Icon;
  variant : option Variant;
  url : option string;
  back : option bool
}.

(** An item that has no children and is not the back item. *)
Definition isLeaf (item : MobileNavItemData) : Prop :=
  hasChildren item = Some false /\ back item = None.

Definition backItem : MobileNavItemData :=
  mkMobileItem "" None None None None (Some true).

Inductive TimerAction :=
| ResetSubmenu                                   (* handleMenuToggle *)
| ResetThenNavigate (itemUrl : option string).   (* handleMobileItemClick *)

Record State := mkState {
  mobileMenuOpen : bool;
  activeSubmenu : string;
  submenuItems : list MobileNavItemData;
  timers : list (Timer TimerAction);
  nextTimerId : nat;
  now : nat;
  navigated : list string;
  mounted : bool
}.

Definition initialState : State := mkState false "" [] [] 1 0 [] true.

Definition setMobileMenuOpen (v : bool) (s : State) : State :=
  mkState v (activeSubmenu s) (submenuItems s) (timers s) (nextTimerId s)
    (now s) (navigated s) (mounted s).

Definition setActiveSubmenu (v : string) (s : State) : State :=
  mkState (mobileMenuOpen s) v (submenuItems s) (timers s) (nextTimerId s)
    (now s) (navigated s) (mounted s).

Definition setSubmenuItems (v : list MobileNavItemData) (s : State) : State :=
  mkState (mobileMenuOpen s) (activeSubmenu s) v (timers s) (nextTimerId s)
    (now s) (navigated s) (mounted s).

Definition onNavigate (u : string) (s : State) : State :=
  mkState (mobileMenuOpen s) (activeSubmenu s) (submenuItems s) (timers s)
    (nextTimerId s) (now s) (navigated s ++ [u]) (mounted s).

(** [setTimeout(callback, delay)]; the handle is dropped by every caller. *)
Definition later (a : TimerAction) (delay : nat) (s : State) : State :=
  mkState (mobileMenuOpen s) (activeSubmenu s) (submenuItems s)
    (timers s ++ [mkTimer (nextTimerId s) (now s + delay) a])
    (S (nextTimerId s)) (now s) (navigated s) (mounted s).

Section Handlers.

Variable mobileMenuItems : list MobileNavItemData.
Variable motorbikesDropdownItems : list Dropdown.DropdownItem.
Variable scootersDropdownItems : list Dropdown.DropdownItem.
Variable moreDropdownItems : list Dropdown.DropdownItem.

Definition mapMoreItem (item : Dropdown.DropdownItem) : MobileNavItemData :=
  mkMobileItem (Dropdown.label item) (Some false) (Some topRight)
    (Some mobileChild) (Dropdown.url item) None.

Definition mapSourceItem (item : Dropdown.DropdownItem) : MobileNavItemData :=
  mkMobileItem (Dropdown.label item) (Some false)
    (Some (match Dropdown.type item with
           | Dropdown.model => right
           | Dropdown.link => topRight
           end))
    (Some (match Dropdown.type item with
           | Dropdown.model => mobileChild
           | Dropdown.link => mobileSubItem
           end))
    (Dropdown.url item) None.

(** Lines 226-241. *)
Definition getSubmenuItemsForCategory (categoryLabel : string)
  : list MobileNavItemData :=
  let categoryLower := toLowerCase categoryLabel in
  if categoryLower =? "motorbikes" then map mapSourceItem motorbikesDropdownItems
  else if categoryLower =? "scooters" then map mapSourceItem scootersDropdownItems
  else if categoryLower =? "more" then map mapMoreItem moreDropdownItems
  else [].

(** Lines 244-254. *)
Definition handleMenuToggle (r : State) : State :=
  let closing := mobileMenuOpen r in
  let s1 := setMobileMenuOpen (negb (mobileMenuOpen r)) r in
  if closing then later ResetSubmenu 300 s1 else s1.

(** Lines 256-276. *)
Definition handleMobileItemClick (item : MobileNavItemData) (r : State)
  : State :=
  if flag (back item) then setActiveSubmenu "" r
  else if flag (hasChildren item) then
    let newSubmenuItems := getSubmenuItemsForCategory (label item) in
    setSubmenuItems newSubmenuItems (setActiveSubmenu (label item) r)
  else
    later (ResetThenNavigate (url item)) 300 (setMobileMenuOpen false r).

(** Line 279. *)
Definition currentMobileNavItems (s : State) : list MobileNavItemData :=
  if truthy (activeSubmenu s) then submenuItems s else mobileMenuItems.

(** This component registers no cleanup: unmounting leaves the timer
    table as it is. *)
Definition unmount (s : State) : State :=
  mkState (mobileMenuOpen s) (activeSubmenu s) (submenuItems s) (timers s)
    (nextTimerId s) (now s) (navigated s) false.

(** The two state resets of a callback; React discards them once the
    component is unmounted. *)
Definition resetSubmenu (s : State) : State :=
  if mounted s then setSubmenuItems [] (setActiveSubmenu "" s) else s.

Definition runTimerAction (a : TimerAction) (s : State) : State :=
  match a with
  | ResetSubmenu => resetSubmenu s
  | ResetThenNavigate itemUrl =>
      let s1 := resetSubmenu s in
      match realUrl itemUrl with
      | Some u => onNavigate u s1
      | None => s1
      end
  end.

Definition runAll (fired : list (Timer TimerAction)) (s : State) : State :=
  fold_left (fun st t => runTimerAction (act t) st) fired s.

Definition advance (dt : nat) (s : State) : State :=
  let limit := now s + dt in
  let fired := dueTimers limit (timers s) in
  let s1 :=
    mkState (mobileMenuOpen s) (activeSubmenu s) (submenuItems s)
      (laterTimers limit (timers s)) (nextTimerId s) limit
      (navigated s) (mounted s) in
  runAll fired s1.

(** The inputs the rendered drawer can deliver (MobileMenu.tsx): the
    toggle / close / Escape action, a click on one of the listed items,
    the bottom button in its "Back" role, and the passing of time. *)
Inductive Reachable : State -> Prop :=
| reach_init : Reachable initialState
| reach_toggle s : Reachable s -> Reachable (handleMenuToggle s)
| reach_item s item :
    Reachable s -> In item (currentMobileNavItems s) ->
    Reachable (handleMobileItemClick item s)
| reach_back s :
    Reachable s -> truthy (activeSubmenu s) = true ->
    Reachable (handleMobileItemClick backItem s)
| reach_advance s dt : Reachable s -> Reachable (advance dt s).

End Handlers.

End Mobile.

(* ------------------------------------------------------------------ *)
(** * NavigationContainer.tsx *)

Module Container.

Import Js.

(** The only callback this component hands to [setTimeout]. *)
Inductive TimerAction :=
| CloseIfNotHovering (hoveringNav hoveringDropdown : bool).

Record State := mkState {
  isMobile : bool;
  mobileMenuOpen : bool;
  activeSubmenu : string;
  submenuItems : list Mobile.MobileNavItemData;
  activeDropdown : string;
  isHoveringNav : bool;
  isHoveringDropdown : bool;
  mouseLeaveTimeoutRef : option nat;
  timers : list (Timer TimerAction);
  nextTimerId : nat;
  now : nat;
  navigated : list string;
  mounted : bool
}.

Definition initialState : State :=
  mkState false false "" [] "" false false None [] 1 0 [] true.

Definition setIsMobile (v : bool) (s : State) : State :=
  mkState v (mobileMenuOpen s) (activeSubmenu s) (submenuItems s)
    (activeDropdown s) (isHoveringNav s) (isHoveringDropdown s)
    (mouseLeaveTimeoutRef s) (timers s) (nextTimerId s) (now s)
    (navigated s) (mounted s).

Definition setMobileMenuOpen (v : bool) (s : State) : State :=
  mkState (isMobile s) v (activeSubmenu s) (submenuItems s)
    (activeDropdown s) (isHoveringNav s) (isHoveringDropdown s)
    (mouseLeaveTimeoutRef s) (timers s) (nextTimerId s) (now s)
    (navigated s) (mounted s).

(** [setActiveSubmenu(label); setSubmenuItems(items)] *)
Definition setSubmenu (v : string) (items : list Mobile.MobileNavItemData)
  (s : State) : State :=
  mkState (isMobile s) (mobileMenuOpen s) v items
    (activeDropdown s) (isHoveringNav s) (isHoveringDropdown s)
    (mouseLeaveTimeoutRef s) (timers s) (nextTimerId s) (now s)
    (navigated s) (mounted s).

Definition setActiveDropdown (v : string) (s : State) : State :=
  mkState (isMobile s) (mobileMenuOpen s) (activeSubmenu s) (submenuItems s)
    v (isHoveringNav s) (isHoveringDropdown s)
    (mouseLeaveTimeoutRef s) (timers s) (nextTimerId s) (now s)
    (navigated s) (mounted s).

Definition setIsHoveringNav (v : bool) (s : State) : State :=
  mkState (isMobile s) (mobileMenuOpen s) (activeSubmenu s) (submenuItems s)
    (activeDropdown s) v (isHoveringDropdown s)
    (mouseLeaveTimeoutRef s) (timers s) (nextTimerId s) (now s)
    (navigated s) (mounted s).

Definition setIsHoveringDropdown (v : bool) (s : State) : State :=
  mkState (isMobile s) (mobileMenuOpen s) (activeSubmenu s) (submenuItems s)
    (activeDropdown s) (isHoveringNav s) v
    (mouseLeaveTimeoutRef s) (timers s) (nextTimerId s) (now s)
    (navigated s) (mounted s).

Definition setRef (h : option nat) (s : State) : State :=
  mkState (isMobile s) (mobileMenuOpen s) (activeSubmenu s) (submenuItems s)
    (activeDropdown s) (isHoveringNav s) (isHoveringDropdown s)
    h (timers s) (nextTimerId s) (now s) (navigated s) (mounted s).

Definition setTimers (ts : list (Timer TimerAction)) (s : State) : State :=
  mkState (isMobile s) (mobileMenuOpen s) (activeSubmenu s) (submenuItems s)
    (activeDropdown s) (isHoveringNav s) (isHoveringDropdown s)
    (mouseLeaveTimeoutRef s) ts (nextTimerId s) (now s)
    (navigated s) (mounted s).

Definition setTimeout (a : TimerAction) (delay : nat) (s : State)
  : nat * State :=
  (nextTimerId s,
   mkState (isMobile s) (mobileMenuOpen s) (activeSubmenu s) (submenuItems s)
     (activeDropdown s) (isHoveringNav s) (isHoveringDropdown s)
     (mouseLeaveTimeoutRef s)
     (timers s ++ [mkTimer (nextTimerId s) (now s + delay) a])
     (S (nextTimerId s)) (now s) (navigated s) (mounted s)).

Definition onNavigate (u : string) (s : State) : State :=
  mkState (isMobile s) (mobileMenuOpen s) (activeSubmenu s) (submenuItems s)
    (activeDropdown s) (isHoveringNav s) (isHoveringDropdown s)
    (mouseLeaveTimeoutRef s) (timers s) (nextTimerId s) (now s)
    (navigated s ++ [u]) (mounted s).

(** Lines 109-121.  Timer handles are positive, so the test
    [if (mouseLeaveTimeoutRef.current)] only excludes [null]. *)
Definition startCloseTimer (r s : State) : State :=
  let s1 := setTimers (clearTimeout (mouseLeaveTimeoutRef s) (timers s)) s in
  let (h, s2) :=
    setTimeout (CloseIfNotHovering (isHoveringNav r) (isHoveringDropdown r))
      200 s1 in
  setRef (Some h) s2.

Definition clearCloseTimer (s : State) : State :=
  setRef None (setTimers (clearTimeout (mouseLeaveTimeoutRef s) (timers s)) s).

Section Handlers.

Variable showDropdowns : bool.
Variable desktopMenuItems : list Desktop.DesktopNavItemData.
Variable mobileMenuItems : list Mobile.MobileNavItemData.
Variable motorbikesDropdownItems : list Dropdown.DropdownItem.
Variable scootersDropdownItems : list Dropdown.DropdownItem.
Variable moreDropdownItems : list Dropdown.DropdownItem.

(** Lines 126-171. *)
Definition handleItemHover (itemLabel : string) (r : State) : State :=
  if isMobile r || negb showDropdowns then r
  else
    let s1 := clearCloseTimer (setIsHoveringNav true r) in
    let itemConfig :=
      find (fun item => Desktop.label item =? itemLabel) desktopMenuItems in
    setActiveDropdown
      (match itemConfig with
       | Some item =>
           if Desktop.hasDropdown item then toLowerCase itemLabel else ""
       | None => ""
       end) s1.

Definition handleNavLeave (r : State) : State :=
  if negb (isMobile r) then startCloseTimer r (setIsHoveringNav false r)
  else r.

Definition handleDropdownEnter (r : State) : State :=
  if negb (isMobile r) then clearCloseTimer (setIsHoveringDropdown true r)
  else r.

Definition handleDropdownLeave (r : State) : State :=
  if negb (isMobile r) then startCloseTimer r (setIsHoveringDropdown false r)
  else r.

Definition handleDesktopItemClick (item : Desktop.DesktopNavItemData)
  (r : State) : State :=
  if isMobile r then r
  else if negb (Desktop.hasDropdown item) || negb showDropdowns then
    let s1 := setActiveDropdown "" r in
    match Desktop.url item with
    | Some u => if truthy u then onNavigate u s1 else s1
    | None => s1
    end
  else
    let lowerLabel := toLowerCase (Desktop.label item) in
    clearCloseTimer
      (setActiveDropdown
         (if activeDropdown r =? lowerLabel then "" else lowerLabel) r).

Definition handleDropdownItemClick (itemUrl : option string) (r : State)
  : State :=
  let s1 := setActiveDropdown "" r in
  match itemUrl with
  | Some u => if truthy u then onNavigate u s1 else s1
  | None => s1
  end.

(** Lines 173-200.  The submenu mapping (lines 78-106) is the one of
    MobileNavigation.tsx. *)
Definition handleMenuToggle (r : State) : State :=
  let s1 := setMobileMenuOpen (negb (mobileMenuOpen r)) r in
  if mobileMenuOpen r then setSubmenu "" [] s1 else s1.

Definition handleMobileItemClick (item : Mobile.MobileNavItemData)
  (r : State) : State :=
  if flag (Mobile.back item) then setSubmenu "" [] r
  else if flag (Mobile.hasChildren item) then
    setSubmenu (Mobile.label item)
      (Mobile.getSubmenuItemsForCategory motorbikesDropdownItems
         scootersDropdownItems moreDropdownItems (Mobile.label item)) r
  else
    let s1 := setSubmenu "" [] (setMobileMenuOpen false r) in
    match Mobile.url item with
    | Some u => if truthy u then onNavigate u s1 else s1
    | None => s1
    end.

(** The media query changes (lines 28-46) and the effect on [isMobile]
    (lines 203-212) runs. *)
Definition handleMediaChange (matches : bool) (r : State) : State :=
  if Bool.eqb matches (isMobile r) then r
  else if negb matches
  then setSubmenu "" [] (setMobileMenuOpen false (setIsMobile matches r))
  else setActiveDropdown "" (setIsMobile matches r).

(** Lines 215-221: the cleanup clears the timer named by the ref. *)
Definition unmount (s : State) : State :=
  mkState (isMobile s) (mobileMenuOpen s) (activeSubmenu s) (submenuItems s)
    (activeDropdown s) (isHoveringNav s) (isHoveringDropdown s)
    (mouseLeaveTimeoutRef s)
    (clearTimeout (mouseLeaveTimeoutRef s) (timers s))
    (nextTimerId s) (now s) (navigated s) false.

Definition runTimerAction (a : TimerAction) (s : State) : State :=
  match a with
  | CloseIfNotHovering hoveringNav hoveringDropdown =>
      if negb hoveringNav && negb hoveringDropdown && mounted s
      then setActiveDropdown "" s else s
  end.

Definition runAll (fired : list (Timer TimerAction)) (s : State) : State :=
  fold_left (fun st t => runTimerAction (act t) st) fired s.

Definition advance (dt : nat) (s : State) : State :=
  let limit := now s + dt in
  let fired := dueTimers limit (timers s) in
  let s1 :=
    mkState (isMobile s) (mobileMenuOpen s) (activeSubmenu s) (submenuItems s)
      (activeDropdown s) (isHoveringNav s) (isHoveringDropdown s)
      (mouseLeaveTimeoutRef s) (laterTimers limit (timers s))
      (nextTimerId s) limit (navigated s) (mounted s) in
  runAll fired s1.

Inductive Event :=
| ItemHover (itemLabel : string)
| NavLeave
| DropdownEnter
| DropdownLeave
| ItemClick (item : Desktop.DesktopNavItemData)
| DropdownItemClick (itemUrl : option string)
| MenuToggle
| MobileItemClick (item : Mobile.MobileNavItemData)
| MediaChange (matches : bool)
| Advance (dt : nat).

Definition handle (e : Event) (s : State) : State :=
  match e with
  | ItemHover l => handleItemHover l s
  | NavLeave => handleNavLeave s
  | DropdownEnter => handleDropdownEnter s
  | DropdownLeave => handleDropdownLeave s
  | ItemClick item => handleDesktopItemClick item s
  | DropdownItemClick u => handleDropdownItemClick u s
  | MenuToggle => handleMenuToggle s
  | MobileItemClick item => handleMobileItemClick item s
  | MediaChange m => handleMediaChange m s
  | Advance dt => advance dt s
  end.

Inductive Reachable : State -> Prop :=
| reach_init : Reachable initialState
| reach_step s e : Reachable s -> Reachable (handle e s).

End Handlers.

End Container.

(* ------------------------------------------------------------------ *)
(** * Example configurations *)

Module Scenario.

Import Desktop.

(** The two entries of the click scenario. *)
Definition entryA : DesktopNavItemData := mkItem "a" "Motorbikes" true None.
Definition entryB : DesktopNavItemData :=
  mkItem "b" "Contact" false (Some "#contact").
Definition entries : list DesktopNavItemData := [entryA; entryB].

(** A second submenu owner. *)
Definition entryMore : DesktopNavItemData := mkItem "m" "More" true None.

(** Two entries that carry the same id. *)
Definition twinFirst : DesktopNavItemData := mkItem "nav" "Motorbikes" true None.
Definition twinLast : DesktopNavItemData :=
  mkItem "nav" "Contact" false (Some "#contact").
Definition twins : list DesktopNavItemData := [twinFirst; twinLast].


(** The datasets of [navigation.data.ts]. *)
Definition moreDropdownItems : list Dropdown.DropdownItem :=
  [ Dropdown.mkDropdownItem "About Us" (Some "#about") Dropdown.link None (Some 0%Z);
    Dropdown.mkDropdownItem "Press" (Some "#press") Dropdown.link None (Some 0%Z);
    Dropdown.mkDropdownItem "Blog" (Some "#blog") Dropdown.link None (Some 0%Z);
    Dropdown.mkDropdownItem "Become a Dealer" (Some "#become-dealer") Dropdown.link None (Some 0%Z);
    Dropdown.mkDropdownItem "Support" (Some "#support") Dropdown.link None (Some 1%Z);
    Dropdown.mkDropdownItem "Contact Us" (Some "#contact-more") Dropdown.link None (Some 1%Z);
    Dropdown.mkDropdownItem "FAQ" (Some "#faq") Dropdown.link None (Some 1%Z);
    Dropdown.mkDropdownItem "Compare Models" (Some "#compare-models-more") Dropdown.link None (Some 1%Z) ].

Definition motorbikesDropdownItems : list Dropdown.DropdownItem :=
  [ Dropdown.mkDropdownItem "KM5000" (Some "#km5000") Dropdown.model
      (Some "https://via.placeholder.com/370x208/CCCCCC/404040?text=KM5000") None;
    Dropdown.mkDropdownItem "KM4000" (Some "#km4000") Dropdown.model
      (Some "https://via.placeholder.com/370x208/CCCCCC/404040?text=KM4000") None;
    Dropdown.mkDropdownItem "KM3000" (Some "#km3000") Dropdown.model
      (Some "https://via.placeholder.com/370x208/CCCCCC/404040?text=KM3000") None;
    Dropdown.mkDropdownItem "Test Rides" (Some "#test-rides") Dropdown.link None None;
    Dropdown.mkDropdownItem "Book Now" (Some "#book-now") Dropdown.link None None;
    Dropdown.mkDropdownItem "Locate a Store" (Some "#locate-store") Dropdown.link None None;
    Dropdown.mkDropdownItem "Compare Models" (Some "#compare-models") Dropdown.link None None ].

Definition scootersDropdownItems : list Dropdown.DropdownItem :=
  [ Dropdown.mkDropdownItem "KS3000" (Some "#ks3000") Dropdown.model
      (Some "https://via.placeholder.com/370x208/DDDDDD/404040?text=KS3000") None;
    Dropdown.mkDropdownItem "KS2000" (Some "#ks2000") Dropdown.model
      (Some "https://via.placeholder.com/370x208/DDDDDD/404040?text=KS2000") None;
    Dropdown.mkDropdownItem "KS1000" (Some "#ks1000") Dropdown.model
      (Some "https://via.placeholder.com/370x208/DDDDDD/404040?text=KS1000") None;
    Dropdown.mkDropdownItem "Test Rides" (Some "#test-rides-scooter") Dropdown.link None None;
    Dropdown.mkDropdownItem "Book Now" (Some "#book-now-scooter") Dropdown.link None None;
    Dropdown.mkDropdownItem "Locate a Store" (Some "#locate-store-scooter") Dropdown.link None None;
    Dropdown.mkDropdownItem "Compare Models" (Some "#compare-models-scooter") Dropdown.link None None ].

Definition rootItem (l : string) (children : bool) (i : Mobile.Icon)
  : Mobile.MobileNavItemData :=
  Mobile.mkMobileItem l (Some children) (Some i) (Some Mobile.mobile)
    (Some "#") None.

Definition mobileMenuItems : list Mobile.MobileNavItemData :=
  [ rootItem "Motorbikes" true Mobile.right;
    rootItem "Scooters" true Mobile.right;
    rootItem "Micromobility" false Mobile.right;
    rootItem "Fleet" false Mobile.right;
    rootItem "Find a Dealer" false Mobile.right;
    rootItem "Contact Us" false Mobile.right;
    rootItem "More" true Mobile.moreIcon ].

(** The same eight "more" links with the two groups interleaved, a
    group-1 link first. *)
Definition moreInterleaved : list Dropdown.DropdownItem :=
  [ Dropdown.mkDropdownItem "Support" (Some "#support") Dropdown.link None (Some 1%Z);
    Dropdown.mkDropdownItem "About Us" (Some "#about") Dropdown.link None (Some 0%Z);
    Dropdown.mkDropdownItem "Contact Us" (Some "#contact-more") Dropdown.link None (Some 1%Z);
    Dropdown.mkDropdownItem "Press" (Some "#press") Dropdown.link None (Some 0%Z);
    Dropdown.mkDropdownItem "Blog" (Some "#blog") Dropdown.link None (Some 0%Z);
    Dropdown.mkDropdownItem "FAQ" (Some "#faq") Dropdown.link None (Some 1%Z);
    Dropdown.mkDropdownItem "Compare Models" (Some "#compare-models-more") Dropdown.link None (Some 1%Z);
    Dropdown.mkDropdownItem "Become a Dealer" (Some "#become-dealer") Dropdown.link None (Some 0%Z) ].

(** A "more" dataset whose only link has the placeholder href. *)
Definition morePlaceholder : list Dropdown.DropdownItem :=
  [ Dropdown.mkDropdownItem "About Us" (Some "#") Dropdown.link None (Some 0%Z) ].

(** The drawer opened on the "More" category. *)
Definition drawerOnMore (moreItems : list Dropdown.DropdownItem)
  : Mobile.State :=
  Mobile.handleMobileItemClick motorbikesDropdownItems scootersDropdownItems
    moreItems (rootItem "More" true Mobile.moreIcon)
    (Mobile.handleMenuToggle Mobile.initialState).

End Scenario.

(* ------------------------------------------------------------------ *)
(** * Invariants of the desktop controller *)

Module DesktopInv.

Import Desktop.

(** A callback that will close the dropdown when it runs. *)
Definition closes (a : TimerAction) : bool :=
  match a with
  | CloseIfNotHovering false false => true
  | _ => false
  end.

(** What holds of the timer table after the initial render and after
    every event. *)
Record Inv (s : State) : Prop := mkInv {
  inv_mounted : mounted s = true;
  inv_ids : forall t, In t (timers s) -> tid t < nextTimerId s;
  inv_ref : forall h, mouseLeaveTimeoutRef s = Some h -> h < nextTimerId s;
  inv_close : forall t, In t (timers s) ->
    (isCloseTimer t = true <-> mouseLeaveTimeoutRef s = Some (tid t));
  inv_capture : forall t n d, In t (timers s) ->
    act t = CloseIfNotHovering n d ->
    (n = false -> isHoveringNavItem s = false) /\
    (d = false -> isHoveringDropdown s = false) /\
    (isHoveringNavItem s = false \/ isHoveringDropdown s = false);
  inv_one : List.length (closeTimers s) <= 1
}.

(** [s'] has the timer table, the timer ref and the mount status of [s]. *)
Record SameTimers (s s' : State) : Prop := mkSame {
  same_timers : timers s' = timers s;
  same_next : nextTimerId s' = nextTimerId s;
  same_ref : mouseLeaveTimeoutRef s' = mouseLeaveTimeoutRef s;
  same_mounted : mounted s' = mounted s
}.

(** A step that leaves hover flags and ref alone and at most schedules
    callbacks other than the close callback. *)
Record Quiet (s s' : State) : Prop := mkQuiet {
  q_nav : isHoveringNavItem s' = isHoveringNavItem s;
  q_drop : isHoveringDropdown s' = isHoveringDropdown s;
  q_ref : mouseLeaveTimeoutRef s' = mouseLeaveTimeoutRef s;
  q_mounted : mounted s' = mounted s;
  q_next : nextTimerId s <= nextTimerId s';
  q_timers : exists extra,
    timers s' = (timers s ++ extra)%list /\
    Forall (fun t => isCloseTimer t = false /\
                     nextTimerId s <= tid t < nextTimerId s') extra
}.

End DesktopInv.

(* ------------------------------------------------------------------ *)
(** * components/NavBar.tsx and components/NavItem.tsx *)

Module NavBar.

Import Js.

(** The props [NavBar] passes to one [NavItem] (NavItem.tsx lines 157-176). *)
Record NavItemProps := mkProps {
  id : string;
  label : string;
  isActive : bool;
  hasPopup : bool;
  isExpanded : bool;
  controlsId : option string;
  href : option string
}.

(** The default of the [getDropdownId] prop. *)
Definition defaultGetDropdownId (l : string) : string :=
  "dropdown-" ++ toLowerCase l.

Definition navItemProps (getDropdownId : string -> string)
  (activeItemLabel activeDropdownLabel : string)
  (item : Desktop.DesktopNavItemData) : NavItemProps :=
  mkProps (Desktop.id item) (Desktop.label item)
    (activeItemLabel =? Desktop.label item)
    (Desktop.hasDropdown item)
    (Desktop.hasDropdown item &&
     (toLowerCase activeDropdownLabel =? toLowerCase (Desktop.label item)))
    (if Desktop.hasDropdown item
     then Some (getDropdownId (Desktop.label item)) else None)
    (Desktop.url item).

(** The attributes [NavItem] writes on its anchor (NavItem.tsx lines 62-75). *)
Record Anchor := mkAnchor {
  anchorId : string;
  anchorHref : string;
  ariaHaspopup : option string;
  ariaExpanded : option bool;
  ariaControls : option string
}.

Definition navItem (p : NavItemProps) : Anchor :=
  mkAnchor (id p)
    (match href p with Some h => h | None => "#" end)
    (if hasPopup p then Some "menu" else None)
    (if hasPopup p then Some (isExpanded p) else None)
    (if hasPopup p then controlsId p else None).

End NavBar.

(* ------------------------------------------------------------------ *)
(** * DesktopNavigation.tsx: element ids and what is rendered *)

Module DesktopRender.

Import Js Desktop.

Section Ids.

(** [useId()] and the effect of [.replace(/\s+/g, '-')] on a string are
    taken as given. *)
Variable navId : string.
Variable dashSpaces : string -> string.

(** Lines 49-50. *)
Definition getNavItemId (baseId : string) : string :=
  navId ++ "-item-" ++ dashSpaces (toLowerCase baseId).

Definition getDropdownId (baseId : string) : string :=
  navId ++ "-dropdown-" ++ dashSpaces (toLowerCase baseId).

Variable desktopMenuItems : list DesktopNavItemData.

(** The anchors of the top-level strip (lines 352-368): [NavBar] is given
    [activeDropdown] as [activeDropdownLabel] and [getDropdownId]. *)
Definition anchorOf (initialActiveItem : string) (s : State)
  (item : DesktopNavItemData) : NavBar.Anchor :=
  NavBar.navItem
    (NavBar.navItemProps getDropdownId initialActiveItem (activeDropdown s)
       item).

(** The [id] of each panel inside [AnimatePresence] (lines 372-377). *)
Definition renderedPanelIds (s : State) : list string :=
  map getDropdownId (renderedDropdowns s).

(** [desktopMenuItems.find(i => i.label.toLowerCase() === key)?.id || ""]
    (line 379). *)
Definition triggerId (key : string) : string :=
  match find (fun i => toLowerCase (label i) =? key) desktopMenuItems with
  | Some i => id i
  | None => ""
  end.

End Ids.

End DesktopRender.

(* ------------------------------------------------------------------ *)
(** * components/MobileMenu.tsx *)

Module MobileMenu.

Import Js Mobile.

(** What the icon place of a list row holds. *)
Inductive IconSlot :=
| NoSlot                                   (* nothing is rendered *)
| EmptySlot                                (* the wrapper without an icon *)
| Glyph (iconName sizeClass : string).

(** [renderIcon] (lines 72-92). *)
Definition renderIcon (item : MobileNavItemData) : IconSlot :=
  match icon item with
  | Some moreIcon => Glyph "more_horiz" "text-xl"
  | Some topRight => Glyph "arrow_outward" "text-xl"
  | other =>
      if flag (hasChildren item) ||
         match other with Some right => true | _ => false end
      then Glyph "arrow_forward_ios" "text-lg"
      else EmptySlot
  end.

(** [(item.icon || item.hasChildren) && renderIcon(item)] (line 163). *)
Definition rowIcon (item : MobileNavItemData) : IconSlot :=
  if match icon item with Some _ => true | None => false end ||
     flag (hasChildren item)
  then renderIcon item else NoSlot.

Section Wiring.

Variable motorbikesDropdownItems : list Dropdown.DropdownItem.
Variable scootersDropdownItems : list Dropdown.DropdownItem.
Variable moreDropdownItems : list Dropdown.DropdownItem.

(** The props of MobileNavigation.tsx (lines 292-298):
    [onClose = handleMenuToggle], [onItemClick = handleMobileItemClick]. *)

(** The keydown listener exists only while [isOpen] (lines 36-42). *)
Definition escapeKey (s : State) : State :=
  if mobileMenuOpen s then handleMenuToggle s else s.

(** The bottom button (line 180). *)
Definition bottomButton (s : State) : State :=
  if truthy (activeSubmenu s)
  then handleMobileItemClick motorbikesDropdownItems scootersDropdownItems
         moreDropdownItems backItem s
  else handleMenuToggle s.

(** Its text (line 186). *)
Definition bottomButtonText (s : State) : string :=
  if truthy (activeSubmenu s) then "Back" else "Close".

End Wiring.

End MobileMenu.

(* ------------------------------------------------------------------ *)
(** * URLs that pass the guard [url && url !== '#'] *)

Definition okUrl (u : string) : Prop := u <> "" /\ u <> "#".

(** Group indices whose decimal text is one character. *)
Definition isDigit (k : Z) : Prop := (0 <= k <= 9)%Z.

(** The navigation log holds guarded URLs only, and so does every
    scheduled navigation. *)
Module Guards.

Definition desktop (s : Desktop.State) : Prop :=
  Forall okUrl (Desktop.navigated s) /\
  forall t u l, In t (Desktop.timers s) ->
    act t = Desktop.NavigateThenRefocus u l -> okUrl u.

Definition mobile (s : Mobile.State) : Prop :=
  Forall okUrl (Mobile.navigated s).



End Guards.

(* ================================================================== *)
(** * Facts about the timer table *)

Local Open Scope list_scope.

Section TimerTableFacts.

Variable A : Type.
Implicit Types (t u : Timer A) (ts : list (Timer A)).

Lemma In_insertByDue t u ts :
  In u (insertByDue t ts) <-> u = t \/ In u ts.
Proof.
  induction ts as [|v rest IH]; simpl.
  - intuition congruence.
  - destruct (due t <? due v)%nat; simpl; [|rewrite IH]; intuition congruence.
Qed.

Lemma In_sortByDue_from u ts acc :
  In u (fold_left (fun a t => insertByDue t a) ts acc) <-> In u ts \/ In u acc.
Proof.
  revert acc; induction ts as [|v rest IH]; intros acc; simpl.
  - tauto.
  - rewrite IH, In_insertByDue. intuition congruence.
Qed.

Lemma In_sortByDue u ts : In u (sortByDue ts) <-> In u ts.
Proof. unfold sortByDue. rewrite In_sortByDue_from. simpl. tauto. Qed.

Lemma In_dueTimers u limit ts :
  In u (dueTimers limit ts) <-> In u ts /\ due u <= limit.
Proof.
  unfold dueTimers. rewrite In_sortByDue, filter_In. unfold isDue.
  rewrite Nat.leb_le. tauto.
Qed.

Lemma In_laterTimers u limit ts :
  In u (laterTimers limit ts) <-> In u ts /\ limit < due u.
Proof.
  unfold laterTimers. rewrite filter_In. unfold isDue.
  rewrite negb_true_iff, Nat.leb_gt. tauto.
Qed.

Lemma In_clearTimeout u h ts :
  In u (clearTimeout h ts) <-> In u ts /\ h <> Some (tid u).
Proof.
  destruct h as [i|]; simpl.
  - rewrite filter_In, negb_true_iff, Nat.eqb_neq.
    split; intros [H1 H2]; split; auto; congruence.
  - split; [intros H; split; [exact H | discriminate] | tauto].
Qed.

Lemma dueTimers_none limit ts :
  (forall u, In u ts -> limit < due u) -> dueTimers limit ts = [].
Proof.
  intros H. unfold dueTimers.
  replace (filter (isDue limit) ts) with (@nil (Timer A)); [reflexivity|].
  symmetry. induction ts as [|v rest IH]; simpl; [reflexivity|].
  unfold isDue at 1. destruct (Nat.leb_spec (due v) limit) as [Hle|Hgt].
  - specialize (H v (or_introl eq_refl)). lia.
  - apply IH. intros u Hu. apply H. now right.
Qed.

Lemma filter_length_filter (p q : Timer A -> bool) ts :
  List.length (filter p (filter q ts)) <= List.length (filter p ts).
Proof.
  induction ts as [|v rest IH]; simpl; [lia|].
  destruct (q v); simpl; destruct (p v); simpl; lia.
Qed.

End TimerTableFacts.

(* ================================================================== *)
(** * Facts about the desktop controller *)

Section DesktopFacts.

Import Js Desktop DesktopInv.

Variable items : list DesktopNavItemData.

(** ** Timer callbacks and the passing of time *)

Lemma runTimerAction_frame a s :
  let s' := runTimerAction items a s in
  isHoveringNavItem s' = isHoveringNavItem s /\
  isHoveringDropdown s' = isHoveringDropdown s /\
  mouseLeaveTimeoutRef s' = mouseLeaveTimeoutRef s /\
  timers s' = timers s /\
  nextTimerId s' = nextTimerId s /\
  now s' = now s /\
  mounted s' = mounted s.
Proof.
  destruct a as [n d|t|u l|l]; simpl.
  - unfold setActiveDropdownIfMounted.
    destruct (negb n && negb d); [destruct (mounted s) eqn:E|];
      simpl; rewrite ?E; tauto.
  - tauto.
  - unfold refocusTrigger. destruct (findByLabel items l); simpl; tauto.
  - unfold refocusTrigger. destruct (findByLabel items l); simpl; tauto.
Qed.

Lemma runTimerAction_active a s :
  activeDropdown (runTimerAction items a s) = activeDropdown s \/
  (closes a = true /\ activeDropdown (runTimerAction items a s) = "").
Proof.
  destruct a as [n d|t|u l|l]; simpl.
  - unfold setActiveDropdownIfMounted.
    destruct n, d, (mounted s); simpl; auto.
  - auto.
  - unfold refocusTrigger. destruct (findByLabel items l); simpl; auto.
  - unfold refocusTrigger. destruct (findByLabel items l); simpl; auto.
Qed.

Lemma runAll_frame fired s :
  let s' := runAll items fired s in
  isHoveringNavItem s' = isHoveringNavItem s /\
  isHoveringDropdown s' = isHoveringDropdown s /\
  mouseLeaveTimeoutRef s' = mouseLeaveTimeoutRef s /\
  timers s' = timers s /\
  nextTimerId s' = nextTimerId s /\
  now s' = now s /\
  mounted s' = mounted s.
Proof.
  revert s; induction fired as [|t rest IH]; intros s; simpl.
  - tauto.
  - specialize (IH (runTimerAction items (act t) s)). simpl in IH.
    pose proof (runTimerAction_frame (act t) s) as F. simpl in F.
    unfold runAll in *.
    destruct IH as (a1 & a2 & a3 & a4 & a5 & a6 & a7).
    destruct F as (b1 & b2 & b3 & b4 & b5 & b6 & b7).
    repeat split; congruence.
Qed.

Lemma runAll_active fired s :
  activeDropdown (runAll items fired s) = activeDropdown s \/
  ((exists t, In t fired /\ closes (act t) = true) /\
   activeDropdown (runAll items fired s) = "").
Proof.
  revert s; induction fired as [|t rest IH]; intros s; simpl.
  - auto.
  - destruct (IH (runTimerAction items (act t) s)) as [E|[[u [Hu Hc]] E]].
    + unfold runAll in *. rewrite E.
      destruct (runTimerAction_active (act t) s) as [E'|[Hc E']].
      * auto.
      * right. split; [exists t; auto | exact E'].
    + right. split; [exists u; auto | exact E].
Qed.

Lemma advance_frame dt s :
  let s' := advance items dt s in
  isHoveringNavItem s' = isHoveringNavItem s /\
  isHoveringDropdown s' = isHoveringDropdown s /\
  mouseLeaveTimeoutRef s' = mouseLeaveTimeoutRef s /\
  timers s' = laterTimers (now s + dt) (timers s) /\
  nextTimerId s' = nextTimerId s /\
  now s' = now s + dt /\
  mounted s' = mounted s.
Proof.
  unfold advance.
  pose proof (runAll_frame (dueTimers (now s + dt) (timers s))
    (setNow (now s + dt)
       (setTimers (laterTimers (now s + dt) (timers s)) s))) as F.
  simpl in F. unfold runAll in F. exact F.
Qed.

Lemma advance_active dt s :
  activeDropdown (advance items dt s) = activeDropdown s \/
  ((exists t, In t (timers s) /\ due t <= now s + dt /\
              closes (act t) = true) /\
   activeDropdown (advance items dt s) = "").
Proof.
  unfold advance.
  destruct (runAll_active (dueTimers (now s + dt) (timers s))
    (setNow (now s + dt)
       (setTimers (laterTimers (now s + dt) (timers s)) s)))
    as [E|[[t [Ht Hc]] E]]; unfold runAll in *.
  - left. exact E.
  - right. split; [|exact E].
    apply In_dueTimers in Ht. exists t. tauto.
Qed.

(** ** Quiet steps *)

Lemma Quiet_refl s : Quiet s s.
Proof.
  split; try reflexivity; try lia.
  exists []. rewrite app_nil_r. split; [reflexivity | constructor].
Qed.

Lemma Quiet_trans s1 s2 s3 : Quiet s1 s2 -> Quiet s2 s3 -> Quiet s1 s3.
Proof.
  intros [a1 a2 a3 a4 a5 [x [a6 a7]]] [b1 b2 b3 b4 b5 [y [b6 b7]]].
  split; try congruence; try lia.
  exists (x ++ y). split.
  - rewrite b6, a6, app_assoc. reflexivity.
  - apply Forall_app. split.
    + eapply Forall_impl; [|exact a7]. simpl. intros t [H1 H2]. split; [exact H1|lia].
    + eapply Forall_impl; [|exact b7]. simpl. intros t [H1 H2]. split; [exact H1|lia].
Qed.

Lemma Quiet_setActiveDropdown v s : Quiet s (setActiveDropdown v s).
Proof.
  split; simpl; try reflexivity; try lia.
  exists []. rewrite app_nil_r. split; [reflexivity | constructor].
Qed.

Lemma Quiet_onNavigate u s : Quiet s (onNavigate u s).
Proof.
  split; simpl; try reflexivity; try lia.
  exists []. rewrite app_nil_r. split; [reflexivity | constructor].
Qed.

Lemma Quiet_focus t s : Quiet s (focus t s).
Proof.
  split; simpl; try reflexivity; try lia.
  exists []. rewrite app_nil_r. split; [reflexivity | constructor].
Qed.

Lemma Quiet_later a delay s :
  (forall n d, a <> CloseIfNotHovering n d) -> Quiet s (later a delay s).
Proof.
  intros Ha. split; simpl; try reflexivity; try lia.
  exists [mkTimer (nextTimerId s) (now s + delay) a].
  split; [reflexivity|]. constructor; [|constructor].
  simpl. split; [|lia].
  unfold isCloseTimer; simpl. destruct a; try reflexivity.
  exfalso. eapply Ha. reflexivity.
Qed.

Lemma Quiet_closeDropdown r l s : Quiet s (closeDropdown items r l s).
Proof.
  unfold closeDropdown.
  destruct (negb (truthy (activeDropdown r))); [apply Quiet_refl|].
  destruct (findByLabel items _).
  - eapply Quiet_trans; [apply Quiet_setActiveDropdown|].
    apply Quiet_later. discriminate.
  - apply Quiet_setActiveDropdown.
Qed.

Lemma closeTimers_Quiet s s' : Quiet s s' -> closeTimers s' = closeTimers s.
Proof.
  intros [_ _ _ _ _ [x [E F]]]. unfold closeTimers.
  rewrite E, filter_app.
  replace (filter isCloseTimer x) with (@nil (Timer TimerAction)).
  - apply app_nil_r.
  - symmetry. clear E.
    induction F as [|t rest [Ht _] _ IH]; simpl; [reflexivity|].
    rewrite Ht. exact IH.
Qed.

Lemma Inv_Quiet s s' : Inv s -> Quiet s s' -> Inv s'.
Proof.
  intros I Q. pose proof (closeTimers_Quiet Q) as EC.
  destruct Q as [qn qd qr qm qx [x [E F]]].
  rewrite Forall_forall in F.
  split.
  - rewrite qm. apply I.
  - intros t Ht. rewrite E in Ht. apply in_app_or in Ht as [Ht|Ht].
    + pose proof (inv_ids I t Ht). lia.
    + apply F in Ht. lia.
  - intros h Hh. rewrite qr in Hh. pose proof (inv_ref I Hh). lia.
  - intros t Ht. rewrite E in Ht. rewrite qr.
    apply in_app_or in Ht as [Ht|Ht].
    + apply (inv_close I t Ht).
    + destruct (F t Ht) as [Hc Hid]. split; [congruence|].
      intros Hr. pose proof (inv_ref I Hr). lia.
  - intros t n d Ht Ha. rewrite E in Ht. rewrite qn, qd.
    apply in_app_or in Ht as [Ht|Ht].
    + apply (inv_capture I t Ht Ha).
    + destruct (F t Ht) as [Hc _]. unfold isCloseTimer in Hc.
      rewrite Ha in Hc. discriminate.
  - rewrite EC. apply I.
Qed.

(** ** Clearing and arming the close timer *)

Lemma SameTimers_refl s : SameTimers s s.
Proof. split; reflexivity. Qed.

Lemma filter_none (p : Timer TimerAction -> bool) l :
  (forall t, In t l -> p t = false) -> filter p l = [].
Proof.
  induction l as [|t rest IH]; intros H; simpl; [reflexivity|].
  rewrite (H t (or_introl eq_refl)). apply IH.
  intros u Hu. apply H. now right.
Qed.

Lemma cleared_no_close s s0 :
  Inv s -> SameTimers s s0 ->
  forall t, In t (clearTimeout (mouseLeaveTimeoutRef s0) (timers s0)) ->
            isCloseTimer t = false.
Proof.
  intros I [e1 e2 e3 e4] t Ht. rewrite e1, e3 in Ht.
  apply In_clearTimeout in Ht as [Ht Hne].
  destruct (isCloseTimer t) eqn:Hc; [|reflexivity].
  apply (inv_close I t Ht) in Hc. congruence.
Qed.

Lemma closeTimers_clearCloseTimer s s0 :
  Inv s -> SameTimers s s0 -> closeTimers (clearCloseTimer s0) = [].
Proof.
  intros I S0. unfold closeTimers, clearCloseTimer. simpl.
  apply filter_none. apply (cleared_no_close I S0).
Qed.

Lemma Inv_clearCloseTimer s s0 :
  Inv s -> SameTimers s s0 -> Inv (clearCloseTimer s0).
Proof.
  intros I S0. pose proof (cleared_no_close I S0) as NC.
  pose proof (closeTimers_clearCloseTimer I S0) as EC.
  destruct S0 as [e1 e2 e3 e4].
  split; simpl.
  - rewrite e4. apply I.
  - intros t Ht. rewrite e1, e2 in *. apply In_clearTimeout in Ht as [Ht _].
    apply (inv_ids I t Ht).
  - intros h Hh. rewrite e2, e3 in *. apply (inv_ref I Hh).
  - intros t Ht. pose proof (NC t Ht) as Hc.
    rewrite e1 in Ht. apply In_clearTimeout in Ht as [Ht Hne].
    rewrite Hc. split; [discriminate|]. intros Hr. congruence.
  - intros t n d Ht Ha. pose proof (NC t Ht) as Hc.
    unfold isCloseTimer in Hc. rewrite Ha in Hc. discriminate.
  - rewrite EC. simpl. lia.
Qed.

Lemma closeTimers_startCloseTimer s s0 r :
  Inv s -> SameTimers s s0 ->
  closeTimers (startCloseTimer r s0) =
  [mkTimer (nextTimerId s0) (now s0 + 250)
     (CloseIfNotHovering (isHoveringNavItem r) (isHoveringDropdown r))].
Proof.
  intros I S0. unfold closeTimers, startCloseTimer. simpl.
  rewrite filter_app. rewrite (filter_none _ _ (cleared_no_close I S0)).
  reflexivity.
Qed.

Lemma Inv_startCloseTimer s s0 r :
  Inv s -> SameTimers s s0 ->
  (isHoveringNavItem r = false -> isHoveringNavItem s0 = false) ->
  (isHoveringDropdown r = false -> isHoveringDropdown s0 = false) ->
  (isHoveringNavItem s0 = false \/ isHoveringDropdown s0 = false) ->
  Inv (startCloseTimer r s0).
Proof.
  intros I S0 Hn Hd Hor. pose proof (cleared_no_close I S0) as NC.
  pose proof (closeTimers_startCloseTimer r I S0) as EC.
  destruct S0 as [e1 e2 e3 e4].
  split; [simpl ..| ].
  - rewrite e4. apply I.
  - intros t Ht. apply in_app_or in Ht as [Ht|[<-|[]]]; simpl; [|lia].
    rewrite e1 in Ht. apply In_clearTimeout in Ht as [Ht _].
    pose proof (inv_ids I t Ht). lia.
  - intros h Hh. injection Hh as <-. lia.
  - intros t Ht. apply in_app_or in Ht as [Ht|[<-|[]]].
    + rewrite (NC t Ht). split; [discriminate|]. intros Hr.
      rewrite e1 in Ht. apply In_clearTimeout in Ht as [Ht _].
      pose proof (inv_ids I t Ht). injection Hr as Hr. lia.
    + simpl. split; reflexivity.
  - intros t n d Ht Ha. apply in_app_or in Ht as [Ht|[<-|[]]].
    + pose proof (NC t Ht) as Hc. unfold isCloseTimer in Hc.
      rewrite Ha in Hc. discriminate.
    + simpl in Ha. injection Ha as <- <-. auto.
  - rewrite EC. simpl. lia.
Qed.

Lemma Inv_advance dt s : Inv s -> Inv (advance items dt s).
Proof.
  intros I. pose proof (advance_frame dt s) as F. simpl in F.
  destruct F as (f1 & f2 & f3 & f4 & f5 & f6 & f7).
  split.
  - rewrite f7. apply I.
  - intros t Ht. rewrite f4 in Ht. apply In_laterTimers in Ht as [Ht _].
    rewrite f5. apply (inv_ids I t Ht).
  - intros h Hh. rewrite f3 in Hh. rewrite f5. apply (inv_ref I Hh).
  - intros t Ht. rewrite f4 in Ht. apply In_laterTimers in Ht as [Ht _].
    rewrite f3. apply (inv_close I t Ht).
  - intros t n d Ht Ha. rewrite f4 in Ht.
    apply In_laterTimers in Ht as [Ht _]. rewrite f1, f2.
    apply (inv_capture I t Ht Ha).
  - unfold closeTimers. rewrite f4. unfold laterTimers.
    pose proof (filter_length_filter isCloseTimer
      (fun t => negb (isDue (now s + dt) t)) (timers s)).
    pose proof (inv_one I). unfold closeTimers in *. lia.
Qed.

(** ** The invariant holds in every reachable state *)

Lemma Inv_initialState : Inv initialState.
Proof.
  split; simpl; try reflexivity; try contradiction; try discriminate; lia.
Qed.

Lemma Inv_later a delay s :
  (forall n d, a <> CloseIfNotHovering n d) -> Inv s -> Inv (later a delay s).
Proof. intros Ha I. eapply Inv_Quiet; [exact I | now apply Quiet_later]. Qed.

Lemma Inv_toggle v s : Inv s -> Inv (clearCloseTimer (setActiveDropdown v s)).
Proof. intros I. apply (Inv_clearCloseTimer I). split; reflexivity. Qed.

Lemma Inv_itemKeyCase item key s :
  Inv s -> Inv (fst (itemKeyCase items item key s)).
Proof.
  intros I. unfold itemKeyCase.
  destruct key; simpl; try exact I.
  - (* Enter *)
    destruct (hasDropdown item).
    + destruct (negb _); simpl.
      * apply Inv_later; [discriminate | now apply Inv_toggle].
      * now apply Inv_toggle.
    + simpl. destruct (realUrl (url item)); [|exact I].
      eapply Inv_Quiet; [exact I | apply Quiet_onNavigate].
  - (* Space *)
    destruct (hasDropdown item).
    + destruct (negb _); simpl.
      * apply Inv_later; [discriminate | now apply Inv_toggle].
      * now apply Inv_toggle.
    + simpl. destruct (realUrl (url item)); [|exact I].
      eapply Inv_Quiet; [exact I | apply Quiet_onNavigate].
  - (* ArrowDown *)
    destruct (hasDropdown item); [|exact I].
    destruct (negb _); simpl.
    + apply Inv_later; [discriminate | now apply Inv_toggle].
    + eapply Inv_Quiet; [exact I | apply Quiet_focus].
  - (* Escape *)
    destruct (truthy _); simpl; [|exact I].
    eapply Inv_Quiet; [exact I | apply Quiet_closeDropdown].
  - (* Tab *)
    destruct (truthy _); simpl; [|exact I].
    eapply Inv_Quiet; [exact I | apply Quiet_closeDropdown].
Qed.

Lemma Inv_handle e s : Inv s -> Inv (handle items e s).
Proof.
  intros I. destruct e; simpl.
  - (* ItemHover *)
    unfold handleItemHover. eapply Inv_Quiet; [|apply Quiet_setActiveDropdown].
    apply (Inv_clearCloseTimer I). split; reflexivity.
  - (* ItemLeave *)
    unfold handleItemLeave.
    apply (@Inv_startCloseTimer s); simpl; auto. split; reflexivity.
  - (* ItemFocus *)
    unfold handleItemFocus. apply (Inv_clearCloseTimer I). split; reflexivity.
  - (* ItemBlur *)
    unfold handleItemBlur.
    apply (@Inv_startCloseTimer s); simpl; auto. split; reflexivity.
  - (* DropdownEnter *)
    unfold handleDropdownEnter. apply (Inv_clearCloseTimer I).
    split; reflexivity.
  - (* DropdownLeave *)
    unfold handleDropdownLeave.
    apply (@Inv_startCloseTimer s); simpl; auto. split; reflexivity.
  - (* ItemClick *)
    unfold handleDesktopItemClick. destruct (negb (hasDropdown item)).
    + assert (Inv (closeDropdown items s None s)) as I1
        by (eapply Inv_Quiet; [exact I | apply Quiet_closeDropdown]).
      destruct (realUrl (url item)); [|exact I1].
      eapply Inv_Quiet; [exact I1 | apply Quiet_onNavigate].
    + now apply Inv_toggle.
  - (* DropdownItemClick *)
    unfold handleDropdownItemClick.
    assert (Inv (setActiveDropdown "" s)) as I1
      by (eapply Inv_Quiet; [exact I | apply Quiet_setActiveDropdown]).
    destruct (realUrl itemUrl); apply Inv_later; try discriminate; exact I1.
  - (* ItemKeyDown *)
    unfold handleItemKeyDown.
    pose proof (Inv_itemKeyCase item key I) as I1.
    destruct (itemKeyCase items item key s) as [s1 [t|]]; simpl in I1.
    + apply Inv_later; [discriminate | exact I1].
    + exact I1.
  - (* DropdownKeyDown *)
    unfold handleDropdownKeyDown.
    destruct (negb (truthy (activeDropdown s))); [exact I|].
    destruct (count =? 0)%nat; [exact I|].
    destruct key; try exact I;
      try (apply Inv_later; [discriminate | exact I]);
      try (eapply Inv_Quiet; [exact I | apply Quiet_closeDropdown]);
      destruct (menuItemAt _ _); try exact I;
      apply Inv_later; try discriminate; exact I.
  - (* ClickOutside *)
    unfold handleClickOutside. destruct (truthy _); [|exact I].
    eapply Inv_Quiet; [exact I | apply Quiet_setActiveDropdown].
  - (* Advance *)
    now apply Inv_advance.
Qed.

Lemma Reachable_Inv s : Reachable items s -> Inv s.
Proof.
  induction 1 as [|s e _ IH]; [apply Inv_initialState | now apply Inv_handle].
Qed.

Lemma Reachable_run es s :
  Reachable items s -> Reachable items (run items es s).
Proof.
  revert s; induction es as [|e es IH]; intros s R; simpl; [exact R|].
  apply IH. now constructor.
Qed.

(** ** When the passing of time can close the dropdown *)

Lemma closes_isCloseTimer (t : Timer TimerAction) :
  closes (act t) = true -> isCloseTimer t = true.
Proof.
  unfold closes, isCloseTimer. destruct (act t); congruence.
Qed.

Lemma advance_keeps_active dt s :
  (forall t, In t (closeTimers s) -> now s + dt < due t) ->
  activeDropdown (advance items dt s) = activeDropdown s.
Proof.
  intros H. destruct (advance_active dt s) as [E|[[t (Ht & Hd & Hc)] _]].
  - exact E.
  - exfalso. assert (In t (closeTimers s)) as Hin.
    { unfold closeTimers. apply filter_In. split; [exact Ht|].
      now apply closes_isCloseTimer. }
    apply H in Hin. lia.
Qed.

Lemma advance_no_close_timer dt s :
  closeTimers s = [] ->
  activeDropdown (advance items dt s) = activeDropdown s.
Proof.
  intros E. apply advance_keeps_active. rewrite E. contradiction.
Qed.

Lemma closeTimers_advance_nil dt s :
  closeTimers s = [] -> closeTimers (advance items dt s) = [].
Proof.
  intros E. unfold closeTimers in *.
  pose proof (advance_frame dt s) as F. simpl in F.
  destruct F as (_ & _ & _ & f4 & _). rewrite f4.
  apply filter_none. intros t Ht. apply In_laterTimers in Ht as [Ht _].
  destruct (isCloseTimer t) eqn:Hc; [|reflexivity].
  assert (In t (filter isCloseTimer (timers s))) as Hin
    by (apply filter_In; auto).
  rewrite E in Hin. contradiction.
Qed.

Lemma closeTimers_handleItemHover item s :
  Inv s -> closeTimers (handleItemHover item s) = [].
Proof.
  intros I. unfold handleItemHover.
  rewrite (closeTimers_Quiet (Quiet_setActiveDropdown _ _)).
  apply (closeTimers_clearCloseTimer I). split; reflexivity.
Qed.

Lemma renderedDropdowns_le_1 s : List.length (renderedDropdowns s) <= 1.
Proof.
  unfold renderedDropdowns, dropdowns. simpl.
  destruct (String.eqb_spec (activeDropdown s) "motorbikes") as [E|_];
    [rewrite E; simpl; lia|].
  destruct (String.eqb_spec (activeDropdown s) "scooter") as [E|_];
    [rewrite E; simpl; lia|].
  destruct (activeDropdown s =? "more"); simpl; lia.
Qed.

(** C1. Hovering entry [A] and then entry [B], both submenu owners, with any
    amount of time passing after each hover, leaves [B]'s key as the active
    submenu key; the key is set by the hover itself, without delay; no close
    timer survives a hover; at most one of the dropdown panels is rendered
    in any state; and hovering an entry without submenu clears the key. *)
Theorem single_selection_of_submenus (A B : DesktopNavItemData) (s : State) :
  Reachable items s ->
  hasDropdown A = true -> hasDropdown B = true -> A <> B ->
  forall d1 d2,
    let hA := handleItemHover A s in
    let hB := handleItemHover B (advance items d1 hA) in
    activeDropdown hA = dropdownKey A /\
    activeDropdown (advance items d1 hA) = dropdownKey A /\
    activeDropdown hB = dropdownKey B /\
    activeDropdown (advance items d2 hB) = dropdownKey B /\
    closeTimers hA = [] /\ pendingCloseTimer hA = None /\
    closeTimers hB = [] /\ pendingCloseTimer hB = None /\
    (forall s', List.length (renderedDropdowns s') <= 1) /\
    (forall C, hasDropdown C = false ->
       activeDropdown (handleItemHover C s) = "" /\
       closeTimers (handleItemHover C s) = []).
Proof.
  intros R HA HB _ d1 d2 hA hB.
  pose proof (Reachable_Inv R) as I.
  assert (Reachable items (advance items d1 hA)) as R1.
  { apply (reach_step (Advance d1)). apply (reach_step (ItemHover A)). exact R. }
  pose proof (Reachable_Inv R1) as I1.
  assert (closeTimers hA = []) as CA by now apply closeTimers_handleItemHover.
  assert (closeTimers hB = []) as CB by now apply closeTimers_handleItemHover.
  assert (activeDropdown hA = dropdownKey A) as EA
    by (unfold hA, handleItemHover, dropdownKey; rewrite HA; reflexivity).
  assert (activeDropdown hB = dropdownKey B) as EB
    by (unfold hB, handleItemHover, dropdownKey; rewrite HB; reflexivity).
  assert (forall x st, pendingCloseTimer (handleItemHover x st) = None) as P.
  { intros x st. unfold pendingCloseTimer, handleItemHover. simpl.
    destruct (mouseLeaveTimeoutRef st) as [h|]; [|reflexivity]. simpl.
    destruct (find _ _) as [t|] eqn:F; [|reflexivity].
    apply find_some in F as [F1 F2]. apply filter_In in F1 as [_ F1].
    rewrite F2 in F1. discriminate. }
  repeat split; auto using renderedDropdowns_le_1; try apply P.
  - rewrite advance_no_close_timer; assumption.
  - rewrite advance_no_close_timer; assumption.
  - unfold handleItemHover. rewrite H. reflexivity.
Qed.

Lemma closeTimers_handleItemLeave s :
  Inv s ->
  closeTimers (handleItemLeave s) =
  [mkTimer (nextTimerId s) (now s + 250)
     (CloseIfNotHovering (isHoveringNavItem s) (isHoveringDropdown s))].
Proof.
  intros I. unfold handleItemLeave.
  rewrite (@closeTimers_startCloseTimer s); [reflexivity | exact I |].
  split; reflexivity.
Qed.

Lemma advance_after_leave d1 s :
  Inv s -> d1 < 250 ->
  activeDropdown (advance items d1 (handleItemLeave s)) = activeDropdown s.
Proof.
  intros I Hd. rewrite advance_keeps_active; [reflexivity|].
  intros t Ht. rewrite (closeTimers_handleItemLeave I) in Ht.
  destruct Ht as [<-|[]]. simpl. lia.
Qed.

(** C2. (1) If the passing of time closes an open submenu, both hover flags
    are false at that moment (before and after the callback has run).  (2) After [handleItemLeave] has armed the
    close timer, entering the panel before the 250 ms have passed cancels
    the timer, and the submenu stays open however long one waits.
    (3) Likewise, hovering a trigger again within the window cancels the
    timer, and the hovered owner's submenu stays open. *)
Theorem hover_intent_debounce (s : State) :
  Reachable items s ->
  (forall dt,
     truthy (activeDropdown s) = true ->
     activeDropdown (advance items dt s) = "" ->
     (isHoveringNavItem s = false /\ isHoveringDropdown s = false) /\
     (isHoveringNavItem (advance items dt s) = false /\
      isHoveringDropdown (advance items dt s) = false)) /\
  (forall d1 d2, d1 < 250 ->
     let entered :=
       handleDropdownEnter (advance items d1 (handleItemLeave s)) in
     closeTimers entered = [] /\
     activeDropdown (advance items d2 entered) = activeDropdown s) /\
  (forall d1 d2 item, d1 < 250 -> hasDropdown item = true ->
     let hovered :=
       handleItemHover item (advance items d1 (handleItemLeave s)) in
     closeTimers hovered = [] /\
     activeDropdown (advance items d2 hovered) = dropdownKey item).
Proof.
  intros R. pose proof (Reachable_Inv R) as I.
  assert (forall d1,
    Inv (advance items d1 (handleItemLeave s))) as I1.
  { intros d1. apply Reachable_Inv.
    apply (reach_step (Advance d1)). apply (reach_step ItemLeave). exact R. }
  split; [|split].
  - intros dt Hopen Hclosed.
    destruct (advance_active dt s) as [E|[[t (Ht & _ & Hc)] _]].
    + rewrite Hclosed in E. rewrite <- E in Hopen. discriminate.
    + unfold closes in Hc.
      destruct (act t) as [n d| | |] eqn:Ha; try discriminate.
      destruct n, d; try discriminate.
      destruct (inv_capture I t Ht Ha) as (Hn & Hd & _).
      pose proof (advance_frame dt s) as F. simpl in F.
      destruct F as (f1 & f2 & _). rewrite f1, f2. auto.
  - intros d1 d2 Hd entered.
    assert (closeTimers entered = []) as C.
    { apply (closeTimers_clearCloseTimer (I1 d1)). split; reflexivity. }
    split; [exact C|].
    rewrite advance_no_close_timer by exact C.
    unfold entered, handleDropdownEnter. simpl.
    now apply advance_after_leave.
  - intros d1 d2 item Hd Hitem hovered.
    assert (closeTimers hovered = []) as C
      by (apply closeTimers_handleItemHover; apply I1).
    split; [exact C|].
    rewrite advance_no_close_timer by exact C.
    unfold hovered, handleItemHover, dropdownKey. rewrite Hitem. reflexivity.
Qed.

End DesktopFacts.

(** A state in which the dropdown of entry [a] was opened by a click and the
    pointer then left the bar: the armed timer does close it, both hover
    flags are false; re-entering the panel after 100 ms keeps it open. *)
Lemma hover_intent_debounce_witness :
  let s := Desktop.run Scenario.entries
             [Desktop.ItemClick Scenario.entryA; Desktop.ItemLeave]
             Desktop.initialState in
  Desktop.Reachable Scenario.entries s /\
  (Desktop.activeDropdown s = "motorbikes" /\
   Desktop.activeDropdown (Desktop.advance Scenario.entries 250 s) = "" /\
   Desktop.isHoveringNavItem s = false /\
   Desktop.isHoveringDropdown s = false) /\
  Desktop.activeDropdown
    (Desktop.advance Scenario.entries 1000
       (Desktop.handleDropdownEnter
          (Desktop.advance Scenario.entries 100 (Desktop.handleItemLeave s))))
  = "motorbikes".
Proof.
  intros s.
  assert (Desktop.Reachable Scenario.entries s) as R
    by (apply Reachable_run; constructor).
  destruct (hover_intent_debounce R) as (H1 & H2 & _).
  split; [exact R|]. split.
  - assert (Desktop.activeDropdown
              (Desktop.advance Scenario.entries 250 s) = "") as E
      by (vm_compute; reflexivity).
    destruct (H1 250 eq_refl E) as [[F1 F2] _].
    split; [vm_compute; reflexivity|]. split; [exact E|]. split; assumption.
  - destruct (H2 100 1000 ltac:(lia)) as [_ H]. rewrite H.
    vm_compute. reflexivity.
Defined.

(** The flags tested by the callback are those of the render that armed
    it.  After a hover and a single leave the callback holds
    [isHoveringNavItem = true]: both flags are false when it runs, and the
    dropdown stays open.  A second leave event arms a callback that closes. *)
Example leave_after_hover :
  let s := Desktop.run Scenario.entries
             [Desktop.ItemHover Scenario.entryA; Desktop.ItemLeave]
             Desktop.initialState in
  Desktop.isHoveringNavItem s = false /\
  Desktop.isHoveringDropdown s = false /\
  Desktop.activeDropdown (Desktop.advance Scenario.entries 250 s)
  = "motorbikes" /\
  Desktop.activeDropdown
    (Desktop.advance Scenario.entries 250 (Desktop.handleItemLeave s)) = "".
Proof. vm_compute. repeat split. Qed.

Lemma single_selection_of_submenus_witness :
  Desktop.activeDropdown
    (Desktop.advance Scenario.entries 5000
       (Desktop.handleItemHover Scenario.entryMore
          (Desktop.advance Scenario.entries 40
             (Desktop.handleItemHover Scenario.entryA Desktop.initialState))))
  = "more".
Proof.
  assert (Scenario.entryA <> Scenario.entryMore) as N by discriminate.
  exact (proj1 (proj2 (proj2 (proj2
    (@single_selection_of_submenus Scenario.entries
       Scenario.entryA Scenario.entryMore Desktop.initialState
       (Desktop.reach_init _) eq_refl eq_refl N 40 5000))))).
Defined.

Section DesktopClicks.

Import Js Desktop DesktopInv Scenario.

(** C3. With the two entries of the scenario and no submenu open: a click on
    entry [b] calls [onNavigate] once, with ["#contact"], schedules nothing
    and leaves the key empty; a click on entry [a] then makes the key
    [a]'s dropdown key, which is ["motorbikes"]; a second click on [a]
    clears it; after either toggle no close timer is left. *)
Theorem click_scenario (s : State) :
  Reachable entries s -> activeDropdown s = "" ->
  let sb := handleDesktopItemClick entries entryB s in
  let sa := handleDesktopItemClick entries entryA sb in
  let sa' := handleDesktopItemClick entries entryA sa in
  (navigated sb = navigated s ++ ["#contact"] /\
   timers sb = timers s /\
   activeDropdown sb = "") /\
  (activeDropdown sa = dropdownKey entryA /\
   dropdownKey entryA = "motorbikes" /\
   closeTimers sa = [] /\ pendingCloseTimer sa = None /\
   navigated sa = navigated sb) /\
  (activeDropdown sa' = "" /\
   closeTimers sa' = [] /\ pendingCloseTimer sa' = None /\
   navigated sa' = navigated sb).
Proof.
  intros R H sb sa sa'.
  assert (sb = onNavigate "#contact" s) as Eb.
  { unfold sb, handleDesktopItemClick, closeDropdown. simpl.
    rewrite H. reflexivity. }
  assert (Reachable entries sb) as Rb by apply (reach_step (ItemClick entryB) R).
  assert (Reachable entries sa) as Ra by apply (reach_step (ItemClick entryA) Rb).
  pose proof (Reachable_Inv Rb) as Ib. pose proof (Reachable_Inv Ra) as Ia.
  assert (activeDropdown sa = "motorbikes") as Ea.
  { unfold sa. rewrite Eb. unfold handleDesktopItemClick. simpl.
    rewrite H. reflexivity. }
  assert (forall v st, pendingCloseTimer (clearCloseTimer (setActiveDropdown v st)) = None) as P.
  { intros v st. unfold pendingCloseTimer. simpl.
    destruct (mouseLeaveTimeoutRef st) as [h|]; [|reflexivity]. simpl.
    destruct (find _ _) as [t|] eqn:F; [|reflexivity].
    apply find_some in F as [F1 F2]. apply filter_In in F1 as [_ F1].
    rewrite F2 in F1. discriminate. }
  split; [|split].
  - rewrite Eb. simpl. rewrite H. repeat split.
  - split; [exact Ea|]. split; [reflexivity|]. split; [|split].
    + apply (closeTimers_clearCloseTimer Ib). split; reflexivity.
    + apply P.
    + reflexivity.
  - split; [|split; [|split]].
    + assert (forall st, activeDropdown st = "motorbikes" ->
        activeDropdown (handleDesktopItemClick entries entryA st) = "") as T
        by (intros st E; unfold handleDesktopItemClick; simpl; rewrite E;
            reflexivity).
      apply T. exact Ea.
    + apply (closeTimers_clearCloseTimer Ia). split; reflexivity.
    + apply P.
    + reflexivity.
Qed.

End DesktopClicks.

Lemma click_scenario_witness :
  Desktop.Reachable Scenario.entries Desktop.initialState /\
  Desktop.activeDropdown Desktop.initialState = "" /\
  Desktop.navigated
    (Desktop.handleDesktopItemClick Scenario.entries Scenario.entryB
       Desktop.initialState) = ["#contact"] /\
  Desktop.activeDropdown
    (Desktop.handleDesktopItemClick Scenario.entries Scenario.entryA
       (Desktop.handleDesktopItemClick Scenario.entries Scenario.entryB
          Desktop.initialState)) = "motorbikes".
Proof.
  pose proof (@click_scenario Desktop.initialState
                (Desktop.reach_init _) eq_refl) as H.
  simpl in H. destruct H as ((H1 & _) & (H2 & H3 & _) & _).
  split; [constructor|]. split; [reflexivity|]. split.
  - exact H1.
  - rewrite <- H3. exact H2.
Defined.

Section DesktopKeyboard.

Import Js Desktop DesktopInv.

Variable items : list DesktopNavItemData.

Lemma findIndexFrom_nth k i item :
  NoDup (map id items) -> nth_error items i = Some item ->
  findIndexFrom k items item = (k + Z.of_nat i)%Z.
Proof.
  revert k i. induction items as [|x rest IH]; intros k i ND Hn.
  - destruct i; discriminate.
  - simpl in ND. inversion ND as [|? ? Hx ND']; subst.
    destruct i as [|j]; simpl in *.
    + injection Hn as ->. rewrite String.eqb_refl. lia.
    + destruct (String.eqb_spec (id x) (id item)) as [E|_].
      * exfalso. apply Hx. rewrite E. apply in_map.
        eapply nth_error_In. exact Hn.
      * rewrite (IH (k + 1)%Z j ND' Hn). lia.
Qed.

Lemma itemRefAt_rem a :
  items <> [] ->
  itemRefAt items (rem (Z.of_nat a) (Z.of_nat (List.length items))) =
  Some (ItemRef (a mod List.length items)).
Proof.
  intros Hne. set (n := List.length items).
  assert (n <> 0) as Hn by (destruct items; [congruence | discriminate]).
  unfold rem. destruct (Z.eqb_spec (Z.of_nat n) 0) as [E|_]; [lia|].
  rewrite Z.rem_mod_nonneg by lia. rewrite <- Nat2Z.inj_mod.
  unfold itemRefAt. fold n.
  pose proof (Nat.mod_upper_bound a n Hn) as Hb.
  destruct (Z.leb_spec 0 (Z.of_nat (a mod n))); [|lia].
  destruct (Z.ltb_spec (Z.of_nat (a mod n)) (Z.of_nat n)); [|lia].
  simpl. rewrite Nat2Z.id. reflexivity.
Qed.

(** C4, amended. In an entry list whose ids are pairwise distinct, ArrowRight
    on the entry at position [i] asks for focus on the entry at position
    [(i + 1) mod n] and ArrowLeft for the one at [(i - 1 + n) mod n]; so
    ArrowRight on the last entry targets the first and ArrowLeft on the
    first targets the last. *)
Theorem circular_keyboard_wrap (i : nat) (item : DesktopNavItemData)
  (r : State) :
  NoDup (map id items) -> nth_error items i = Some item ->
  let n := List.length items in
  handleItemKeyDown items item ArrowRight r =
    later (FocusLater (ItemRef ((i + 1) mod n))) 0 r /\
  handleItemKeyDown items item ArrowLeft r =
    later (FocusLater (ItemRef ((i + n - 1) mod n))) 0 r /\
  (i = n - 1 -> (i + 1) mod n = 0) /\
  (i = 0 -> (i + n - 1) mod n = n - 1).
Proof.
  intros ND Hn n.
  assert (i < n) as Hi by (apply nth_error_Some; congruence).
  assert (items <> []) as Hne by (intros E; subst n; rewrite E in Hi; simpl in Hi; lia).
  pose proof (@findIndexFrom_nth 0%Z i item ND Hn) as F.
  unfold handleItemKeyDown, itemKeyCase, findIndex, nextIndex, prevIndex.
  rewrite F. fold n.
  replace (0 + Z.of_nat i + 1)%Z with (Z.of_nat (i + 1)) by lia.
  replace (0 + Z.of_nat i - 1 + Z.of_nat n)%Z with (Z.of_nat (i + n - 1)) by lia.
  unfold n. rewrite !itemRefAt_rem by exact Hne. fold n.
  repeat split.
  - intros E. replace (i + 1) with n by lia. apply Nat.Div0.mod_same.
  - intros E. subst i. simpl. apply Nat.mod_small. lia.
Qed.

(** ** Closing with a label that names no entry *)

Lemma closeDropdown_unresolved (r : State) (l : option string) :
  findByLabel items (orElse l (activeDropdown r)) = None ->
  closeDropdown items r l r = setActiveDropdown "" r.
Proof.
  intros H. unfold closeDropdown. rewrite H.
  destruct (String.eqb_spec (activeDropdown r) "") as [E|N]; unfold truthy.
  - rewrite E. simpl. destruct r; simpl in *. subst. reflexivity.
  - destruct (String.eqb_spec (activeDropdown r) ""); [contradiction|].
    reflexivity.
Qed.

(** C9. When the label to return focus to names no entry of the list,
    [closeDropdown] is the total function that only clears the active key:
    no callback is scheduled and [focus()] is not called, nothing else
    changes; the next events are handled as usual (a hover opens the
    hovered owner's submenu, a click toggles it) and the controller's
    invariant still holds.  The deferred refocus after a dropdown item
    click does nothing either when its label names no entry. *)
Theorem close_with_unresolved_label (r : State)
  (returnFocusToLabel : option string) :
  findByLabel items (orElse returnFocusToLabel (activeDropdown r)) = None ->
  let s' := closeDropdown items r returnFocusToLabel r in
  s' = setActiveDropdown "" r /\
  activeDropdown s' = "" /\
  focused s' = focused r /\
  timers s' = timers r /\
  navigated s' = navigated r /\
  (forall dt, focused (advance items dt s') = focused (advance items dt r)) /\
  (forall item, hasDropdown item = true ->
     activeDropdown (handleItemHover item s') = dropdownKey item /\
     activeDropdown (handleDesktopItemClick items item s') = dropdownKey item) /\
  (Inv r -> Inv s') /\
  (forall l st, findByLabel items l = None ->
     runTimerAction items (RefocusTrigger l) st = st).
Proof.
  intros H s'. pose proof (closeDropdown_unresolved r returnFocusToLabel H) as E.
  fold s' in E. rewrite E. simpl.
  do 5 (split; [reflexivity|]). split; [|split; [|split]].
  - intros dt. unfold advance. simpl.
    generalize (dueTimers (now r + dt) (timers r)).
    generalize (laterTimers (now r + dt) (timers r)).
    intros later' fired.
    set (a := setNow (now r + dt) (setTimers later' (setActiveDropdown "" r))).
    set (b := setNow (now r + dt) (setTimers later' r)).
    assert (focused a = focused b) as Hab by reflexivity.
    assert (forall x y, focused x = focused y ->
              focused (runAll items fired x) = focused (runAll items fired y)) as G.
    { induction fired as [|t rest IH]; intros x y Hxy; simpl; [exact Hxy|].
      apply IH. destruct (act t) as [n d|ft|u tl|tl]; simpl.
      - unfold setActiveDropdownIfMounted.
        destruct (negb n && negb d); [|exact Hxy].
        destruct (mounted x), (mounted y); simpl; exact Hxy.
      - congruence.
      - unfold refocusTrigger. destruct (findByLabel items tl); simpl; congruence.
      - unfold refocusTrigger. destruct (findByLabel items tl); simpl; congruence. }
    apply G. exact Hab.
  - intros item Hitem. split.
    + unfold handleItemHover, dropdownKey. rewrite Hitem. reflexivity.
    + unfold handleDesktopItemClick, dropdownKey. rewrite Hitem. simpl.
      destruct (toLowerCase (label item)); reflexivity.
  - intros I. eapply Inv_Quiet; [exact I | apply Quiet_setActiveDropdown].
  - intros l st Hl. simpl. unfold refocusTrigger. rewrite Hl. reflexivity.
Qed.

End DesktopKeyboard.

(** On the twin entries, ArrowRight on the last entry (position 1 of 2)
    asks for focus on position 1 again, not on position [(1 + 1) mod 2]. *)
Lemma circular_keyboard_wrap_counterexample :
  nth_error Scenario.twins 1 = Some Scenario.twinLast /\
  Desktop.handleItemKeyDown Scenario.twins Scenario.twinLast
    Desktop.ArrowRight Desktop.initialState =
  Desktop.later (Desktop.FocusLater (Desktop.ItemRef 1)) 0
    Desktop.initialState /\
  Desktop.handleItemKeyDown Scenario.twins Scenario.twinLast
    Desktop.ArrowRight Desktop.initialState <>
  Desktop.later
    (Desktop.FocusLater
       (Desktop.ItemRef ((1 + 1) mod List.length Scenario.twins))) 0
    Desktop.initialState.
Proof.
  split; [reflexivity|]. split; [reflexivity|].
  vm_compute. discriminate.
Qed.

Lemma circular_keyboard_wrap_witness :
  NoDup (map Desktop.id Scenario.entries) /\
  nth_error Scenario.entries 1 = Some Scenario.entryB /\
  Desktop.handleItemKeyDown Scenario.entries Scenario.entryB
    Desktop.ArrowRight Desktop.initialState =
  Desktop.later (Desktop.FocusLater (Desktop.ItemRef 0)) 0
    Desktop.initialState /\
  Desktop.handleItemKeyDown Scenario.entries Scenario.entryA
    Desktop.ArrowLeft Desktop.initialState =
  Desktop.later (Desktop.FocusLater (Desktop.ItemRef 1)) 0
    Desktop.initialState.
Proof.
  assert (NoDup (map Desktop.id Scenario.entries)) as ND.
  { simpl. constructor; [simpl; intros [H|[]]; discriminate|].
    constructor; [simpl; tauto | constructor]. }
  split; [exact ND|]. split; [reflexivity|]. split.
  - exact (proj1 (@circular_keyboard_wrap Scenario.entries 1 Scenario.entryB
                    Desktop.initialState ND eq_refl)).
  - exact (proj1 (proj2 (@circular_keyboard_wrap Scenario.entries 0
                    Scenario.entryA Desktop.initialState ND eq_refl))).
Defined.

Lemma close_with_unresolved_label_witness :
  let r := Desktop.handleItemHover Scenario.entryMore Desktop.initialState in
  Desktop.findByLabel Scenario.entries
    (Js.orElse None (Desktop.activeDropdown r)) = None /\
  Desktop.activeDropdown r = "more" /\
  Desktop.closeDropdown Scenario.entries r None r =
  Desktop.setActiveDropdown "" r.
Proof.
  intros r. split; [reflexivity|]. split; [reflexivity|].
  exact (proj1 (@close_with_unresolved_label Scenario.entries r None eq_refl)).
Defined.

Section DesktopTimerInvariant.

Import Js Desktop DesktopInv.

Variable items : list DesktopNavItemData.

Lemma at_most_one (l : list (Timer TimerAction)) a b :
  List.length l <= 1 -> In a l -> In b l -> a = b.
Proof.
  destruct l as [|x [|y rest]]; simpl; intros H Ha Hb.
  - contradiction.
  - destruct Ha as [<-|[]], Hb as [<-|[]]. reflexivity.
  - lia.
Qed.

Lemma pendingCloseTimer_spec s t :
  Inv s -> (pendingCloseTimer s = Some t <-> In t (closeTimers s)).
Proof.
  intros I. unfold pendingCloseTimer, closeTimers. split.
  - destruct (mouseLeaveTimeoutRef s) as [h|] eqn:Hr; [|discriminate].
    intros F. apply find_some in F as [F1 F2]. apply Nat.eqb_eq in F2.
    apply filter_In. split; [exact F1|].
    apply (inv_close I t F1). congruence.
  - intros Hin. pose proof Hin as Hin'.
    apply filter_In in Hin as [Ht Hc].
    apply (inv_close I t Ht) in Hc. rewrite Hc.
    destruct (find _ _) as [u|] eqn:F.
    + apply find_some in F as [F1 F2]. apply Nat.eqb_eq in F2.
      f_equal. eapply at_most_one; [apply (inv_one I) | | exact Hin'].
      apply filter_In. split; [exact F1|].
      apply (inv_close I u F1). congruence.
    + exfalso. apply (find_none _ _ F) in Ht.
      rewrite Nat.eqb_refl in Ht. discriminate.
Qed.

(** C7, amended. In every reachable state at most one close timer is in the
    timer table, and it is the one named by the timer ref; while it is
    pending at least one of the two hover flags is false; hovering or
    focusing an entry, entering the panel and toggling by click all leave
    no close timer behind. *)
Theorem close_timer_invariant (s : State) :
  Reachable items s ->
  List.length (closeTimers s) <= 1 /\
  (forall t, pendingCloseTimer s = Some t <-> In t (closeTimers s)) /\
  (pendingCloseTimer s <> None ->
     isHoveringNavItem s = false \/ isHoveringDropdown s = false) /\
  (forall item,
     closeTimers (handleItemHover item s) = [] /\
     closeTimers (handleItemFocus item s) = [] /\
     (hasDropdown item = true ->
      closeTimers (handleDesktopItemClick items item s) = [])) /\
  closeTimers (handleDropdownEnter s) = [].
Proof.
  intros R. pose proof (Reachable_Inv R) as I.
  split; [apply I|]. split; [intros t; now apply pendingCloseTimer_spec|].
  split; [|split].
  - intros P. destruct (pendingCloseTimer s) as [t|] eqn:E; [|congruence].
    apply (pendingCloseTimer_spec t I) in E.
    apply filter_In in E as [Ht Hc]. unfold isCloseTimer in Hc.
    destruct (act t) as [n d| | |] eqn:Ha; try discriminate.
    apply (inv_capture I t Ht Ha).
  - intros item. split; [|split].
    + now apply closeTimers_handleItemHover.
    + apply (closeTimers_clearCloseTimer I). split; reflexivity.
    + intros H. unfold handleDesktopItemClick. rewrite H. simpl.
      apply (closeTimers_clearCloseTimer I). split; reflexivity.
  - apply (closeTimers_clearCloseTimer I). split; reflexivity.
Qed.

End DesktopTimerInvariant.

(** Two reachable states with a pending close timer: in the first no
    submenu is open, in the second the pointer is over the panel. *)
Lemma close_timer_invariant_counterexample :
  let s1 := Desktop.run Scenario.entries [Desktop.ItemLeave]
              Desktop.initialState in
  let s2 := Desktop.run Scenario.entries
              [Desktop.ItemClick Scenario.entryA; Desktop.DropdownEnter;
               Desktop.ItemLeave] Desktop.initialState in
  (Desktop.Reachable Scenario.entries s1 /\
   Desktop.pendingCloseTimer s1 <> None /\
   Desktop.activeDropdown s1 = "") /\
  (Desktop.Reachable Scenario.entries s2 /\
   Desktop.pendingCloseTimer s2 <> None /\
   Desktop.isHoveringDropdown s2 = true).
Proof.
  intros s1 s2. split; split;
    try (apply Reachable_run; constructor);
    split; try reflexivity; vm_compute; discriminate.
Qed.

Lemma close_timer_invariant_witness :
  let s := Desktop.run Scenario.entries
             [Desktop.ItemClick Scenario.entryA; Desktop.DropdownEnter;
              Desktop.ItemLeave] Desktop.initialState in
  Desktop.Reachable Scenario.entries s /\
  List.length (Desktop.closeTimers s) = 1 /\
  Desktop.pendingCloseTimer s <> None /\
  (Desktop.isHoveringNavItem s = false \/
   Desktop.isHoveringDropdown s = false).
Proof.
  intros s.
  assert (Desktop.Reachable Scenario.entries s) as R
    by (apply Reachable_run; constructor).
  assert (Desktop.pendingCloseTimer s <> None) as P
    by (vm_compute; discriminate).
  split; [exact R|]. split; [reflexivity|]. split; [exact P|].
  exact (proj1 (proj2 (proj2 (close_timer_invariant R))) P).
Defined.

(* ================================================================== *)
(** * Facts about the "more" dropdown *)

Section MoreDropdown.

Import Dropdown.

Implicit Types (item : DropdownItem) (acc : Grouped).

Lemma lookupGroup_pushInto g k item acc :
  lookupGroup g (pushInto k item acc) =
  if (k =? g)%Z
  then Some (match lookupGroup g acc with Some v => v | None => [] end ++ [item])
  else lookupGroup g acc.
Proof.
  induction acc as [|[j v] rest IH]; simpl.
  - destruct (k =? g)%Z; reflexivity.
  - destruct (Z.eqb_spec j k) as [->|Njk]; simpl.
    + destruct (k =? g)%Z; reflexivity.
    + destruct (Z.eqb_spec j g) as [->|Njg].
      * destruct (Z.eqb_spec k g); [congruence | reflexivity].
      * exact IH.
Qed.

Lemma keys_pushInto k item acc :
  map fst (pushInto k item acc) =
  if existsb (fun j => (j =? k)%Z) (map fst acc)
  then map fst acc else map fst acc ++ [k].
Proof.
  induction acc as [|[j v] rest IH]; simpl; [reflexivity|].
  destruct (j =? k)%Z; simpl; [reflexivity|].
  rewrite IH. destruct (existsb _ _); reflexivity.
Qed.

Lemma lookupGroup_fold g items acc :
  lookupGroup g (fold_left reducer items acc) =
  extended (lookupGroup g acc) (filter (inGroup g) items).
Proof.
  revert acc. induction items as [|item rest IH]; intros acc; simpl.
  - reflexivity.
  - rewrite IH. unfold reducer, inGroup.
    destruct (group item) as [k|]; [|reflexivity].
    rewrite lookupGroup_pushInto.
    destruct (k =? g)%Z; [|reflexivity].
    simpl. destruct (filter _ rest); simpl; [reflexivity|].
    rewrite <- app_assoc. reflexivity.
Qed.

Lemma keys_pushInto_In k item acc j :
  In j (map fst (pushInto k item acc)) <-> In j (map fst acc) \/ j = k.
Proof.
  rewrite keys_pushInto.
  destruct (existsb _ _) eqn:E.
  - apply existsb_exists in E as [x [Hx Ex]]. apply Z.eqb_eq in Ex. subst x.
    split; [auto | intros [H| ->]; assumption].
  - rewrite in_app_iff. simpl. intuition congruence.
Qed.

Lemma keys_pushInto_NoDup k item acc :
  NoDup (map fst acc) -> NoDup (map fst (pushInto k item acc)).
Proof.
  intros ND. rewrite keys_pushInto.
  destruct (existsb _ _) eqn:E; [exact ND|].
  apply NoDup_app; [exact ND | repeat constructor; simpl; tauto |].
  intros j Hj [->|[]].
  assert (existsb (fun i => (i =? j)%Z) (map fst acc) = true) as C
    by (apply existsb_exists; exists j; split; [exact Hj | apply Z.eqb_refl]).
  congruence.
Qed.

Lemma keys_fold items acc :
  NoDup (map fst acc) ->
  NoDup (map fst (fold_left reducer items acc)) /\
  forall j, In j (map fst (fold_left reducer items acc)) <->
            In j (map fst acc) \/ exists item, In item items /\ group item = Some j.
Proof.
  revert acc. induction items as [|item rest IH]; intros acc ND; simpl.
  - split; [exact ND|]. intros j. split; [auto | intros [H|[x [[] _]]]; exact H].
  - assert (NoDup (map fst (reducer acc item))) as ND'
      by (unfold reducer; destruct (group item);
          [now apply keys_pushInto_NoDup | exact ND]).
    destruct (IH _ ND') as [N1 N2]. split; [exact N1|].
    intros j. rewrite N2. unfold reducer.
    destruct (group item) as [k|] eqn:G.
    + rewrite keys_pushInto_In. split.
      * intros [[H| ->]|[x [Hx Gx]]]; eauto.
      * intros [H|[x [[<-|Hx] Gx]]]; eauto.
        left. right. congruence.
    + split.
      * intros [H|[x [Hx Gx]]]; eauto.
      * intros [H|[x [[<-|Hx] Gx]]]; eauto. congruence.
Qed.

Lemma two_keys (ks : list Z) :
  NoDup ks -> (forall j, In j ks <-> j = 0%Z \/ j = 1%Z) ->
  ks = [0; 1]%Z \/ ks = [1; 0]%Z.
Proof.
  intros ND H.
  assert (In 0%Z ks) as H0 by (apply H; auto).
  assert (In 1%Z ks) as H1 by (apply H; auto).
  destruct ks as [|a [|b [|c rest]]].
  - contradiction.
  - simpl in *. lia.
  - assert (a = 0 \/ a = 1)%Z as Ha by (apply H; simpl; auto).
    assert (b = 0 \/ b = 1)%Z as Hb by (apply H; simpl; auto).
    inversion ND as [|? ? Na _]; subst. simpl in Na.
    destruct Ha, Hb; subst; auto; exfalso; apply Na; auto.
  - exfalso.
    assert (a = 0 \/ a = 1)%Z as Ha by (apply H; simpl; auto).
    assert (b = 0 \/ b = 1)%Z as Hb by (apply H; simpl; auto).
    assert (c = 0 \/ c = 1)%Z as Hc by (apply H; simpl; auto).
    inversion ND as [|? ? Na ND1]; subst.
    inversion ND1 as [|? ? Nb _]; subst. simpl in Na, Nb.
    destruct Ha, Hb, Hc; subst; tauto.
Qed.

Lemma filter_all (p : DropdownItem -> bool) items :
  Forall (fun item => p item = true) items -> filter p items = items.
Proof.
  induction 1 as [|x rest Hx _ IH]; simpl; [reflexivity|].
  rewrite Hx, IH. reflexivity.
Qed.

(** A dataset of link items, each in group 0 or 1, both groups used. *)
Lemma render_two_groups items :
  Forall (fun item => type item = link /\
                      (group item = Some 0%Z \/ group item = Some 1%Z)) items ->
  filter (inGroup 0) items <> [] -> filter (inGroup 1) items <> [] ->
  renderDropdownContent more items =
  MoreGroups [(0%Z, filter (inGroup 0) items);
              (1%Z, filter (inGroup 1) items)] 0.
Proof.
  intros HF N0 N1. unfold renderDropdownContent.
  rewrite filter_all.
  2:{ eapply Forall_impl; [|exact HF]. simpl. intros x [Ht [Hg|Hg]];
      unfold isMoreLink; rewrite Ht, Hg; reflexivity. }
  rewrite Forall_forall in HF.
  destruct (@keys_fold items [] (NoDup_nil _)) as [ND K].
  fold (groupItems items) in ND, K.
  assert (forall j, In j (map fst (groupItems items)) <-> j = 0%Z \/ j = 1%Z) as K'.
  { intros j. rewrite K. simpl. split.
    - intros [[]|[x [Hx Gx]]]. destruct (HF x Hx) as [_ [G|G]]; left + right; congruence.
    - intros [->| ->].
      + right. destruct (filter (inGroup 0) items) as [|x ?] eqn:F; [congruence|].
        assert (In x (filter (inGroup 0) items)) as Hin by (rewrite F; now left).
        apply filter_In in Hin as [Hx Gx]. exists x. split; [exact Hx|].
        unfold inGroup in Gx. destruct (group x); [|discriminate].
        apply Z.eqb_eq in Gx. congruence.
      + right. destruct (filter (inGroup 1) items) as [|x ?] eqn:F; [congruence|].
        assert (In x (filter (inGroup 1) items)) as Hin by (rewrite F; now left).
        apply filter_In in Hin as [Hx Gx]. exists x. split; [exact Hx|].
        unfold inGroup in Gx. destruct (group x); [|discriminate].
        apply Z.eqb_eq in Gx. congruence. }
  assert (defaultSort (objectKeys (groupItems items)) = [0; 1]%Z) as GK.
  { unfold objectKeys. destruct (two_keys ND K') as [E|E]; rewrite E; reflexivity. }
  rewrite GK.
  assert ((List.length items =? 0)%nat = false) as L.
  { destruct items; [simpl in N0; congruence | reflexivity]. }
  rewrite L. simpl.
  unfold groupItems. rewrite !lookupGroup_fold. simpl.
  destruct (filter (inGroup 0) items) eqn:F0; [congruence|].
  destruct (filter (inGroup 1) items) eqn:F1; [congruence|].
  reflexivity.
Qed.

Lemma filter_disjoint_le (p q : DropdownItem -> bool) items :
  (forall x, p x = true -> q x = false) ->
  List.length (filter p items) + List.length (filter q items)
  <= List.length items.
Proof.
  intros D. induction items as [|x rest IH]; simpl; [lia|].
  destruct (p x) eqn:P; [rewrite (D x P)|destruct (q x)]; simpl; lia.
Qed.

Lemma filter_cover (p q : DropdownItem -> bool) items :
  (forall x, p x = true -> q x = false) ->
  List.length (filter p items) + List.length (filter q items)
  = List.length items ->
  Forall (fun x => p x = true \/ q x = true) items.
Proof.
  intros D. induction items as [|x rest IH]; simpl; intros E; [constructor|].
  pose proof (filter_disjoint_le p q rest D) as B.
  destruct (p x) eqn:P; [rewrite (D x P) in E|destruct (q x) eqn:Q];
    simpl in E; try lia; (constructor; [auto | apply IH; lia]).
Qed.

(** C5. A "more" dataset of 8 link items, 4 of them with group 0 and 4 with
    group 1, is rendered as exactly two groups and no placeholder: first
    group 0, then group 1, each holding its 4 items in dataset order. *)
Theorem more_dropdown_grouping (items : list DropdownItem) :
  List.length items = 8 ->
  Forall (fun item => type item = link) items ->
  List.length (filter (inGroup 0) items) = 4 ->
  List.length (filter (inGroup 1) items) = 4 ->
  renderDropdownContent more items =
    MoreGroups [(0%Z, filter (inGroup 0) items);
                (1%Z, filter (inGroup 1) items)] 0 /\
  List.length (filter (inGroup 0) items) = 4 /\
  List.length (filter (inGroup 1) items) = 4.
Proof.
  intros L T C0 C1. split; [|split; assumption].
  apply render_two_groups.
  - assert (Forall (fun x => inGroup 0 x = true \/ inGroup 1 x = true) items) as Cov.
    { apply filter_cover; [|lia]. unfold inGroup. intros x.
      destruct (group x) as [k|]; [|discriminate].
      intros E. apply Z.eqb_eq in E. subst k. reflexivity. }
    rewrite Forall_forall in *. intros x Hx. split; [now apply T|].
    unfold inGroup in Cov. specialize (Cov x Hx).
    destruct (group x) as [k|]; [|destruct Cov; discriminate].
    destruct Cov as [E|E]; apply Z.eqb_eq in E; subst; auto.
  - intros E. rewrite E in C0. discriminate.
  - intros E. rewrite E in C1. discriminate.
Qed.

End MoreDropdown.

(** The dataset of [navigation.data.ts] as it is rendered. *)
Example more_dataset_rendered :
  match Dropdown.renderDropdownContent Dropdown.more
          Scenario.moreDropdownItems with
  | Dropdown.MoreGroups groups placeholders =>
      map (fun g => (fst g, map Dropdown.label (snd g))) groups =
        [(0%Z, ["About Us"; "Press"; "Blog"; "Become a Dealer"]);
         (1%Z, ["Support"; "Contact Us"; "FAQ"; "Compare Models"])] /\
      placeholders = 0
  | _ => False
  end.
Proof. vm_compute. split; reflexivity. Qed.

(** [sort()] without a comparator orders the keys by their decimal text. *)
Example default_sort_by_text :
  Dropdown.defaultSort [9; 10; 1]%Z = [1; 10; 9]%Z.
Proof. reflexivity. Qed.

(** A single group is padded with one placeholder column. *)
Example one_group_one_placeholder :
  Dropdown.renderDropdownContent Dropdown.more Scenario.morePlaceholder =
  Dropdown.MoreGroups [(0%Z, Scenario.morePlaceholder)] 1.
Proof. reflexivity. Qed.

Lemma more_dropdown_grouping_witness :
  List.length Scenario.moreInterleaved = 8 /\
  Dropdown.renderDropdownContent Dropdown.more Scenario.moreInterleaved =
  Dropdown.MoreGroups
    [(0%Z, filter (Dropdown.inGroup 0) Scenario.moreInterleaved);
     (1%Z, filter (Dropdown.inGroup 1) Scenario.moreInterleaved)] 0 /\
  map Dropdown.label (filter (Dropdown.inGroup 0) Scenario.moreInterleaved) =
  ["About Us"; "Press"; "Blog"; "Become a Dealer"] /\
  map Dropdown.label (filter (Dropdown.inGroup 1) Scenario.moreInterleaved) =
  ["Support"; "Contact Us"; "FAQ"; "Compare Models"].
Proof.
  assert (Forall (fun item => Dropdown.type item = Dropdown.link)
            Scenario.moreInterleaved) as T
    by (repeat constructor).
  split; [reflexivity|]. split.
  - exact (proj1 (@more_dropdown_grouping Scenario.moreInterleaved
                    eq_refl T eq_refl eq_refl)).
  - split; reflexivity.
Defined.

(* ================================================================== *)
(** * Facts about the mobile drawer *)

Section MobileFacts.

Import Js Mobile.

Variable mobileMenuItems : list MobileNavItemData.
Variable motorbikesDropdownItems : list Dropdown.DropdownItem.
Variable scootersDropdownItems : list Dropdown.DropdownItem.
Variable moreDropdownItems : list Dropdown.DropdownItem.

Local Abbreviation getSubmenuItems :=
  (getSubmenuItemsForCategory motorbikesDropdownItems scootersDropdownItems
     moreDropdownItems).
Local Abbreviation click :=
  (handleMobileItemClick motorbikesDropdownItems scootersDropdownItems
     moreDropdownItems).
Local Abbreviation reachable :=
  (Reachable mobileMenuItems motorbikesDropdownItems scootersDropdownItems
     moreDropdownItems).

(** ** A leaf selection and its deferred reset *)

Lemma advance_single (t : Timer TimerAction) (dt : nat) (s : State) :
  timers s = [t] ->
  advance dt s =
  if (due t <=? now s + dt)%nat
  then runTimerAction (act t)
         (mkState (mobileMenuOpen s) (activeSubmenu s) (submenuItems s) []
            (nextTimerId s) (now s + dt) (navigated s) (mounted s))
  else mkState (mobileMenuOpen s) (activeSubmenu s) (submenuItems s) [t]
         (nextTimerId s) (now s + dt) (navigated s) (mounted s).
Proof.
  intros E. unfold advance, dueTimers, laterTimers, sortByDue.
  rewrite E. simpl. unfold isDue.
  destruct (due t <=? now s + dt)%nat; reflexivity.
Qed.

(** C6, amended. Selecting a leaf (no children, not the back item) while a
    category is active and no other callback is pending closes the drawer at
    once and changes nothing else; as long as less than 300 ms have passed
    the category, the submenu items and the navigation log are untouched;
    once 300 ms have passed the category and the submenu items are cleared
    and [onNavigate] has been called exactly once with the leaf's URL if the
    URL is present and is not the placeholder ["#"], and not at all
    otherwise; no callback remains. *)
Theorem leaf_selection (item : MobileNavItemData) (r : State) :
  flag (hasChildren item) = false -> flag (back item) = false ->
  truthy (activeSubmenu r) = true ->
  timers r = [] -> mounted r = true ->
  let s1 := click item r in
  (mobileMenuOpen s1 = false /\
   activeSubmenu s1 = activeSubmenu r /\
   submenuItems s1 = submenuItems r /\
   navigated s1 = navigated r) /\
  (forall dt, dt < 300 ->
     mobileMenuOpen (advance dt s1) = false /\
     activeSubmenu (advance dt s1) = activeSubmenu r /\
     submenuItems (advance dt s1) = submenuItems r /\
     navigated (advance dt s1) = navigated r) /\
  (forall dt, 300 <= dt ->
     mobileMenuOpen (advance dt s1) = false /\
     activeSubmenu (advance dt s1) = "" /\
     submenuItems (advance dt s1) = [] /\
     navigated (advance dt s1) =
       navigated r ++ match realUrl (url item) with
                      | Some u => [u]
                      | None => []
                      end /\
     timers (advance dt s1) = []).
Proof.
  intros Hc Hb _ Ht Hm s1.
  assert (s1 = later (ResetThenNavigate (url item)) 300
                 (setMobileMenuOpen false r)) as E1
    by (unfold s1, handleMobileItemClick; rewrite Hb, Hc; reflexivity).
  assert (timers s1 =
          [mkTimer (nextTimerId r) (now r + 300)
             (ResetThenNavigate (url item))]) as T1
    by (rewrite E1; simpl; rewrite Ht; reflexivity).
  split; [rewrite E1; simpl; auto|]. split.
  - intros dt Hd. rewrite (@advance_single _ dt s1 T1). simpl.
    rewrite E1. simpl.
    destruct (Nat.leb_spec (now r + 300) (now r + dt)); [lia|].
    simpl. auto.
  - intros dt Hd. rewrite (@advance_single _ dt s1 T1). simpl.
    rewrite E1. simpl.
    destruct (Nat.leb_spec (now r + 300) (now r + dt)); [|lia].
    unfold resetSubmenu. simpl. rewrite Hm. simpl.
    destruct (realUrl (url item)); simpl; [auto|].
    rewrite app_nil_r. auto.
Qed.

(** ** The drawer never nests deeper than one level *)

Lemma getSubmenuItems_leaves categoryLabel :
  Forall isLeaf (getSubmenuItems categoryLabel).
Proof.
  unfold getSubmenuItemsForCategory.
  destruct (_ =? "motorbikes"); [|destruct (_ =? "scooters");
    [|destruct (_ =? "more")]]; try constructor;
    apply Forall_forall; intros x Hx; apply in_map_iff in Hx as [y [<- _]];
    split; reflexivity.
Qed.

Lemma runAll_leaves fired s :
  Forall isLeaf (submenuItems s) ->
  Forall isLeaf (submenuItems (runAll fired s)).
Proof.
  revert s. induction fired as [|t rest IH]; intros s H; simpl; [exact H|].
  apply IH. destruct (act t) as [|u]; simpl; unfold resetSubmenu.
  - destruct (mounted s); simpl; [constructor | exact H].
  - destruct (realUrl u); destruct (mounted s); simpl;
      try constructor; exact H.
Qed.

Lemma Reachable_leaves s : reachable s -> Forall isLeaf (submenuItems s).
Proof.
  induction 1 as [|s _ IH|s item _ IH Hin|s _ IH Hs|s dt _ IH]; simpl.
  - constructor.
  - unfold handleMenuToggle. destruct (mobileMenuOpen s); exact IH.
  - unfold handleMobileItemClick.
    destruct (flag (back item)); [exact IH|].
    destruct (flag (hasChildren item)); [|exact IH].
    simpl. apply getSubmenuItems_leaves.
  - exact IH.
  - unfold advance. apply runAll_leaves. exact IH.
Qed.

(** C10. Every item produced by the category-to-submenu mapping has
    [hasChildren = false] and is not the back item, whatever the three
    datasets and the category; in every reachable state the stored submenu
    items are such leaves, so while a category is active a click on any
    listed item takes the leaf branch: the drawer closes and the category
    and the submenu items are not replaced by a deeper level. *)
Theorem submenu_items_are_leaves :
  (forall categoryLabel item,
     In item (getSubmenuItems categoryLabel) ->
     hasChildren item = Some false /\ back item = None) /\
  (forall s, reachable s ->
     Forall (fun item => hasChildren item = Some false /\ back item = None)
       (submenuItems s) /\
     (truthy (activeSubmenu s) = true ->
      forall item, In item (currentMobileNavItems mobileMenuItems s) ->
        click item s =
          later (ResetThenNavigate (url item)) 300 (setMobileMenuOpen false s) /\
        mobileMenuOpen (click item s) = false /\
        activeSubmenu (click item s) = activeSubmenu s /\
        submenuItems (click item s) = submenuItems s)).
Proof.
  split.
  - intros c item Hin.
    pose proof (getSubmenuItems_leaves c) as L. rewrite Forall_forall in L.
    apply (L item Hin).
  - intros s R. pose proof (Reachable_leaves R) as L.
    split; [exact L|].
    intros Hs item Hin. unfold currentMobileNavItems in Hin.
    rewrite Hs in Hin. rewrite Forall_forall in L.
    destruct (L item Hin) as [Hc Hb].
    assert (click item s =
            later (ResetThenNavigate (url item)) 300
              (setMobileMenuOpen false s)) as E
      by (unfold handleMobileItemClick; rewrite Hc, Hb; reflexivity).
    rewrite E. simpl. auto.
Qed.

End MobileFacts.

(** The "More" category of [navigation.data.ts] as the drawer lists it. *)
Example more_category_listed :
  map Mobile.label
    (Mobile.currentMobileNavItems Scenario.mobileMenuItems
       (Scenario.drawerOnMore Scenario.moreDropdownItems)) =
  ["About Us"; "Press"; "Blog"; "Become a Dealer";
   "Support"; "Contact Us"; "FAQ"; "Compare Models"] /\
  Mobile.mobileMenuOpen (Scenario.drawerOnMore Scenario.moreDropdownItems)
  = true.
Proof. split; reflexivity. Qed.

(** With the placeholder href the drawer closes and is reset after 300 ms,
    no callback remains, and [onNavigate] was never called. *)
Lemma leaf_selection_counterexample :
  let r := Scenario.drawerOnMore Scenario.morePlaceholder in
  let leaf :=
    Mobile.mkMobileItem "About Us" (Some false) (Some Mobile.topRight)
      (Some Mobile.mobileChild) (Some "#") None in
  let s1 :=
    Mobile.handleMobileItemClick Scenario.motorbikesDropdownItems
      Scenario.scootersDropdownItems Scenario.morePlaceholder leaf r in
  (Mobile.activeSubmenu r = "More" /\
   In leaf (Mobile.currentMobileNavItems Scenario.mobileMenuItems r) /\
   Mobile.url leaf = Some "#") /\
  Mobile.mobileMenuOpen s1 = false /\
  Mobile.activeSubmenu (Mobile.advance 300 s1) = "" /\
  Mobile.submenuItems (Mobile.advance 300 s1) = [] /\
  Mobile.timers (Mobile.advance 300 s1) = [] /\
  Mobile.navigated (Mobile.advance 300 s1) = [].
Proof.
  vm_compute. repeat split. left. reflexivity.
Qed.

Lemma leaf_selection_witness :
  let r := Scenario.drawerOnMore Scenario.moreDropdownItems in
  let leaf :=
    Mobile.mkMobileItem "About Us" (Some false) (Some Mobile.topRight)
      (Some Mobile.mobileChild) (Some "#about") None in
  let s1 :=
    Mobile.handleMobileItemClick Scenario.motorbikesDropdownItems
      Scenario.scootersDropdownItems Scenario.moreDropdownItems leaf r in
  (Mobile.activeSubmenu r = "More" /\
   In leaf (Mobile.currentMobileNavItems Scenario.mobileMenuItems r) /\
   Mobile.timers r = [] /\ Mobile.mounted r = true) /\
  Mobile.navigated (Mobile.advance 299 s1) = [] /\
  Mobile.activeSubmenu (Mobile.advance 299 s1) = "More" /\
  Mobile.navigated (Mobile.advance 300 s1) = ["#about"] /\
  Mobile.activeSubmenu (Mobile.advance 300 s1) = "".
Proof.
  intros r leaf s1.
  destruct (@leaf_selection Scenario.motorbikesDropdownItems
              Scenario.scootersDropdownItems Scenario.moreDropdownItems
              leaf r eq_refl eq_refl eq_refl eq_refl eq_refl)
    as (_ & Before & After).
  destruct (Before 299 ltac:(lia)) as (_ & B1 & _ & B2).
  destruct (After 300 ltac:(lia)) as (_ & A1 & _ & A2 & _).
  split.
  - split; [reflexivity|]. split; [left; reflexivity|]. split; reflexivity.
  - split; [exact B2|]. split; [exact B1|]. split; [exact A2 | exact A1].
Defined.

(* ================================================================== *)
(** * Unmounting *)

Section ContainerFacts.

Import Js Container.

Variable showDropdowns : bool.
Variable desktopMenuItems : list Desktop.DesktopNavItemData.
Variable mobileMenuItems : list Mobile.MobileNavItemData.
Variable motorbikesDropdownItems : list Dropdown.DropdownItem.
Variable scootersDropdownItems : list Dropdown.DropdownItem.
Variable moreDropdownItems : list Dropdown.DropdownItem.

Local Abbreviation reachable :=
  (Reachable showDropdowns desktopMenuItems motorbikesDropdownItems
     scootersDropdownItems moreDropdownItems).

Lemma clearTimeout_named (h : option nat) (ts : list (Timer TimerAction)) :
  (forall t, In t ts -> h = Some (tid t)) -> clearTimeout h ts = [].
Proof.
  intros H. destruct h as [i|].
  - simpl. induction ts as [|t rest IH]; simpl; [reflexivity|].
    assert (Some i = Some (tid t)) as E by (apply H; now left).
    injection E as ->. rewrite Nat.eqb_refl. simpl.
    apply IH. intros u Hu. apply H. now right.
  - destruct ts as [|t rest]; [reflexivity|].
    specialize (H t (or_introl eq_refl)). discriminate.
Qed.

Lemma runAll_frame_container fired s :
  timers (runAll fired s) = timers s /\
  mouseLeaveTimeoutRef (runAll fired s) = mouseLeaveTimeoutRef s /\
  navigated (runAll fired s) = navigated s.
Proof.
  revert s. induction fired as [|t rest IH]; intros s; simpl; [auto|].
  destruct (IH (runTimerAction (act t) s)) as (a & b & c).
  rewrite a, b, c. destruct (act t) as [n d]; simpl.
  destruct (negb n && negb d && mounted s); simpl; auto.
Qed.

(** Every timer in the table is the one named by the ref. *)
Lemma Reachable_named s :
  reachable s ->
  forall t, In t (timers s) -> mouseLeaveTimeoutRef s = Some (tid t).
Proof.
  induction 1 as [|s e _ IH]; [simpl; contradiction|].
  assert (forall r s0, timers s0 = timers s ->
            mouseLeaveTimeoutRef s0 = mouseLeaveTimeoutRef s ->
            forall t, In t (timers (startCloseTimer r s0)) ->
            mouseLeaveTimeoutRef (startCloseTimer r s0) = Some (tid t)) as Start.
  { intros r s0 E1 E2 t. unfold startCloseTimer. simpl.
    rewrite E1, E2, (clearTimeout_named _ IH). simpl.
    intros [<-|[]]. reflexivity. }
  assert (forall s0, timers s0 = timers s ->
            mouseLeaveTimeoutRef s0 = mouseLeaveTimeoutRef s ->
            forall t, In t (timers (clearCloseTimer s0)) ->
            mouseLeaveTimeoutRef (clearCloseTimer s0) = Some (tid t)) as Clear.
  { intros s0 E1 E2 t. unfold clearCloseTimer. simpl.
    rewrite E1, E2, (clearTimeout_named _ IH). contradiction. }
  destruct e; simpl.
  - unfold handleItemHover. destruct (isMobile s || negb showDropdowns);
      [exact IH|]. simpl. apply (Clear (setIsHoveringNav true s)); reflexivity.
  - unfold handleNavLeave. destruct (negb (isMobile s)); [|exact IH].
    apply Start; reflexivity.
  - unfold handleDropdownEnter. destruct (negb (isMobile s)); [|exact IH].
    apply Clear; reflexivity.
  - unfold handleDropdownLeave. destruct (negb (isMobile s)); [|exact IH].
    apply Start; reflexivity.
  - unfold handleDesktopItemClick. destruct (isMobile s); [exact IH|].
    destruct (negb (Desktop.hasDropdown item) || negb showDropdowns).
    + destruct (Desktop.url item) as [u|]; [destruct (truthy u)|]; exact IH.
    + apply Clear; reflexivity.
  - unfold handleDropdownItemClick.
    destruct itemUrl as [u|]; [destruct (truthy u)|]; exact IH.
  - unfold handleMenuToggle. destruct (mobileMenuOpen s); exact IH.
  - unfold handleMobileItemClick.
    destruct (flag (Mobile.back item)); [exact IH|].
    destruct (flag (Mobile.hasChildren item)); [exact IH|].
    destruct (Mobile.url item) as [u|]; [destruct (truthy u)|]; exact IH.
  - unfold handleMediaChange. destruct (Bool.eqb matches (isMobile s));
      [exact IH|]. destruct (negb matches); exact IH.
  - unfold advance. intros t.
    match goal with
    | |- context [runAll ?f ?x] =>
        destruct (runAll_frame_container f x) as (a & b & _)
    end.
    rewrite a, b. simpl. intros Ht. apply In_laterTimers in Ht as [Ht _].
    apply IH. exact Ht.
Qed.

(** X29. The cleanup of NavigationContainer.tsx empties the timer table in
    every reachable state, so the passing of time after unmount calls
    nothing: the active dropdown and the navigation log stay as they were. *)
Lemma container_unmount_clears s :
  reachable s ->
  timers (unmount s) = [] /\
  forall dt,
    activeDropdown (advance dt (unmount s)) = activeDropdown s /\
    navigated (advance dt (unmount s)) = navigated s.
Proof.
  intros R.
  assert (timers (unmount s) = []) as E
    by (simpl; apply clearTimeout_named; apply (Reachable_named R)).
  split; [exact E|]. intros dt. unfold advance, dueTimers, laterTimers.
  rewrite E. simpl. auto.
Qed.

End ContainerFacts.

(** C8. Two runs that end with an unmount.  In DesktopNavigation.tsx the
    close timer armed by leaving the bar is still in the timer table after
    the unmount (the component's only cleanup removes the mousedown
    listener) and runs 250 ms later.  In MobileNavigation.tsx the deferred
    reset of a leaf selection is still in the table after the unmount and,
    300 ms later, calls [onNavigate]. *)
Theorem unmount_keeps_timers :
  (let s := Desktop.unmount
              (Desktop.run Scenario.entries
                 [Desktop.ItemClick Scenario.entryA; Desktop.ItemLeave]
                 Desktop.initialState) in
   Desktop.mounted s = false /\
   Desktop.closeTimers s =
     [mkTimer 1 250 (Desktop.CloseIfNotHovering false false)] /\
   Desktop.pendingCloseTimer s =
     Some (mkTimer 1 250 (Desktop.CloseIfNotHovering false false)) /\
   Desktop.timers (Desktop.advance Scenario.entries 249 s) <> [] /\
   Desktop.timers (Desktop.advance Scenario.entries 250 s) = []) /\
  (let leaf :=
     Mobile.mkMobileItem "About Us" (Some false) (Some Mobile.topRight)
       (Some Mobile.mobileChild) (Some "#about") None in
   let s := Mobile.unmount
              (Mobile.handleMobileItemClick Scenario.motorbikesDropdownItems
                 Scenario.scootersDropdownItems Scenario.moreDropdownItems
                 leaf (Scenario.drawerOnMore Scenario.moreDropdownItems)) in
   Mobile.mounted s = false /\
   Mobile.timers s =
     [mkTimer 1 300 (Mobile.ResetThenNavigate (Some "#about"))] /\
   Mobile.navigated s = [] /\
   Mobile.navigated (Mobile.advance 300 s) = ["#about"]).
Proof.
  split; vm_compute; repeat split; discriminate.
Qed.

(* ================================================================== *)
(** * Further facts: keyboard handling in DesktopNavigation.tsx *)

Section DesktopPanelKeys.

Import Js Desktop DesktopInv.

Variable items : list DesktopNavItemData.

Lemma truthy_true (x : string) : x <> "" -> truthy x = true.
Proof.
  intros H. unfold truthy. destruct (String.eqb_spec x ""); [contradiction|].
  reflexivity.
Qed.



(** X2. Inside the panel Tab behaves exactly like Escape.  With nothing open
    or with no focusable item in the panel every key, Escape included,
    leaves the state as it is.  Otherwise Escape / Tab clear the active key,
    call nothing at once, and schedule one callback, 50 ms later, that
    focuses the entry whose lower-cased label is the closed key; when no
    entry has that label nothing is scheduled. *)
Theorem panel_escape_and_tab (count : nat) (cur : Z) (r : State) :
  handleDropdownKeyDown items Tab count cur r =
  handleDropdownKeyDown items Escape count cur r /\
  (forall key, activeDropdown r = "" \/ count = 0 ->
     handleDropdownKeyDown items key count cur r = r) /\
  (activeDropdown r <> "" -> 0 < count ->
   let s1 := handleDropdownKeyDown items Escape count cur r in
   activeDropdown s1 = "" /\
   navigated s1 = navigated r /\ focused s1 = focused r /\
   timers s1 =
     timers r ++
     match findByLabel items (activeDropdown r) with
     | Some trigger =>
         [mkTimer (nextTimerId r) (now r + 50)
            (FocusLater (ElementById (id trigger)))]
     | None => []
     end).
Proof.
  split; [reflexivity|]. split.
  - intros key [E| ->]; unfold handleDropdownKeyDown.
    + rewrite E. reflexivity.
    + destruct (negb (truthy (activeDropdown r))); reflexivity.
  - intros Hopen Hc s1.
    assert ((count =? 0)%nat = false) as C0 by (apply Nat.eqb_neq; lia).
    unfold s1, handleDropdownKeyDown, closeDropdown.
    rewrite (truthy_true Hopen), C0. simpl.
    unfold orElse. rewrite (truthy_true Hopen).
    destruct (findByLabel items (activeDropdown r)); simpl;
      rewrite ?app_nil_r; auto.
Qed.

End DesktopPanelKeys.


Section DesktopStripKeys.

Import Js Desktop DesktopInv.

Variable items : list DesktopNavItemData.

Local Ltac decide_due :=
  repeat match goal with
  | |- context [(?a <=? ?b)%nat] =>
      destruct (Nat.leb_spec a b); try lia; simpl
  | |- context [(?a <? ?b)%nat] =>
      destruct (Nat.ltb_spec a b); try lia; simpl
  end.

(** X3. Escape on an entry of the strip does nothing when no submenu is
    open.  When one is open it clears the active key without navigating;
    if no other callback is pending, then once 50 ms have passed focus has
    been put on the pressed entry and after that on the entry found under
    the pressed entry's label (on no second element if the label names no
    entry), and no callback is left. *)
Theorem escape_on_strip (item : DesktopNavItemData) (r : State) :
  (activeDropdown r = "" -> handleItemKeyDown items item Escape r = r) /\
  (activeDropdown r <> "" ->
   let s1 := handleItemKeyDown items item Escape r in
   activeDropdown s1 = "" /\
   navigated s1 = navigated r /\ focused s1 = focused r /\
   (timers r = [] -> forall dt, 50 <= dt ->
      focused (advance items dt s1) =
        focused r ++ [CurrentTarget (id item)] ++
        match findByLabel items
                (orElse (Some (label item)) (activeDropdown r)) with
        | Some trigger => [ElementById (id trigger)]
        | None => []
        end /\
      timers (advance items dt s1) = [] /\
      activeDropdown (advance items dt s1) = "" /\
      navigated (advance items dt s1) = navigated r)).
Proof.
  split.
  - intros E. unfold handleItemKeyDown, itemKeyCase. rewrite E. reflexivity.
  - intros Hopen s1.
    assert (s1 = later (FocusLater (CurrentTarget (id item))) 0
                   (closeDropdown items r (Some (label item)) r)) as E1.
    { unfold s1, handleItemKeyDown, itemKeyCase.
      rewrite (truthy_true Hopen). reflexivity. }
    rewrite E1. unfold closeDropdown. rewrite (truthy_true Hopen). simpl.
    destruct (findByLabel items _) as [trigger|]; simpl.
    + do 3 (split; [reflexivity|]). intros Ht dt Hd.
      unfold advance, dueTimers, laterTimers, sortByDue, isDue; simpl.
      rewrite Ht; simpl. decide_due. rewrite <- ?app_assoc. auto.
    + do 3 (split; [reflexivity|]). intros Ht dt Hd.
      unfold advance, dueTimers, laterTimers, sortByDue, isDue; simpl.
      rewrite Ht; simpl. decide_due. auto.
Qed.

(** X4. Enter and Space on a submenu owner toggle its submenu exactly as a
    click does and never navigate; in a reachable state no close timer is
    left behind.  If no other callback is pending, then once 50 ms have
    passed exactly one element has been focused: the first item of the
    panel when the submenu was opened, the pressed entry when it was
    closed. *)
Theorem enter_space_on_owner (item : DesktopNavItemData) (key : Key)
  (r : State) :
  key = Enter \/ key = Space -> hasDropdown item = true ->
  let s1 := handleItemKeyDown items item key r in
  activeDropdown s1 =
    (if activeDropdown r =? dropdownKey item then "" else dropdownKey item) /\
  activeDropdown s1 = activeDropdown (handleDesktopItemClick items item r) /\
  navigated s1 = navigated r /\
  (Reachable items r -> closeTimers s1 = []) /\
  (timers r = [] -> forall dt, 50 <= dt ->
     focused (advance items dt s1) =
       focused r ++
       [if activeDropdown s1 =? ""
        then CurrentTarget (id item)
        else FirstMenuItemOf (label item)] /\
     timers (advance items dt s1) = []).
Proof.
  intros Hkey Hown s1.
  assert (s1 =
    let newState :=
      if activeDropdown r =? dropdownKey item then "" else dropdownKey item in
    let s := clearCloseTimer (setActiveDropdown newState r) in
    if negb (newState =? "")
    then later (FocusLater (FirstMenuItemOf (label item))) 50 s
    else later (FocusLater (CurrentTarget (id item))) 0 s) as E1.
  { unfold s1, handleItemKeyDown, itemKeyCase, dropdownKey.
    destruct Hkey as [-> | ->]; rewrite Hown; simpl;
      destruct (negb _); reflexivity. }
  rewrite E1. clear E1 s1. simpl.
  set (newState :=
         if activeDropdown r =? dropdownKey item then "" else dropdownKey item).
  split; [destruct (negb (newState =? "")); reflexivity|].
  split; [unfold handleDesktopItemClick; rewrite Hown; simpl;
          destruct (negb (newState =? "")); reflexivity|].
  split; [destruct (negb (newState =? "")); reflexivity|].
  split.
  - intros R. pose proof (Reachable_Inv R) as I.
    assert (closeTimers (clearCloseTimer (setActiveDropdown newState r)) = [])
      as C by (apply (closeTimers_clearCloseTimer I); split; reflexivity).
    destruct (negb (newState =? ""));
      (erewrite closeTimers_Quiet; [exact C|]);
      apply Quiet_later; discriminate.
  - intros Ht dt Hd.
    destruct (newState =? "") eqn:N; simpl;
      unfold advance, dueTimers, laterTimers, sortByDue, isDue; simpl;
      rewrite Ht; simpl;
      destruct (mouseLeaveTimeoutRef r); simpl; decide_due;
      rewrite ?N; auto.
Qed.

(** X5. Enter and Space on an entry without submenu call [onNavigate] with
    the entry's URL when it is present and not ["#"], as a click does; but
    unlike a click they leave an open submenu open, and they schedule
    nothing. *)
Theorem enter_space_on_plain_entry (item : DesktopNavItemData) (key : Key)
  (r : State) :
  key = Enter \/ key = Space -> hasDropdown item = false ->
  let s1 := handleItemKeyDown items item key r in
  navigated s1 =
    navigated r ++ match realUrl (url item) with
                   | Some u => [u]
                   | None => []
                   end /\
  navigated (handleDesktopItemClick items item r) = navigated s1 /\
  activeDropdown s1 = activeDropdown r /\
  activeDropdown (handleDesktopItemClick items item r) = "" /\
  timers s1 = timers r /\ focused s1 = focused r.
Proof.
  intros Hkey Hown s1.
  assert (s1 = match realUrl (url item) with
               | Some u => onNavigate u r
               | None => r
               end) as E1
    by (unfold s1, handleItemKeyDown, itemKeyCase;
        destruct Hkey as [-> | ->]; rewrite Hown; simpl;
        destruct (realUrl (url item)); reflexivity).
  rewrite E1. clear E1 s1.
  assert (exists extra,
            closeDropdown items r None r =
            mkState "" (isHoveringNavItem r) (isHoveringDropdown r)
              (mouseLeaveTimeoutRef r) (timers r ++ extra)
              (nextTimerId r + List.length extra) (now r)
              (navigated r) (focused r) (mounted r)) as [extra Ec].
  { unfold closeDropdown. destruct (truthy (activeDropdown r)) eqn:T; simpl.
    - destruct (findByLabel items _).
      + eexists [_]. unfold later. simpl. rewrite Nat.add_1_r. reflexivity.
      + exists []. unfold setActiveDropdown.
        rewrite app_nil_r, Nat.add_0_r. reflexivity.
    - exists []. unfold truthy in T. apply negb_false_iff in T.
      apply String.eqb_eq in T. destruct r; simpl in *. subst.
      rewrite app_nil_r, Nat.add_0_r. reflexivity. }
  unfold handleDesktopItemClick. rewrite Hown, Ec. simpl.
  destruct (realUrl (url item)) as [u|]; simpl; rewrite ?app_nil_r;
    repeat split.
Qed.

(** X6. ArrowDown on an entry without submenu changes nothing.  On a submenu
    owner it never navigates and always ends with the owner's key active:
    an already open submenu stays as it is and its first item is focused at
    once; otherwise the submenu opens, the close timer is cleared and the
    focus on the first item is scheduled 50 ms later. *)
Theorem arrow_down_on_strip (item : DesktopNavItemData) (r : State) :
  (hasDropdown item = false ->
   handleItemKeyDown items item ArrowDown r = r) /\
  (hasDropdown item = true ->
   let s1 := handleItemKeyDown items item ArrowDown r in
   activeDropdown s1 = dropdownKey item /\
   navigated s1 = navigated r /\
   (activeDropdown r = dropdownKey item ->
    s1 = focus (FirstMenuItemOf (label item)) r) /\
   (activeDropdown r <> dropdownKey item ->
    focused s1 = focused r /\
    timers s1 =
      clearTimeout (mouseLeaveTimeoutRef r) (timers r) ++
      [mkTimer (nextTimerId r) (now r + 50)
         (FocusLater (FirstMenuItemOf (label item)))])).
Proof.
  split; intros Hown; unfold handleItemKeyDown, itemKeyCase, dropdownKey;
    rewrite Hown; [reflexivity|].
  destruct (String.eqb_spec (activeDropdown r) (toLowerCase (label item)))
    as [E|N]; simpl.
  - split; [exact E|]. split; [reflexivity|]. split; [reflexivity|].
    intros C. contradiction.
  - split; [reflexivity|]. split; [reflexivity|].
    split; [intros C; contradiction|]. intros _. split; reflexivity.
Qed.

(** X7. Tab on an entry of the strip does nothing when no submenu is open.
    When one is open it clears the active key and, although no label is
    passed, schedules a callback 50 ms later that focuses the entry whose
    lower-cased label is the closed key (nothing when no entry has it);
    the pressed entry itself plays no part.  If no other callback is
    pending, then once 50 ms have passed that entry has been focused and no
    callback is left. *)
Theorem tab_on_strip (item : DesktopNavItemData) (r : State) :
  (activeDropdown r = "" -> handleItemKeyDown items item Tab r = r) /\
  (activeDropdown r <> "" ->
   let s1 := handleItemKeyDown items item Tab r in
   activeDropdown s1 = "" /\
   navigated s1 = navigated r /\ focused s1 = focused r /\
   timers s1 =
     timers r ++
     match findByLabel items (activeDropdown r) with
     | Some trigger =>
         [mkTimer (nextTimerId r) (now r + 50)
            (FocusLater (ElementById (id trigger)))]
     | None => []
     end /\
   (timers r = [] -> forall dt, 50 <= dt ->
      focused (advance items dt s1) =
        focused r ++ match findByLabel items (activeDropdown r) with
                     | Some trigger => [ElementById (id trigger)]
                     | None => []
                     end /\
      timers (advance items dt s1) = [])).
Proof.
  split.
  - intros E. unfold handleItemKeyDown, itemKeyCase. rewrite E. reflexivity.
  - intros Hopen s1. unfold s1, handleItemKeyDown, itemKeyCase, closeDropdown.
    rewrite (truthy_true Hopen). simpl.
    destruct (findByLabel items (activeDropdown r)); simpl;
      rewrite ?app_nil_r; do 4 (split; [reflexivity|]); intros Ht dt Hd;
      unfold advance, dueTimers, laterTimers, sortByDue, isDue; simpl;
      rewrite Ht; simpl; decide_due; rewrite ?app_nil_r; auto.
Qed.

Lemma findIndexFrom_bounds (k : Z) (l : list DesktopNavItemData)
  (item : DesktopNavItemData) :
  findIndexFrom k l item = (-1)%Z \/
  (k <= findIndexFrom k l item < k + Z.of_nat (List.length l))%Z.
Proof.
  revert k. induction l as [|x rest IH]; intros k; simpl; [auto|].
  destruct (id x =? id item); [right; lia|].
  destruct (IH (k + 1)%Z) as [E|B]; [auto | right; lia].
Qed.

(** X8. ArrowLeft and ArrowRight on the strip only schedule a focus: on an
    empty entry list they do nothing at all, and otherwise the target is
    always an existing position of the list, whichever entry was pressed;
    for an entry whose id is not in the list ArrowRight targets the first
    entry. *)
Theorem strip_arrows_stay_in_range (item : DesktopNavItemData) (key : Key)
  (r : State) :
  key = ArrowLeft \/ key = ArrowRight ->
  let s1 := handleItemKeyDown items item key r in
  (items = [] -> s1 = r) /\
  (items <> [] ->
   exists k, k < List.length items /\
             s1 = later (FocusLater (ItemRef k)) 0 r) /\
  (items <> [] -> findIndex items item = (-1)%Z -> key = ArrowRight ->
   s1 = later (FocusLater (ItemRef 0)) 0 r).
Proof.
  intros Hkey s1. split; [|split].
  - intros E. unfold s1, handleItemKeyDown, itemKeyCase, prevIndex, nextIndex.
    rewrite E. destruct Hkey as [-> | ->]; reflexivity.
  - intros Hne.
    assert (0 < List.length items) as Hn
      by (destruct items; [congruence | simpl; lia]).
    set (n := Z.of_nat (List.length items)).
    assert (forall a, (0 <= a)%Z \/ (a = -1 /\ n = 1)%Z ->
              exists k, k < List.length items /\
                itemRefAt items (rem a n) = Some (ItemRef k)) as T.
    { intros a Ha. unfold rem.
      destruct (Z.eqb_spec n 0) as [E0|_]; [unfold n in E0; lia|].
      assert (0 <= Z.rem a n < n)%Z as B.
      { destruct Ha as [Ha|[Ea En]];
          [|rewrite Ea, En; replace (Z.rem (-1) 1) with 0%Z by reflexivity; lia].
        rewrite Z.rem_mod_nonneg by (unfold n; lia).
        apply Z.mod_pos_bound. unfold n; lia. }
      exists (Z.to_nat (Z.rem a n)). split; [unfold n in *; lia|].
      unfold itemRefAt. fold n.
      destruct (Z.leb_spec 0 (Z.rem a n)); [|lia].
      destruct (Z.ltb_spec (Z.rem a n) n); [|lia]. reflexivity. }
    pose proof (findIndexFrom_bounds 0 items item) as B. fold (findIndex items item) in B.
    unfold s1, handleItemKeyDown, itemKeyCase, prevIndex, nextIndex. fold n.
    destruct Hkey as [-> | ->].
    + destruct (T (findIndex items item - 1 + n)%Z) as [k [Hk Ek]].
      { unfold n in *. lia. }
      rewrite Ek. exists k. auto.
    + destruct (T (findIndex items item + 1)%Z) as [k [Hk Ek]].
      { lia. }
      rewrite Ek. exists k. auto.
  - intros Hne Hidx ->.
    assert (0 < List.length items) as Hn
      by (destruct items; [congruence | simpl; lia]).
    unfold s1, handleItemKeyDown, itemKeyCase, nextIndex, rem, itemRefAt.
    rewrite Hidx. simpl.
    destruct (Z.eqb_spec (Z.of_nat (List.length items)) 0); [lia|].
    rewrite Z.rem_0_l by lia.
    destruct (Z.ltb_spec 0 (Z.of_nat (List.length items))); [|lia].
    reflexivity.
Qed.

End DesktopStripKeys.

(* ================================================================== *)
(** * Further facts: clicks and navigation in DesktopNavigation.tsx *)

Section DesktopNavigationFacts.

Import Js Desktop DesktopInv Guards.

Variable items : list DesktopNavItemData.

Local Ltac decide_due :=
  repeat match goal with
  | |- context [(?a <=? ?b)%nat] =>
      destruct (Nat.leb_spec a b); try lia; simpl
  | |- context [(?a <? ?b)%nat] =>
      destruct (Nat.ltb_spec a b); try lia; simpl
  end.

(** X9. A click on an item inside a panel clears the active key at once and
    calls nothing yet.  If no other callback is pending, nothing is
    navigated or focused before 600 ms have passed; after 600 ms
    [onNavigate] has been called exactly once with the item's URL if it is
    present and not ["#"] (not at all otherwise), then the entry whose
    lower-cased label is the key that was active has been focused (none if
    no entry has it), and no callback is left. *)
Theorem dropdown_item_click_defers_navigation (itemUrl : option string)
  (r : State) :
  timers r = [] ->
  let s1 := handleDropdownItemClick itemUrl r in
  (activeDropdown s1 = "" /\
   navigated s1 = navigated r /\ focused s1 = focused r) /\
  (forall dt, dt < 600 ->
     navigated (advance items dt s1) = navigated r /\
     focused (advance items dt s1) = focused r) /\
  (forall dt, 600 <= dt ->
     navigated (advance items dt s1) =
       navigated r ++ match realUrl itemUrl with
                      | Some u => [u]
                      | None => []
                      end /\
     focused (advance items dt s1) =
       focused r ++ match findByLabel items (activeDropdown r) with
                    | Some trigger => [ElementById (id trigger)]
                    | None => []
                    end /\
     timers (advance items dt s1) = []).
Proof.
  intros Ht s1. unfold s1, handleDropdownItemClick.
  split; [destruct (realUrl itemUrl); simpl; auto|]. split.
  - intros dt Hd. destruct (realUrl itemUrl); simpl;
      unfold advance, dueTimers, laterTimers, sortByDue, isDue; simpl;
      rewrite Ht; simpl; decide_due; auto.
  - intros dt Hd. destruct (realUrl itemUrl); simpl;
      unfold advance, dueTimers, laterTimers, sortByDue, isDue; simpl;
      rewrite Ht; simpl; decide_due; unfold refocusTrigger;
      destruct (findByLabel items (activeDropdown r)); simpl;
      rewrite ?app_nil_r; auto.
Qed.

(** X10. A click on an entry without submenu always ends with no submenu
    active and calls [onNavigate] with the entry's URL exactly when the URL
    is present and not ["#"].  If a submenu was open, a callback is
    scheduled 50 ms later that focuses the entry whose lower-cased label is
    the closed key; nothing is scheduled otherwise.  Hover flags, timer ref
    and any pending close timer are left as they are. *)
Theorem plain_entry_click (item : DesktopNavItemData) (r : State) :
  hasDropdown item = false ->
  let s1 := handleDesktopItemClick items item r in
  activeDropdown s1 = "" /\
  navigated s1 =
    navigated r ++ match realUrl (url item) with
                   | Some u => [u]
                   | None => []
                   end /\
  focused s1 = focused r /\
  timers s1 =
    timers r ++
    (if truthy (activeDropdown r)
     then match findByLabel items (activeDropdown r) with
          | Some trigger =>
              [mkTimer (nextTimerId r) (now r + 50)
                 (FocusLater (ElementById (id trigger)))]
          | None => []
          end
     else []) /\
  closeTimers s1 = closeTimers r /\
  isHoveringNavItem s1 = isHoveringNavItem r /\
  isHoveringDropdown s1 = isHoveringDropdown r /\
  mouseLeaveTimeoutRef s1 = mouseLeaveTimeoutRef r.
Proof.
  intros Hown s1. unfold s1, handleDesktopItemClick, closeDropdown, closeTimers.
  rewrite Hown. simpl. unfold orElse.
  destruct (truthy (activeDropdown r)) eqn:T; simpl.
  - destruct (findByLabel items (activeDropdown r)); simpl;
      destruct (realUrl (url item)); simpl;
      rewrite ?app_nil_r, ?filter_app; simpl; rewrite ?app_nil_r;
      repeat split.
  - unfold truthy in T. apply negb_false_iff in T. apply String.eqb_eq in T.
    destruct (realUrl (url item)); simpl; rewrite ?app_nil_r; auto 10.
Qed.

(** ** Only guarded URLs are navigated to *)

Lemma realUrl_ok (o : option string) (u : string) :
  realUrl o = Some u -> okUrl u.
Proof.
  unfold realUrl, okUrl, truthy. destruct o as [x|]; [|discriminate].
  destruct (String.eqb_spec x ""); simpl; [discriminate|].
  destruct (String.eqb_spec x "#"); simpl; [discriminate|].
  intros E. injection E as <-. auto.
Qed.

Lemma guard_same (s s' : State) :
  navigated s' = navigated s -> incl (timers s') (timers s) ->
  Guards.desktop s -> Guards.desktop s'.
Proof.
  intros En Hi [G1 G2]. split; [rewrite En; exact G1|].
  intros t u l Ht. apply (G2 t u l). apply Hi. exact Ht.
Qed.

Lemma guard_later (a : TimerAction) (delay : nat) (s : State) :
  (forall u l, a = NavigateThenRefocus u l -> okUrl u) ->
  Guards.desktop s -> Guards.desktop (later a delay s).
Proof.
  intros Ha [G1 G2]. split; [exact G1|]. simpl.
  intros t u l Ht E. apply in_app_or in Ht as [Ht|[<-|[]]].
  - apply (G2 t u l Ht E).
  - apply (Ha u l). exact E.
Qed.

Lemma guard_onNavigate (u : string) (s : State) :
  okUrl u -> Guards.desktop s -> Guards.desktop (onNavigate u s).
Proof.
  intros Hu [G1 G2]. split; [|exact G2]. simpl.
  apply Forall_app. split; [exact G1|]. constructor; [exact Hu | constructor].
Qed.

Lemma incl_clearTimeout (h : option nat) (ts : list (Timer TimerAction)) :
  incl (clearTimeout h ts) ts.
Proof. intros t Ht. apply In_clearTimeout in Ht. tauto. Qed.

Lemma guard_clear (s : State) :
  Guards.desktop s -> Guards.desktop (clearCloseTimer s).
Proof. apply guard_same; [reflexivity | apply incl_clearTimeout]. Qed.

Lemma guard_start (r s : State) :
  Guards.desktop s -> Guards.desktop (startCloseTimer r s).
Proof.
  intros [G1 G2]. split; [exact G1|]. simpl.
  intros t u l Ht E. apply in_app_or in Ht as [Ht|[<-|[]]].
  - apply incl_clearTimeout in Ht. apply (G2 t u l Ht E).
  - discriminate.
Qed.

Lemma guard_closeDropdown (r : State) (l : option string) (s : State) :
  Guards.desktop s -> Guards.desktop (closeDropdown items r l s).
Proof.
  intros G. unfold closeDropdown.
  destruct (negb (truthy (activeDropdown r))); [exact G|].
  assert (Guards.desktop (setActiveDropdown "" s)) as G'
    by (revert G; apply guard_same; [reflexivity | apply incl_refl]).
  destruct (findByLabel items _); [|exact G'].
  apply guard_later; [discriminate | exact G'].
Qed.

Lemma guard_runAll (fired : list (Timer TimerAction)) (s : State) :
  (forall t u l, In t fired -> act t = NavigateThenRefocus u l -> okUrl u) ->
  Guards.desktop s -> Guards.desktop (runAll items fired s).
Proof.
  revert s. induction fired as [|t rest IH]; intros s Hf G; simpl; [exact G|].
  apply IH; [intros t' u l Ht'; apply (Hf t' u l); now right|].
  destruct (act t) as [n d|ft|u l|l] eqn:Ea; simpl.
  - unfold setActiveDropdownIfMounted.
    destruct (negb n && negb d); [|exact G].
    destruct (mounted s); [|exact G].
    revert G; apply guard_same; [reflexivity | apply incl_refl].
  - revert G; apply guard_same; [reflexivity | apply incl_refl].
  - assert (Guards.desktop (onNavigate u s)) as G'
      by (apply guard_onNavigate;
          [apply (Hf t u l); [now left | exact Ea] | exact G]).
    unfold refocusTrigger. destruct (findByLabel items l); [|exact G'].
    revert G'; apply guard_same; [reflexivity | apply incl_refl].
  - unfold refocusTrigger. destruct (findByLabel items l); [|exact G].
    revert G; apply guard_same; [reflexivity | apply incl_refl].
Qed.

Lemma guard_handle (e : Event) (s : State) :
  Guards.desktop s -> Guards.desktop (handle items e s).
Proof.
  intros G.
  assert (forall v st, Guards.desktop st ->
            Guards.desktop (setActiveDropdown v st)) as GA
    by (intros v st; apply guard_same; [reflexivity | apply incl_refl]).
  assert (forall v st, Guards.desktop st ->
            Guards.desktop (setIsHoveringNavItem v st)) as GN
    by (intros v st; apply guard_same; [reflexivity | apply incl_refl]).
  assert (forall v st, Guards.desktop st ->
            Guards.desktop (setIsHoveringDropdown v st)) as GD
    by (intros v st; apply guard_same; [reflexivity | apply incl_refl]).
  destruct e; simpl.
  - unfold handleItemHover. auto using guard_clear.
  - unfold handleItemLeave. auto using guard_start.
  - unfold handleItemFocus. auto using guard_clear.
  - unfold handleItemBlur. auto using guard_start.
  - unfold handleDropdownEnter. auto using guard_clear.
  - unfold handleDropdownLeave. auto using guard_start.
  - unfold handleDesktopItemClick. destruct (negb (hasDropdown item)).
    + destruct (realUrl (url item)) as [u|] eqn:U.
      * apply guard_onNavigate; [apply (realUrl_ok _ U)|].
        now apply guard_closeDropdown.
      * now apply guard_closeDropdown.
    + auto using guard_clear.
  - unfold handleDropdownItemClick.
    destruct (realUrl itemUrl) as [u|] eqn:U; apply guard_later; auto.
    + intros u' l E. injection E as <- _. apply (realUrl_ok _ U).
    + discriminate.
  - unfold handleItemKeyDown.
    assert (Guards.desktop (fst (itemKeyCase items item key s))) as G1.
    { unfold itemKeyCase. destruct key; simpl; auto.
      - destruct (hasDropdown item).
        + destruct (negb _); simpl; [apply guard_later; [discriminate|]|];
            auto using guard_clear.
        + simpl. destruct (realUrl (url item)) as [u|] eqn:U; auto.
          apply guard_onNavigate; [apply (realUrl_ok _ U) | exact G].
      - destruct (hasDropdown item).
        + destruct (negb _); simpl; [apply guard_later; [discriminate|]|];
            auto using guard_clear.
        + simpl. destruct (realUrl (url item)) as [u|] eqn:U; auto.
          apply guard_onNavigate; [apply (realUrl_ok _ U) | exact G].
      - destruct (hasDropdown item); auto.
        destruct (negb _); simpl.
        + apply guard_later; [discriminate|]. auto using guard_clear.
        + revert G; apply guard_same; [reflexivity | apply incl_refl].
      - destruct (truthy _); simpl; auto using guard_closeDropdown.
      - destruct (truthy _); simpl; auto using guard_closeDropdown. }
    destruct (itemKeyCase items item key s) as [s1 [t|]]; simpl in G1;
      [apply guard_later; [discriminate | exact G1] | exact G1].
  - unfold handleDropdownKeyDown.
    destruct (negb (truthy (activeDropdown s))); [exact G|].
    destruct (count =? 0)%nat; [exact G|].
    destruct key; auto using guard_closeDropdown;
      try (apply guard_later; [discriminate | exact G]);
      destruct (menuItemAt _ _); auto;
      (apply guard_later; [discriminate | exact G]).
  - unfold handleClickOutside. destruct (truthy _); auto.
  - unfold advance. apply guard_runAll.
    + intros t u l Ht. apply In_dueTimers in Ht as [Ht _].
      destruct G as [_ G2]. apply (G2 t u l Ht).
    + destruct G as [G1 G2]. split; [exact G1|]. simpl.
      intros t u l Ht. apply In_laterTimers in Ht as [Ht _].
      apply (G2 t u l Ht).
Qed.

(** X11. Whatever the events, DesktopNavigation never calls [onNavigate]
    with the empty string or with the placeholder ["#"]. *)
Theorem desktop_never_navigates_to_placeholder (s : State) :
  Reachable items s -> Forall okUrl (navigated s).
Proof.
  intros R. assert (Guards.desktop s) as [G _]; [|exact G].
  induction R as [|s e _ IH].
  - split; [constructor | simpl; contradiction].
  - now apply guard_handle.
Qed.

(** ** Pointer and focus events *)



End DesktopNavigationFacts.

(* ================================================================== *)
(** * Further facts: what the desktop bar renders *)

Section DesktopRendering.

Import Js Desktop DesktopRender.

Variable navId : string.
Variable dashSpaces : string -> string.
Variable items : list DesktopNavItemData.
Variable initialActiveItem : string.

Lemma lowerAscii_idem (c : ascii) : lowerAscii (lowerAscii c) = lowerAscii c.
Proof. destruct c as [[] [] [] [] [] [] [] []]; reflexivity. Qed.

Lemma toLowerCase_idem (x : string) :
  toLowerCase (toLowerCase x) = toLowerCase x.
Proof.
  induction x as [|c rest IH]; simpl; [reflexivity|].
  rewrite lowerAscii_idem, IH. reflexivity.
Qed.

Lemma getDropdownId_key (item : DesktopNavItemData) :
  getDropdownId navId dashSpaces (dropdownKey item) =
  getDropdownId navId dashSpaces (label item).
Proof.
  unfold getDropdownId, dropdownKey. rewrite toLowerCase_idem. reflexivity.
Qed.

(** X13. After a hover on a submenu owner [A] the anchor of [A] carries
    [aria-expanded = true] and an [aria-controls] id; every other owner with
    a different key carries [aria-expanded = false]; an entry without
    submenu carries none of the three ARIA attributes.  If [A]'s key is one
    of the keys of the dropdowns table exactly one panel is rendered and
    its id is the [aria-controls] id of [A] (the id the keyboard handler
    looks up); if it is not, e.g. for the label "Scooters", no panel is
    rendered although [A] is announced as expanded.  If the entry found
    under [A]'s label is [A], the panel's [aria-labelledby] is the id of
    [A]'s anchor. *)
Theorem hover_aria_and_panel (A B : DesktopNavItemData) (s : State) :
  hasDropdown A = true ->
  let s1 := handleItemHover A s in
  let anchor := anchorOf navId dashSpaces initialActiveItem s1 in
  NavBar.ariaExpanded (anchor A) = Some true /\
  NavBar.ariaControls (anchor A) =
    Some (getDropdownId navId dashSpaces (label A)) /\
  (hasDropdown B = true -> dropdownKey B <> dropdownKey A ->
   NavBar.ariaExpanded (anchor B) = Some false) /\
  (hasDropdown B = false ->
   NavBar.ariaExpanded (anchor B) = None /\
   NavBar.ariaHaspopup (anchor B) = None /\
   NavBar.ariaControls (anchor B) = None) /\
  (In (dropdownKey A) dropdowns ->
   renderedPanelIds navId dashSpaces s1 =
     [getDropdownId navId dashSpaces (label A)]) /\
  (~ In (dropdownKey A) dropdowns ->
   renderedPanelIds navId dashSpaces s1 = []) /\
  (findByLabel items (label A) = Some A ->
   triggerId items (dropdownKey A) = NavBar.anchorId (anchor A)).
Proof.
  intros HA s1 anchor.
  assert (activeDropdown s1 = dropdownKey A) as E
    by (unfold s1, handleItemHover, dropdownKey; rewrite HA; reflexivity).
  clearbody s1.
  unfold anchor, anchorOf, NavBar.navItem, NavBar.navItemProps. simpl.
  rewrite E, HA. unfold dropdownKey. rewrite toLowerCase_idem. simpl.
  rewrite String.eqb_refl.
  split; [reflexivity|]. split; [reflexivity|]. split; [|split; [|split; [|split]]].
  - intros HB N. rewrite HB. simpl.
    destruct (String.eqb_spec (toLowerCase (label A)) (toLowerCase (label B)));
      [congruence | reflexivity].
  - intros HB. rewrite HB. auto.
  - intros Hin. rewrite <- getDropdownId_key.
    unfold renderedPanelIds, renderedDropdowns, dropdowns in *. rewrite E.
    unfold dropdownKey in *.
    destruct Hin as [<-|[<-|[<-|[]]]]; reflexivity.
  - intros Hn. unfold renderedPanelIds, renderedDropdowns in *. rewrite E.
    unfold dropdownKey in *.
    replace (filter _ dropdowns) with (@nil string); [reflexivity|].
    symmetry. unfold dropdowns in *. simpl in *.
    repeat match goal with
    | |- context [toLowerCase (label A) =? ?k] =>
        destruct (String.eqb_spec (toLowerCase (label A)) k);
          [exfalso; apply Hn; auto 6|]
    end. reflexivity.
  - unfold triggerId, findByLabel. intros F.
    rewrite F. reflexivity.
Qed.

End DesktopRendering.

(* ================================================================== *)
(** * Further facts: the content of a dropdown panel *)

Section DropdownContent.

Import Dropdown.

Implicit Types (item : DropdownItem) (items : list DropdownItem).

Lemma isLink_negb item : isLink item = negb (isModel item).
Proof. unfold isLink, isModel. destruct (type item); reflexivity. Qed.

Lemma models_links_perm items :
  Permutation (filter isModel items ++ filter isLink items) items.
Proof.
  induction items as [|x rest IH]; simpl; [constructor|].
  rewrite isLink_negb. destruct (isModel x); simpl.
  - now constructor.
  - apply Permutation_sym. apply Permutation_cons_app.
    apply Permutation_sym. exact IH.
Qed.

(** X14. For the motorbikes and the scooters panel (which render alike) an
    empty dataset gives the "no items" notice; any other dataset is split
    into its model items and its link items, each in dataset order: no item
    is lost or shown twice, whatever its [group] field. *)
Theorem models_and_links_partition (t : DropdownType) items :
  t = motorbikes \/ t = scooters ->
  (items = [] -> renderDropdownContent t items = NoItemsAvailable) /\
  (items <> [] ->
   renderDropdownContent t items =
   ModelsAndLinks (filter isModel items) (filter isLink items)) /\
  Permutation (filter isModel items ++ filter isLink items) items /\
  renderDropdownContent motorbikes items =
  renderDropdownContent scooters items.
Proof.
  intros Ht. split; [|split; [|split]].
  - intros ->. destruct Ht as [-> | ->]; reflexivity.
  - intros Hne.
    assert (renderDropdownContent motorbikes items =
            ModelsAndLinks (filter isModel items) (filter isLink items)) as E.
    { unfold renderDropdownContent.
      destruct items as [|x rest]; [congruence|]. simpl.
      rewrite isLink_negb. destruct (isModel x); simpl; [reflexivity|].
      rewrite Nat.eqb_refl || idtac.
      destruct (List.length (filter isModel rest) =? 0)%nat; reflexivity. }
    destruct Ht as [-> | ->]; exact E.
  - apply models_links_perm.
  - reflexivity.
Qed.

(** ** The "more" panel for an arbitrary dataset *)

Lemma insertByString_perm (k : Z) (ks : list Z) :
  Permutation (insertByString k ks) (k :: ks).
Proof.
  induction ks as [|j rest IH]; simpl; [apply Permutation_refl|].
  destruct (String.ltb _ _); [apply Permutation_refl|].
  eapply Permutation_trans; [apply perm_skip; exact IH | apply perm_swap].
Qed.

Lemma insertAscending_perm (k : Z) (ks : list Z) :
  Permutation (insertAscending k ks) (k :: ks).
Proof.
  induction ks as [|j rest IH]; simpl; [apply Permutation_refl|].
  destruct (k <? j)%Z; [apply Permutation_refl|].
  eapply Permutation_trans; [apply perm_skip; exact IH | apply perm_swap].
Qed.

Lemma fold_insert_perm (ins : Z -> list Z -> list Z) :
  (forall k ks, Permutation (ins k ks) (k :: ks)) ->
  forall ks acc,
    Permutation (fold_left (fun sorted k => ins k sorted) ks acc) (ks ++ acc).
Proof.
  intros H ks. induction ks as [|k rest IH]; intros acc; simpl.
  - apply Permutation_refl.
  - eapply Permutation_trans; [apply IH|].
    eapply Permutation_trans; [apply Permutation_app_head; apply H|].
    apply Permutation_sym. apply Permutation_middle.
Qed.

Lemma defaultSort_perm (ks : list Z) : Permutation (defaultSort ks) ks.
Proof.
  unfold defaultSort.
  eapply Permutation_trans; [apply (fold_insert_perm _ insertByString_perm)|].
  rewrite app_nil_r. apply Permutation_refl.
Qed.

Lemma filter_split_perm (p : Z -> bool) (ks : list Z) :
  Permutation (filter p ks ++ filter (fun k => negb (p k)) ks) ks.
Proof.
  induction ks as [|x rest IH]; simpl; [constructor|].
  destruct (p x); simpl.
  - now constructor.
  - apply Permutation_sym. apply Permutation_cons_app.
    apply Permutation_sym. exact IH.
Qed.

Lemma objectKeys_perm (acc : Grouped) :
  Permutation (objectKeys acc) (map fst acc).
Proof.
  unfold objectKeys.
  eapply Permutation_trans; [|apply (filter_split_perm isArrayIndex)].
  apply Permutation_app_tail.
  eapply Permutation_trans;
    [apply (fold_insert_perm _ insertAscending_perm)|].
  rewrite app_nil_r. apply Permutation_refl.
Qed.

Lemma groupKeys_perm items :
  Permutation (defaultSort (objectKeys (groupItems items)))
    (map fst (groupItems items)).
Proof.
  eapply Permutation_trans; [apply defaultSort_perm | apply objectKeys_perm].
Qed.

Lemma filter_inGroup_nonempty k items :
  (exists item, In item items /\ group item = Some k) <->
  filter (inGroup k) items <> [].
Proof.
  split.
  - intros [x [Hx Gx]] E.
    assert (In x (filter (inGroup k) items)) as Hin.
    { apply filter_In. split; [exact Hx|]. unfold inGroup. rewrite Gx.
      apply Z.eqb_refl. }
    rewrite E in Hin. contradiction.
  - intros N. destruct (filter (inGroup k) items) as [|x rest] eqn:F;
      [congruence|].
    assert (In x (filter (inGroup k) items)) as Hin by (rewrite F; now left).
    apply filter_In in Hin as [Hx Gx]. exists x. split; [exact Hx|].
    unfold inGroup in Gx. destruct (group x) as [j|]; [|discriminate].
    apply Z.eqb_eq in Gx. congruence.
Qed.

Lemma concat_one_more (x : DropdownItem) (g : Z) items (ks : list Z) :
  group x = Some g -> NoDup ks ->
  (In g ks ->
   Permutation
     (List.concat (map (fun k => filter (inGroup k) (x :: items)) ks))
     (x :: List.concat (map (fun k => filter (inGroup k) items) ks))) /\
  (~ In g ks ->
   List.concat (map (fun k => filter (inGroup k) (x :: items)) ks) =
   List.concat (map (fun k => filter (inGroup k) items) ks)).
Proof.
  intros Gx. induction ks as [|k rest IH]; intros ND.
  - split; [contradiction | reflexivity].
  - inversion ND as [|? ? Hk ND']; subst. destruct (IH ND') as [IH1 IH2].
    rewrite !map_cons, !concat_cons.
    change (filter (inGroup k) (x :: items))
      with (if inGroup k x then x :: filter (inGroup k) items
            else filter (inGroup k) items).
    assert (inGroup k x = (g =? k)%Z) as Ek
      by (unfold inGroup; rewrite Gx; reflexivity).
    rewrite Ek.
    destruct (Z.eqb_spec g k) as [->|N].
    + split; [intros _|intros C; exfalso; apply C; now left].
      rewrite (IH2 Hk). simpl. apply Permutation_refl.
    + split.
      * intros [C|Hin]; [congruence|].
        eapply Permutation_trans;
          [apply Permutation_app_head; apply (IH1 Hin)|].
        apply Permutation_sym. apply Permutation_middle.
      * intros Hn. rewrite IH2; [reflexivity|].
        intros C. apply Hn. now right.
Qed.

Lemma concat_groups_perm items (ks : list Z) :
  NoDup ks ->
  (forall item, In item items -> exists k, group item = Some k /\ In k ks) ->
  Permutation (List.concat (map (fun k => filter (inGroup k) items) ks)) items.
Proof.
  intros ND. induction items as [|x rest IH]; intros H.
  - replace (List.concat (map (fun k => filter (inGroup k) []) ks))
      with (@nil DropdownItem); [constructor|].
    clear. induction ks as [|k ks' IHk]; simpl; auto.
  - destruct (H x (or_introl eq_refl)) as [g [Gx Hg]].
    destruct (@concat_one_more x g rest ks Gx ND) as [P _].
    eapply Permutation_trans; [apply (P Hg)|].
    constructor. apply IH. intros item Hin. apply H. now right.
Qed.

Lemma more_groups_shape items :
  let moreItems := filter isMoreLink items in
  let keys := defaultSort (objectKeys (groupItems moreItems)) in
  NoDup keys /\
  (forall k, In k keys <->
             exists item, In item moreItems /\ group item = Some k) /\
  map (fun groupIndex =>
         (groupIndex,
          match lookupGroup groupIndex (groupItems moreItems) with
          | Some v => v
          | None => []
          end)) keys =
  map (fun k => (k, filter (inGroup k) moreItems)) keys.
Proof.
  intros moreItems keys.
  destruct (@keys_fold moreItems [] (NoDup_nil _)) as [ND K].
  fold (groupItems moreItems) in ND, K.
  pose proof (groupKeys_perm moreItems) as P. fold keys in P.
  assert (forall k, In k keys <->
            exists item, In item moreItems /\ group item = Some k) as K'.
  { intros k. split.
    - intros Hk. apply (Permutation_in _ P) in Hk. apply K in Hk.
      destruct Hk as [[]|Hk]. exact Hk.
    - intros Hk. apply (Permutation_in _ (Permutation_sym P)).
      apply K. now right. }
  split; [apply (Permutation_NoDup (Permutation_sym P) ND)|].
  split; [exact K'|].
  apply map_ext_in. intros k Hk. f_equal.
  unfold groupItems. rewrite lookupGroup_fold. simpl.
  apply K' in Hk. apply filter_inGroup_nonempty in Hk.
  destruct (filter (inGroup k) moreItems); [congruence | reflexivity].
Qed.

(** X15. The "more" panel for any dataset.  Items that are models or carry
    no numeric group are left out.  If no item remains the "no items" notice
    is shown.  Otherwise there is one column per distinct group index that
    occurs, each holding exactly the items of that group in dataset order,
    so that every remaining item is shown exactly once; the columns are
    followed by [2 - number of columns] placeholders, none when there are
    two or more. *)
Theorem more_groups_spec items :
  let moreItems := filter isMoreLink items in
  (moreItems = [] -> renderDropdownContent more items = NoItemsAvailable) /\
  (moreItems <> [] ->
   exists keys,
     renderDropdownContent more items =
       MoreGroups (map (fun k => (k, filter (inGroup k) moreItems)) keys)
         (2 - List.length keys) /\
     keys <> [] /\ NoDup keys /\
     (forall k, In k keys <->
                exists item, In item moreItems /\ group item = Some k) /\
     Permutation
       (List.concat (map (fun k => filter (inGroup k) moreItems) keys))
       moreItems).
Proof.
  intros moreItems. split.
  - intros E. unfold renderDropdownContent. fold moreItems. rewrite E.
    reflexivity.
  - intros Hne.
    destruct (more_groups_shape items) as (ND & K & M).
    fold moreItems in ND, K, M.
    set (keys := defaultSort (objectKeys (groupItems moreItems))) in ND, K, M.
    assert (forall item, In item moreItems ->
              exists k, group item = Some k /\ In k keys) as Cover.
    { intros item Hin. pose proof Hin as Hin'.
      apply filter_In in Hin as [_ Hm]. unfold isMoreLink in Hm.
      destruct (type item); [discriminate|].
      destruct (group item) as [k|] eqn:G; [|discriminate].
      exists k. split; [reflexivity|]. apply K. exists item. auto. }
    exists keys. split; [|split; [|split; [exact ND|split; [exact K|]]]].
    + unfold renderDropdownContent. fold moreItems. fold keys.
      destruct moreItems as [|x rest] eqn:Em; [congruence|].
      rewrite <- Em in *. rewrite M.
      replace (List.length moreItems =? 0)%nat with false
        by (rewrite Em; reflexivity).
      reflexivity.
    + destruct moreItems as [|x rest] eqn:Em; [congruence|].
      destruct (Cover x (or_introl eq_refl)) as [k [_ Hk]].
      intros E. rewrite E in Hk. contradiction.
    + apply concat_groups_perm; assumption.
Qed.

End DropdownContent.

Section DropdownOrder.

Import Dropdown.

Lemma digit_ltb (a b : Z) :
  isDigit a -> isDigit b ->
  String.ltb (numberToString a) (numberToString b) = (a <? b)%Z.
Proof.
  unfold isDigit. intros Ha Hb.
  assert (a = 0 \/ a = 1 \/ a = 2 \/ a = 3 \/ a = 4 \/ a = 5 \/ a = 6 \/
          a = 7 \/ a = 8 \/ a = 9)%Z as Ca by lia.
  assert (b = 0 \/ b = 1 \/ b = 2 \/ b = 3 \/ b = 4 \/ b = 5 \/ b = 6 \/
          b = 7 \/ b = 8 \/ b = 9)%Z as Cb by lia.
  clear Ha Hb.
  repeat (destruct Ca as [Ca|Ca]; [subst a|]); try subst a;
    repeat (destruct Cb as [Cb|Cb]; [subst b|]); try subst b; reflexivity.
Qed.

Lemma insertByString_sorted (k : Z) (acc : list Z) :
  isDigit k -> Forall isDigit acc -> StronglySorted Z.lt acc -> ~ In k acc ->
  StronglySorted Z.lt (insertByString k acc).
Proof.
  intros Hk. induction acc as [|j rest IH]; intros Hd Hs Hn; simpl.
  - repeat constructor.
  - inversion Hd as [|? ? Hj Hd']; subst.
    inversion Hs as [|? ? Hs' Hlt]; subst.
    rewrite (digit_ltb Hk Hj). destruct (Z.ltb_spec k j) as [L|G].
    + constructor; [exact Hs|]. constructor; [exact L|].
      eapply Forall_impl; [|exact Hlt]. simpl. intros x Hx. lia.
    + assert (j < k)%Z as L by (simpl in Hn; lia).
      constructor.
      * apply IH; auto. intros C. apply Hn. now right.
      * rewrite Forall_forall in *. intros x Hx.
        apply (Permutation_in _ (insertByString_perm k rest)) in Hx.
        destruct Hx as [<-|Hx]; [exact L | now apply Hlt].
Qed.

Lemma defaultSort_sorted_from (ks acc : list Z) :
  Forall isDigit ks -> Forall isDigit acc ->
  NoDup (ks ++ acc) -> StronglySorted Z.lt acc ->
  StronglySorted Z.lt
    (fold_left (fun sorted k => insertByString k sorted) ks acc).
Proof.
  revert acc. induction ks as [|k rest IH]; intros acc Hk Ha ND Hs; simpl;
    [exact Hs|].
  inversion Hk as [|? ? Hk1 Hk2]; subst.
  simpl in ND. inversion ND as [|? ? Hn ND']; subst.
  assert (~ In k acc) as Hna by (intros C; apply Hn; apply in_or_app; now right).
  apply IH; auto.
  - rewrite Forall_forall in *. intros x Hx.
    apply (Permutation_in _ (insertByString_perm k acc)) in Hx.
    destruct Hx as [<-|Hx]; auto.
  - eapply Permutation_NoDup; [|exact ND].
    apply Permutation_sym.
    eapply Permutation_trans;
      [apply Permutation_app_head; apply insertByString_perm|].
    apply Permutation_sym. apply Permutation_middle.
  - now apply insertByString_sorted.
Qed.

(** X16. If every group index of the "more" dataset is a single digit
    (0 to 9), the columns of the panel appear in strictly ascending order of
    their group index. *)
Theorem single_digit_groups_ascending (items : list DropdownItem)
  (groups : list (Z * list DropdownItem)) (placeholders : nat) :
  renderDropdownContent more items = MoreGroups groups placeholders ->
  (forall item k, In item items -> isMoreLink item = true ->
                  group item = Some k -> (0 <= k <= 9)%Z) ->
  StronglySorted Z.lt (map fst groups).
Proof.
  intros E Hd. unfold renderDropdownContent in E.
  set (moreItems := filter isMoreLink items) in *.
  set (keys := defaultSort (objectKeys (groupItems moreItems))) in *.
  destruct (List.length moreItems =? 0)%nat; [discriminate|].
  injection E as <- _. rewrite map_map. simpl. rewrite map_id.
  destruct (more_groups_shape items) as (ND & K & _).
  fold moreItems in ND, K. fold keys in ND, K.
  pose proof (objectKeys_perm (groupItems moreItems)) as P1.
  pose proof (defaultSort_perm (objectKeys (groupItems moreItems))) as P2.
  fold keys in P2.
  assert (Forall isDigit (objectKeys (groupItems moreItems))) as D.
  { apply Forall_forall. intros k Hk.
    apply (Permutation_in _ (Permutation_sym P2)) in Hk.
    apply K in Hk. destruct Hk as [item [Hin G]].
    apply filter_In in Hin as [Hin Hm]. apply (Hd item k Hin Hm G). }
  unfold keys, defaultSort. apply defaultSort_sorted_from.
  - exact D.
  - constructor.
  - rewrite app_nil_r. apply (Permutation_NoDup P2 ND).
  - constructor.
Qed.

End DropdownOrder.

(* ================================================================== *)
(** * Further facts: the mobile drawer *)

Section MobileDrawer.

Import Js Mobile MobileMenu.

Variable mobileMenuItems : list MobileNavItemData.
Variable motorbikesDropdownItems : list Dropdown.DropdownItem.
Variable scootersDropdownItems : list Dropdown.DropdownItem.
Variable moreDropdownItems : list Dropdown.DropdownItem.

Local Abbreviation getSubmenuItems :=
  (getSubmenuItemsForCategory motorbikesDropdownItems scootersDropdownItems
     moreDropdownItems).
Local Abbreviation click :=
  (handleMobileItemClick motorbikesDropdownItems scootersDropdownItems
     moreDropdownItems).
Local Abbreviation visible := (currentMobileNavItems mobileMenuItems).
Local Abbreviation reachable :=
  (Reachable mobileMenuItems motorbikesDropdownItems scootersDropdownItems
     moreDropdownItems).

(** X17. The category-to-submenu mapping looks at the category label without
    regard to letter case, yields one entry per item of the dataset it
    selects, in dataset order and with the same labels and URLs, and yields
    the empty list for any label other than the three categories. *)
Theorem submenu_mapping_keeps_items (categoryLabel : string) :
  let source :=
    if toLowerCase categoryLabel =? "motorbikes" then motorbikesDropdownItems
    else if toLowerCase categoryLabel =? "scooters" then scootersDropdownItems
    else if toLowerCase categoryLabel =? "more" then moreDropdownItems
    else [] in
  getSubmenuItems categoryLabel = getSubmenuItems (toLowerCase categoryLabel) /\
  map label (getSubmenuItems categoryLabel) = map Dropdown.label source /\
  map url (getSubmenuItems categoryLabel) = map Dropdown.url source /\
  List.length (getSubmenuItems categoryLabel) = List.length source.
Proof.
  unfold getSubmenuItemsForCategory. rewrite toLowerCase_idem.
  destruct (_ =? "motorbikes"); [|destruct (_ =? "scooters");
    [|destruct (_ =? "more")]];
    rewrite ?map_map, ?length_map; simpl; auto.
Qed.

(** X18. A row of the drawer never shows the empty icon wrapper: it shows
    either no icon place at all or a glyph.  Entries mapped from a model
    show the forward chevron, entries mapped from a link and all entries of
    the "more" category show the outward arrow. *)
Theorem row_icons :
  (forall item, rowIcon item <> EmptySlot) /\
  (forall d,
     rowIcon (mapSourceItem d) =
     match Dropdown.type d with
     | Dropdown.model => Glyph "arrow_forward_ios" "text-lg"
     | Dropdown.link => Glyph "arrow_outward" "text-xl"
     end) /\
  (forall d, rowIcon (mapMoreItem d) = Glyph "arrow_outward" "text-xl") /\
  (forall categoryLabel item,
     In item (getSubmenuItems categoryLabel) ->
     rowIcon item = Glyph "arrow_forward_ios" "text-lg" \/
     rowIcon item = Glyph "arrow_outward" "text-xl").
Proof.
  split; [|split; [|split]].
  - intros item. unfold rowIcon, renderIcon.
    destruct (icon item) as [[]|]; destruct (flag (hasChildren item));
      simpl; discriminate.
  - intros d. unfold rowIcon, renderIcon, mapSourceItem. simpl.
    destruct (Dropdown.type d); reflexivity.
  - reflexivity.
  - intros c item. unfold getSubmenuItemsForCategory.
    destruct (_ =? "motorbikes"); [|destruct (_ =? "scooters");
      [|destruct (_ =? "more")]]; try contradiction;
      intros Hin; apply in_map_iff in Hin as [d [<- _]];
      unfold rowIcon, renderIcon, mapSourceItem, mapMoreItem; simpl;
      try destruct (Dropdown.type d); auto.
Qed.

(** X19. Selecting a category (an item with children and a non-empty label)
    lists its mapped children, keeps the drawer's open flag, schedules
    nothing and navigates nowhere; the back action then lists the root
    items again, still without touching the open flag; and selecting the
    same category once more gives exactly the state of the first
    selection. *)
Theorem drill_down_and_back (category : MobileNavItemData) (s : State) :
  flag (hasChildren category) = true -> flag (back category) = false ->
  label category <> "" ->
  let s1 := click category s in
  let s2 := click backItem s1 in
  (visible s1 = getSubmenuItems (label category) /\
   mobileMenuOpen s1 = mobileMenuOpen s /\
   timers s1 = timers s /\ navigated s1 = navigated s) /\
  (visible s2 = mobileMenuItems /\
   mobileMenuOpen s2 = mobileMenuOpen s /\
   timers s2 = timers s /\ navigated s2 = navigated s) /\
  click category s2 = s1.
Proof.
  intros Hc Hb Hl s1 s2. unfold s2, s1, handleMobileItemClick.
  rewrite Hb, Hc. simpl. unfold currentMobileNavItems. simpl.
  rewrite (truthy_true Hl). auto 10.
Qed.

(** X20. The toggle flips the open flag.  Opening changes nothing else: the
    active category and its items are kept and nothing is scheduled.
    Closing keeps them too for the moment; if no other callback is pending
    they are untouched while less than 300 ms have passed and cleared once
    300 ms have passed, without any navigation. *)
Theorem toggle_opens_and_closes (s : State) :
  mobileMenuOpen (handleMenuToggle s) = negb (mobileMenuOpen s) /\
  activeSubmenu (handleMenuToggle s) = activeSubmenu s /\
  submenuItems (handleMenuToggle s) = submenuItems s /\
  navigated (handleMenuToggle s) = navigated s /\
  (mobileMenuOpen s = false -> timers (handleMenuToggle s) = timers s) /\
  (mobileMenuOpen s = true -> timers s = [] -> mounted s = true ->
   (forall dt, dt < 300 ->
      activeSubmenu (advance dt (handleMenuToggle s)) = activeSubmenu s /\
      submenuItems (advance dt (handleMenuToggle s)) = submenuItems s) /\
   (forall dt, 300 <= dt ->
      mobileMenuOpen (advance dt (handleMenuToggle s)) = false /\
      activeSubmenu (advance dt (handleMenuToggle s)) = "" /\
      submenuItems (advance dt (handleMenuToggle s)) = [] /\
      navigated (advance dt (handleMenuToggle s)) = navigated s /\
      timers (advance dt (handleMenuToggle s)) = [])).
Proof.
  do 4 (split; [unfold handleMenuToggle; destruct (mobileMenuOpen s);
                reflexivity|]). split.
  - intros E. unfold handleMenuToggle. rewrite E. reflexivity.
  - intros Ho Ht Hm.
    assert (handleMenuToggle s =
            later ResetSubmenu 300 (setMobileMenuOpen false s)) as Eh
      by (unfold handleMenuToggle; rewrite Ho; reflexivity).
    rewrite Eh.
    assert (timers (later ResetSubmenu 300 (setMobileMenuOpen false s)) =
            [mkTimer (nextTimerId s) (now s + 300) ResetSubmenu]) as T
      by (simpl; rewrite Ht; reflexivity).
    split; intros dt Hd; rewrite (@advance_single _ dt _ T); simpl.
    + destruct (Nat.leb_spec (now s + 300) (now s + dt)); [lia|]. auto.
    + destruct (Nat.leb_spec (now s + 300) (now s + dt)); [|lia].
      unfold resetSubmenu. simpl. rewrite Hm. simpl. auto.
Qed.

(** X21. The reset scheduled by closing the drawer is not cancelled by
    opening it again.  If the drawer is closed, reopened within 300 ms and a
    category is selected, then as soon as 300 ms have passed since the
    closing the drawer, still open, is back on the root list. *)
Theorem reopening_within_delay_is_reset (category : MobileNavItemData)
  (s : State) (d1 d2 : nat) :
  mobileMenuOpen s = true -> timers s = [] -> mounted s = true ->
  flag (hasChildren category) = true -> flag (back category) = false ->
  label category <> "" ->
  d1 < 300 -> 300 <= d1 + d2 ->
  let reopened := handleMenuToggle (advance d1 (handleMenuToggle s)) in
  let drilled := click category reopened in
  mobileMenuOpen reopened = true /\
  (mobileMenuOpen drilled = true /\
   visible drilled = getSubmenuItems (label category)) /\
  (mobileMenuOpen (advance d2 drilled) = true /\
   activeSubmenu (advance d2 drilled) = "" /\
   visible (advance d2 drilled) = mobileMenuItems).
Proof.
  intros Ho Ht Hm Hc Hb Hl H1 H2 reopened drilled.
  assert (timers (handleMenuToggle s) =
          [mkTimer (nextTimerId s) (now s + 300) ResetSubmenu]) as T
    by (unfold handleMenuToggle; rewrite Ho; simpl; rewrite Ht; reflexivity).
  assert (reopened =
          mkState true (activeSubmenu s) (submenuItems s)
            [mkTimer (nextTimerId s) (now s + 300) ResetSubmenu]
            (S (nextTimerId s)) (now s + d1) (navigated s) (mounted s)) as Er.
  { assert (handleMenuToggle s =
            later ResetSubmenu 300 (setMobileMenuOpen false s)) as Eh
      by (unfold handleMenuToggle; rewrite Ho; reflexivity).
    unfold reopened. rewrite (@advance_single _ d1 _ T). rewrite Eh. simpl.
    destruct (Nat.leb_spec (now s + 300) (now s + d1)); [lia|].
    reflexivity. }
  assert (drilled =
          mkState true (label category) (getSubmenuItems (label category))
            [mkTimer (nextTimerId s) (now s + 300) ResetSubmenu]
            (S (nextTimerId s)) (now s + d1) (navigated s) (mounted s)) as Ed
    by (unfold drilled, handleMobileItemClick; rewrite Hb, Hc, Er; reflexivity).
  split; [rewrite Er; reflexivity|]. split.
  - rewrite Ed. unfold currentMobileNavItems. simpl.
    rewrite (truthy_true Hl). auto.
  - rewrite (@advance_single (mkTimer (nextTimerId s) (now s + 300) ResetSubmenu)
               d2 drilled) by (rewrite Ed; reflexivity).
    rewrite Ed. simpl.
    destruct (Nat.leb_spec (now s + 300) (now s + d1 + d2)); [|lia].
    unfold resetSubmenu, currentMobileNavItems. simpl. rewrite Hm. simpl. auto.
Qed.

Lemma runAll_guard (fired : list (Timer TimerAction)) (s : State) :
  Guards.mobile s -> Guards.mobile (runAll fired s).
Proof.
  revert s. induction fired as [|t rest IH]; intros s G; simpl; [exact G|].
  apply IH. unfold Guards.mobile in *.
  destruct (act t) as [|u]; simpl; unfold resetSubmenu.
  - destruct (mounted s); exact G.
  - destruct (realUrl u) as [x|] eqn:U; destruct (mounted s); simpl;
      try exact G; (apply Forall_app; split; [exact G|];
      constructor; [apply (realUrl_ok _ U) | constructor]).
Qed.

(** X22. Whatever is toggled, clicked or waited for, MobileNavigation never
    calls [onNavigate] with the empty string or with the placeholder
    ["#"]. *)
Theorem mobile_never_navigates_to_placeholder (s : State) :
  reachable s -> Forall okUrl (navigated s).
Proof.
  intros R. change (Guards.mobile s).
  induction R as [|s _ IH|s item _ IH Hin|s _ IH Hs|s dt _ IH].
  - constructor.
  - unfold handleMenuToggle. destruct (mobileMenuOpen s); exact IH.
  - unfold handleMobileItemClick.
    destruct (flag (back item)); [exact IH|].
    destruct (flag (hasChildren item)); exact IH.
  - exact IH.
  - unfold advance. apply runAll_guard. exact IH.
Qed.

(** X23. Escape closes the drawer exactly when it is open.  While a category
    is active the bottom button reads "Back" and goes back to the root list
    without closing the drawer; one more press, now reading "Close", closes
    it.  With no category active the bottom button is the close action. *)
Theorem drawer_escape_and_bottom_button (s : State) :
  (mobileMenuOpen s = false -> escapeKey s = s) /\
  (mobileMenuOpen s = true -> escapeKey s = handleMenuToggle s /\
                              mobileMenuOpen (escapeKey s) = false) /\
  (activeSubmenu s = "" ->
   bottomButtonText s = "Close" /\
   bottomButton motorbikesDropdownItems scootersDropdownItems
     moreDropdownItems s = handleMenuToggle s) /\
  (activeSubmenu s <> "" ->
   let s1 := bottomButton motorbikesDropdownItems scootersDropdownItems
               moreDropdownItems s in
   bottomButtonText s = "Back" /\ bottomButtonText s1 = "Close" /\
   mobileMenuOpen s1 = mobileMenuOpen s /\
   visible s1 = mobileMenuItems /\
   timers s1 = timers s /\
   mobileMenuOpen
     (bottomButton motorbikesDropdownItems scootersDropdownItems
        moreDropdownItems s1) = negb (mobileMenuOpen s)).
Proof.
  unfold escapeKey, bottomButton, bottomButtonText.
  split; [intros ->; reflexivity|].
  split; [intros E; rewrite E; unfold handleMenuToggle; rewrite E; auto|].
  split; [intros ->; auto|].
  intros Hs. rewrite (truthy_true Hs). simpl.
  unfold currentMobileNavItems, handleMenuToggle. simpl.
  destruct (mobileMenuOpen s); auto 10.
Qed.

End MobileDrawer.

(* ================================================================== *)
(** * Further facts: the close timer of DesktopNavigation.tsx *)

Section DesktopLeave.

Import Js Desktop DesktopInv.

Variable items : list DesktopNavItemData.

Lemma runAll_stays_closed (fired : list (Timer TimerAction)) (s : State) :
  activeDropdown s = "" -> activeDropdown (runAll items fired s) = "".
Proof.
  revert s. induction fired as [|t rest IH]; intros s E; simpl; [exact E|].
  apply IH. destruct (runTimerAction_active items (act t) s) as [H|[_ H]];
    congruence.
Qed.

Lemma runAll_closes (fired : list (Timer TimerAction)) (s : State)
  (t : Timer TimerAction) :
  In t fired -> closes (act t) = true -> mounted s = true ->
  activeDropdown (runAll items fired s) = "".
Proof.
  revert s. induction fired as [|u rest IH]; intros s Hin Hc Hm;
    [contradiction|]. simpl. destruct Hin as [->|Hin].
  - apply runAll_stays_closed. unfold closes in Hc.
    destruct (act t) as [[] []| | |]; try discriminate. simpl.
    unfold setActiveDropdownIfMounted. rewrite Hm. reflexivity.
  - apply IH; auto.
    pose proof (runTimerAction_frame items (act u) s) as F. simpl in F.
    destruct F as (_ & _ & _ & _ & _ & _ & F). congruence.
Qed.

(** X24. The close timer armed by the first leave after a hover never closes
    anything: its callback holds the hover flag of the render in which the
    pointer was still over the entry.  For every reachable state and every
    submenu owner, after hover and one leave the owner's submenu is still
    open however much time passes. *)
Theorem leave_after_hover_keeps_submenu (item : DesktopNavItemData)
  (s : State) (dt : nat) :
  Reachable items s -> hasDropdown item = true ->
  let left := handleItemLeave (handleItemHover item s) in
  isHoveringNavItem left = false /\
  closeTimers left =
    [mkTimer (nextTimerId s) (now s + 250)
       (CloseIfNotHovering true (isHoveringDropdown s))] /\
  activeDropdown (advance items dt left) = dropdownKey item.
Proof.
  intros R Hown left.
  assert (Reachable items (handleItemHover item s)) as R1
    by apply (reach_step (ItemHover item) R).
  pose proof (Reachable_Inv R1) as I1.
  pose proof (closeTimers_handleItemLeave I1) as C. fold left in C.
  simpl in C. split; [reflexivity|]. split; [exact C|].
  destruct (advance_active items dt left) as [E|[[t (Ht & _ & Hc)] _]].
  - rewrite E. unfold left, handleItemLeave, handleItemHover, dropdownKey.
    simpl. rewrite Hown. reflexivity.
  - exfalso. assert (In t (closeTimers left)) as Hin.
    { unfold closeTimers. apply filter_In. split; [exact Ht|].
      now apply closes_isCloseTimer. }
    rewrite C in Hin. destruct Hin as [<-|[]]. simpl in Hc. discriminate.
Qed.

(** X25. Two leave events in a row, the second handled by the render that
    follows the first, do close: if the pointer is not over the panel, then
    250 ms after the second leave no submenu is active, in every reachable
    state. *)
Theorem second_leave_closes (s : State) (dt : nat) :
  Reachable items s -> isHoveringDropdown s = false -> 250 <= dt ->
  activeDropdown
    (advance items dt (handleItemLeave (handleItemLeave s))) = "".
Proof.
  intros R Hd Hdt.
  assert (Reachable items (handleItemLeave s)) as R1
    by apply (reach_step ItemLeave R).
  assert (Reachable items (handleItemLeave (handleItemLeave s))) as R2
    by apply (reach_step ItemLeave R1).
  pose proof (Reachable_Inv R1) as I1. pose proof (Reachable_Inv R2) as I2.
  pose proof (closeTimers_handleItemLeave I1) as C. simpl in C.
  rewrite Hd in C.
  set (s2 := handleItemLeave (handleItemLeave s)) in *.
  set (t := mkTimer (nextTimerId (handleItemLeave s)) (now s + 250)
              (CloseIfNotHovering false false)) in *.
  assert (In t (timers s2)) as Ht.
  { assert (In t (closeTimers s2)) as H by (rewrite C; now left).
    unfold closeTimers in H. apply filter_In in H. tauto. }
  unfold advance. apply (@runAll_closes _ _ t).
  - apply In_dueTimers. split; [exact Ht|]. simpl. lia.
  - reflexivity.
  - simpl. apply (inv_mounted I2).
Qed.

End DesktopLeave.

(* ================================================================== *)
(** * Further facts: NavigationContainer.tsx *)

Section ContainerController.

Import Js Container.

Variable showDropdowns : bool.
Variable desktopMenuItems : list Desktop.DesktopNavItemData.
Variable mobileMenuItems : list Mobile.MobileNavItemData.
Variable motorbikesDropdownItems : list Dropdown.DropdownItem.
Variable scootersDropdownItems : list Dropdown.DropdownItem.
Variable moreDropdownItems : list Dropdown.DropdownItem.

Local Abbreviation reachable :=
  (Reachable showDropdowns desktopMenuItems motorbikesDropdownItems
     scootersDropdownItems moreDropdownItems).
Lemma runAll_container_active (fired : list (Timer TimerAction)) (s : State) :
  activeDropdown (runAll fired s) = activeDropdown s \/
  activeDropdown (runAll fired s) = "".
Proof.
  revert s. induction fired as [|t rest IH]; intros s; simpl; [auto|].
  destruct (IH (runTimerAction (act t) s)) as [E|E]; [|auto].
  rewrite E. destruct (act t) as [n d]; simpl.
  destruct (negb n && negb d && mounted s); simpl; auto.
Qed.

Lemma Reachable_single s :
  reachable s ->
  timers s = [] \/
  exists t, timers s = [t] /\ mouseLeaveTimeoutRef s = Some (tid t).
Proof.
  induction 1 as [|s e R IH]; [left; reflexivity|].
  pose proof (clearTimeout_named _ (Reachable_named R)) as Cl.
  assert (forall r s0, timers s0 = timers s ->
            mouseLeaveTimeoutRef s0 = mouseLeaveTimeoutRef s ->
            exists t, timers (startCloseTimer r s0) = [t] /\
              mouseLeaveTimeoutRef (startCloseTimer r s0) = Some (tid t))
    as Start.
  { intros r s0 E1 E2. unfold startCloseTimer. simpl. rewrite E1, E2, Cl.
    simpl. eexists. split; reflexivity. }
  assert (forall s0, timers s0 = timers s ->
            mouseLeaveTimeoutRef s0 = mouseLeaveTimeoutRef s ->
            timers (clearCloseTimer s0) = []) as Clear.
  { intros s0 E1 E2. unfold clearCloseTimer. simpl. rewrite E1, E2. exact Cl. }
  destruct e; simpl.
  - unfold handleItemHover. destruct (isMobile s || negb showDropdowns);
      [exact IH|]. left. simpl. apply (Clear (setIsHoveringNav true s));
      reflexivity.
  - unfold handleNavLeave. destruct (negb (isMobile s)); [|exact IH].
    right. apply Start; reflexivity.
  - unfold handleDropdownEnter. destruct (negb (isMobile s)); [|exact IH].
    left. apply Clear; reflexivity.
  - unfold handleDropdownLeave. destruct (negb (isMobile s)); [|exact IH].
    right. apply Start; reflexivity.
  - unfold handleDesktopItemClick. destruct (isMobile s); [exact IH|].
    destruct (negb (Desktop.hasDropdown item) || negb showDropdowns).
    + destruct (Desktop.url item) as [u|]; [destruct (truthy u)|]; exact IH.
    + left. apply Clear; reflexivity.
  - unfold handleDropdownItemClick.
    destruct itemUrl as [u|]; [destruct (truthy u)|]; exact IH.
  - unfold handleMenuToggle. destruct (mobileMenuOpen s); exact IH.
  - unfold handleMobileItemClick.
    destruct (flag (Mobile.back item)); [exact IH|].
    destruct (flag (Mobile.hasChildren item)); [exact IH|].
    destruct (Mobile.url item) as [u|]; [destruct (truthy u)|]; exact IH.
  - unfold handleMediaChange. destruct (Bool.eqb matches (isMobile s));
      [exact IH|]. destruct (negb matches); exact IH.
  - unfold advance.
    match goal with
    | |- context [runAll ?f ?x] =>
        destruct (runAll_frame_container f x) as (b & c & _)
    end.
    rewrite b, c. simpl. unfold laterTimers.
    destruct IH as [E|[t [E Er]]]; rewrite E; simpl; [auto|].
    destruct (negb (isDue (now s + dt) t)); [right; exists t|left]; auto.
Qed.

(** X26. In NavigationContainer at most one timer is ever in the timer
    table, and it is the one named by the ref: arming replaces, it never
    stacks.  On the desktop layout, entering the panel leaves the table
    empty, so that however much time passes afterwards the active dropdown
    stays as it is. *)
Theorem container_single_timer (s : State) :
  reachable s ->
  List.length (timers s) <= 1 /\
  (forall t, In t (timers s) -> mouseLeaveTimeoutRef s = Some (tid t)) /\
  (isMobile s = false ->
   timers (handleDropdownEnter s) = [] /\
   forall dt,
     activeDropdown (advance dt (handleDropdownEnter s)) = activeDropdown s).
Proof.
  intros R. split; [|split].
  - destruct (Reachable_single R) as [E|[t [E _]]]; rewrite E; simpl; lia.
  - apply (Reachable_named R).
  - intros Hm.
    assert (timers (handleDropdownEnter s) = []) as E.
    { unfold handleDropdownEnter. rewrite Hm. simpl.
      apply clearTimeout_named. apply (Reachable_named R). }
    split; [exact E|]. intros dt. unfold advance, dueTimers, laterTimers.
    rewrite E. simpl. unfold handleDropdownEnter. rewrite Hm. reflexivity.
Qed.

(** X27. With [showDropdowns = false] NavigationContainer never has an
    active dropdown: hovering returns early and every click takes the plain
    branch, which clears the selection. *)
Theorem container_dropdowns_switched_off (s : State) :
  reachable s -> showDropdowns = false -> activeDropdown s = "".
Proof.
  intros R D. induction R as [|s e R IH]; [reflexivity|].
  destruct e; simpl.
  - unfold handleItemHover. rewrite D. simpl. rewrite orb_true_r. exact IH.
  - unfold handleNavLeave. destruct (negb (isMobile s)); exact IH.
  - unfold handleDropdownEnter. destruct (negb (isMobile s)); exact IH.
  - unfold handleDropdownLeave. destruct (negb (isMobile s)); exact IH.
  - unfold handleDesktopItemClick. rewrite D. simpl. rewrite orb_true_r.
    destruct (isMobile s); [exact IH|].
    destruct (Desktop.url item) as [u|]; [destruct (truthy u)|]; reflexivity.
  - unfold handleDropdownItemClick.
    destruct itemUrl as [u|]; [destruct (truthy u)|]; reflexivity.
  - unfold handleMenuToggle. destruct (mobileMenuOpen s); exact IH.
  - unfold handleMobileItemClick.
    destruct (flag (Mobile.back item)); [exact IH|].
    destruct (flag (Mobile.hasChildren item)); [exact IH|].
    destruct (Mobile.url item) as [u|]; [destruct (truthy u)|]; exact IH.
  - unfold handleMediaChange.
    destruct (Bool.eqb matches (isMobile s)); [exact IH|].
    destruct (negb matches); [exact IH | reflexivity].
  - unfold advance.
    match goal with
    | |- context [runAll ?f ?x] =>
        destruct (runAll_container_active f x) as [E|E]
    end; rewrite E; [exact IH | reflexivity].
Qed.

(** X28. In NavigationContainer a leaf selection does everything in the same
    step: the drawer is closed, category and submenu items are cleared,
    nothing is scheduled, and [onNavigate] is called with the item's URL
    whenever the URL is a non-empty string, the placeholder ["#"]
    included. *)
Theorem container_leaf_selection (item : Mobile.MobileNavItemData)
  (r : State) :
  flag (Mobile.hasChildren item) = false -> flag (Mobile.back item) = false ->
  let s1 := handleMobileItemClick motorbikesDropdownItems
              scootersDropdownItems moreDropdownItems item r in
  mobileMenuOpen s1 = false /\ activeSubmenu s1 = "" /\
  submenuItems s1 = [] /\ timers s1 = timers r /\
  navigated s1 =
    navigated r ++ match Mobile.url item with
                   | Some u => if truthy u then [u] else []
                   | None => []
                   end /\
  (Mobile.url item = Some "#" -> navigated s1 = navigated r ++ ["#"]).
Proof.
  intros Hc Hb s1. unfold s1, handleMobileItemClick. rewrite Hb, Hc.
  destruct (Mobile.url item) as [u|]; [destruct (truthy u) eqn:T|]; simpl;
    rewrite ?app_nil_r; do 5 (split; [reflexivity|]); intros E;
    try discriminate E; injection E as ->; try reflexivity.
  discriminate T.
Qed.

End ContainerController.

(* ================================================================== *)
(** * The further facts on the example configurations *)

Lemma enter_space_on_owner_witness :
  Desktop.hasDropdown Scenario.entryA = true /\
  Desktop.activeDropdown
    (Desktop.handleItemKeyDown Scenario.entries Scenario.entryA
       Desktop.Enter Desktop.initialState) = "motorbikes".
Proof.
  split; [reflexivity|].
  exact (proj1 (@enter_space_on_owner Scenario.entries Scenario.entryA
                  Desktop.Enter Desktop.initialState
                  (or_introl eq_refl) eq_refl)).
Defined.

Lemma enter_space_on_plain_entry_witness :
  Desktop.hasDropdown Scenario.entryB = false /\
  Desktop.navigated
    (Desktop.handleItemKeyDown Scenario.entries Scenario.entryB
       Desktop.Space Desktop.initialState) = ["#contact"].
Proof.
  split; [reflexivity|].
  exact (proj1 (@enter_space_on_plain_entry Scenario.entries Scenario.entryB
                  Desktop.Space Desktop.initialState
                  (or_intror eq_refl) eq_refl)).
Defined.

Lemma strip_arrows_stay_in_range_witness :
  Desktop.handleItemKeyDown [] Scenario.entryA Desktop.ArrowLeft
    Desktop.initialState = Desktop.initialState /\
  exists k, k < 2 /\
    Desktop.handleItemKeyDown Scenario.entries Scenario.entryMore
      Desktop.ArrowLeft Desktop.initialState =
    Desktop.later (Desktop.FocusLater (Desktop.ItemRef k)) 0
      Desktop.initialState.
Proof.
  split.
  - exact (proj1 (@strip_arrows_stay_in_range [] Scenario.entryA
                    Desktop.ArrowLeft Desktop.initialState
                    (or_introl eq_refl)) eq_refl).
  - apply (proj1 (proj2 (@strip_arrows_stay_in_range Scenario.entries
                    Scenario.entryMore Desktop.ArrowLeft Desktop.initialState
                    (or_introl eq_refl)))).
    discriminate.
Defined.

Lemma dropdown_item_click_defers_navigation_witness :
  let r := Desktop.handleItemHover Scenario.entryA Desktop.initialState in
  let s1 := Desktop.handleDropdownItemClick (Some "#km5000") r in
  Desktop.timers r = [] /\
  Desktop.navigated (Desktop.advance Scenario.entries 599 s1) = [] /\
  Desktop.navigated (Desktop.advance Scenario.entries 600 s1) = ["#km5000"].
Proof.
  intros r s1.
  destruct (@dropdown_item_click_defers_navigation Scenario.entries
              (Some "#km5000") r eq_refl) as (_ & Before & After).
  split; [reflexivity|]. split.
  - exact (proj1 (Before 599 ltac:(lia))).
  - exact (proj1 (After 600 ltac:(lia))).
Defined.

Lemma plain_entry_click_witness :
  let r := Desktop.handleItemHover Scenario.entryA Desktop.initialState in
  Desktop.hasDropdown Scenario.entryB = false /\
  Desktop.activeDropdown
    (Desktop.handleDesktopItemClick Scenario.entries Scenario.entryB r) = "".
Proof.
  intros r. split; [reflexivity|].
  exact (proj1 (@plain_entry_click Scenario.entries Scenario.entryB r
                  eq_refl)).
Defined.

Lemma desktop_never_navigates_to_placeholder_witness :
  let s := Desktop.run Scenario.entries
             [Desktop.ItemClick Scenario.entryB;
              Desktop.DropdownItemClick (Some "#");
              Desktop.Advance 600] Desktop.initialState in
  Desktop.Reachable Scenario.entries s /\
  Desktop.navigated s = ["#contact"] /\
  Forall okUrl (Desktop.navigated s).
Proof.
  intros s.
  assert (Desktop.Reachable Scenario.entries s) as R
    by (apply Reachable_run; constructor).
  split; [exact R|]. split; [reflexivity|].
  exact (desktop_never_navigates_to_placeholder R).
Defined.


Lemma hover_aria_and_panel_witness :
  let s1 := Desktop.handleItemHover Scenario.entryA Desktop.initialState in
  Desktop.hasDropdown Scenario.entryA = true /\
  NavBar.ariaExpanded
    (DesktopRender.anchorOf "nav" (fun label => label) "" s1 Scenario.entryA)
  = Some true.
Proof.
  intros s1. split; [reflexivity|].
  exact (proj1 (@hover_aria_and_panel "nav" (fun label => label)
                  Scenario.entries "" Scenario.entryA Scenario.entryB
                  Desktop.initialState eq_refl)).
Defined.

Lemma models_and_links_partition_witness :
  Scenario.motorbikesDropdownItems <> [] /\
  Dropdown.renderDropdownContent Dropdown.motorbikes
    Scenario.motorbikesDropdownItems =
  Dropdown.ModelsAndLinks
    (filter Dropdown.isModel Scenario.motorbikesDropdownItems)
    (filter Dropdown.isLink Scenario.motorbikesDropdownItems).
Proof.
  assert (Scenario.motorbikesDropdownItems <> []) as N by discriminate.
  split; [exact N|].
  exact (proj1 (proj2 (@models_and_links_partition Dropdown.motorbikes
                         Scenario.motorbikesDropdownItems
                         (or_introl eq_refl))) N).
Defined.

Lemma single_digit_groups_ascending_witness :
  exists groups placeholders,
    Dropdown.renderDropdownContent Dropdown.more Scenario.moreInterleaved =
    Dropdown.MoreGroups groups placeholders /\
    map fst groups = [0%Z; 1%Z] /\
    StronglySorted Z.lt (map fst groups).
Proof.
  eexists. eexists. split; [reflexivity|]. split; [reflexivity|].
  apply (@single_digit_groups_ascending Scenario.moreInterleaved _ _ eq_refl).
  intros item k Hin _ Hg. simpl in Hin.
  repeat (destruct Hin as [<-|Hin]; [injection Hg as <-; lia|]).
  contradiction.
Defined.

Lemma drill_down_and_back_witness :
  let category := Scenario.rootItem "More" true Mobile.moreIcon in
  let click :=
    Mobile.handleMobileItemClick Scenario.motorbikesDropdownItems
      Scenario.scootersDropdownItems Scenario.moreDropdownItems in
  let s := Mobile.handleMenuToggle Mobile.initialState in
  (Js.flag (Mobile.hasChildren category) = true /\
   Js.flag (Mobile.back category) = false /\
   Mobile.label category <> "") /\
  Mobile.currentMobileNavItems Scenario.mobileMenuItems
    (click Mobile.backItem (click category s)) = Scenario.mobileMenuItems /\
  click category (click Mobile.backItem (click category s)) =
  click category s.
Proof.
  intros category click s.
  assert (Mobile.label category <> "") as N by discriminate.
  destruct (@drill_down_and_back Scenario.mobileMenuItems
              Scenario.motorbikesDropdownItems Scenario.scootersDropdownItems
              Scenario.moreDropdownItems category s eq_refl eq_refl N)
    as (_ & (V & _) & E).
  split; [split; [reflexivity|split; [reflexivity|exact N]]|].
  split; [exact V | exact E].
Defined.

Lemma reopening_within_delay_is_reset_witness :
  let category := Scenario.rootItem "More" true Mobile.moreIcon in
  let click :=
    Mobile.handleMobileItemClick Scenario.motorbikesDropdownItems
      Scenario.scootersDropdownItems Scenario.moreDropdownItems in
  let s := Mobile.handleMenuToggle Mobile.initialState in
  let drilled :=
    click category
      (Mobile.handleMenuToggle
         (Mobile.advance 100 (Mobile.handleMenuToggle s))) in
  (Mobile.mobileMenuOpen s = true /\ Mobile.timers s = [] /\
   Mobile.mounted s = true) /\
  Mobile.activeSubmenu drilled = "More" /\
  Mobile.mobileMenuOpen (Mobile.advance 200 drilled) = true /\
  Mobile.activeSubmenu (Mobile.advance 200 drilled) = "".
Proof.
  intros category click s drilled.
  assert (Mobile.label category <> "") as N by discriminate.
  destruct (@reopening_within_delay_is_reset Scenario.mobileMenuItems
              Scenario.motorbikesDropdownItems Scenario.scootersDropdownItems
              Scenario.moreDropdownItems category s 100 200
              eq_refl eq_refl eq_refl eq_refl eq_refl N
              ltac:(lia) ltac:(lia))
    as (_ & _ & (O & A & _)).
  split; [split; [reflexivity|split; reflexivity]|].
  split; [reflexivity|]. split; [exact O | exact A].
Defined.

Lemma mobile_never_navigates_to_placeholder_witness :
  let reachable :=
    Mobile.Reachable Scenario.mobileMenuItems
      Scenario.motorbikesDropdownItems Scenario.scootersDropdownItems
      Scenario.moreDropdownItems in
  let click :=
    Mobile.handleMobileItemClick Scenario.motorbikesDropdownItems
      Scenario.scootersDropdownItems Scenario.moreDropdownItems in
  let s :=
    Mobile.advance 300
      (click (Scenario.rootItem "Fleet" false Mobile.right)
         (Mobile.handleMenuToggle Mobile.initialState)) in
  reachable s /\ Mobile.navigated s = [] /\
  Forall okUrl (Mobile.navigated s).
Proof.
  intros reachable click s.
  assert (reachable s) as R.
  { apply Mobile.reach_advance. apply Mobile.reach_item.
    - apply Mobile.reach_toggle. apply Mobile.reach_init.
    - simpl. tauto. }
  split; [exact R|]. split; [reflexivity|].
  exact (mobile_never_navigates_to_placeholder R).
Defined.

Lemma leave_after_hover_keeps_submenu_witness :
  Desktop.Reachable Scenario.entries Desktop.initialState /\
  Desktop.hasDropdown Scenario.entryA = true /\
  Desktop.activeDropdown
    (Desktop.advance Scenario.entries 1000
       (Desktop.handleItemLeave
          (Desktop.handleItemHover Scenario.entryA Desktop.initialState)))
  = "motorbikes".
Proof.
  split; [constructor|]. split; [reflexivity|].
  exact (proj2 (proj2 (@leave_after_hover_keeps_submenu Scenario.entries
                         Scenario.entryA Desktop.initialState 1000
                         (Desktop.reach_init _) eq_refl))).
Defined.

Lemma second_leave_closes_witness :
  let s := Desktop.run Scenario.entries
             [Desktop.ItemHover Scenario.entryA] Desktop.initialState in
  Desktop.Reachable Scenario.entries s /\
  Desktop.isHoveringDropdown s = false /\
  Desktop.activeDropdown s = "motorbikes" /\
  Desktop.activeDropdown
    (Desktop.advance Scenario.entries 250
       (Desktop.handleItemLeave (Desktop.handleItemLeave s))) = "".
Proof.
  intros s.
  assert (Desktop.Reachable Scenario.entries s) as R
    by (apply Reachable_run; constructor).
  split; [exact R|]. split; [reflexivity|]. split; [reflexivity|].
  exact (@second_leave_closes Scenario.entries s 250 R eq_refl ltac:(lia)).
Defined.

Lemma container_unmount_clears_witness :
  let step :=
    Container.handle true Scenario.entries Scenario.motorbikesDropdownItems
      Scenario.scootersDropdownItems Scenario.moreDropdownItems in
  let s := step Container.NavLeave
             (step (Container.ItemHover "Motorbikes")
                Container.initialState) in
  Container.Reachable true Scenario.entries Scenario.motorbikesDropdownItems
    Scenario.scootersDropdownItems Scenario.moreDropdownItems s /\
  List.length (Container.timers s) = 1 /\
  Container.timers (Container.unmount s) = [] /\
  Container.activeDropdown (Container.advance 200 (Container.unmount s)) =
  "motorbikes".
Proof.
  intros step s.
  assert (Container.Reachable true Scenario.entries
            Scenario.motorbikesDropdownItems Scenario.scootersDropdownItems
            Scenario.moreDropdownItems s) as R
    by (do 2 apply Container.reach_step; apply Container.reach_init).
  destruct (container_unmount_clears R) as (E & After).
  split; [exact R|]. split; [reflexivity|]. split; [exact E|].
  exact (proj1 (After 200)).
Defined.

Lemma container_single_timer_witness :
  let step :=
    Container.handle true Scenario.entries Scenario.motorbikesDropdownItems
      Scenario.scootersDropdownItems Scenario.moreDropdownItems in
  let s := step Container.DropdownLeave
             (step Container.NavLeave
                (step (Container.ItemHover "Motorbikes")
                   Container.initialState)) in
  Container.Reachable true Scenario.entries Scenario.motorbikesDropdownItems
    Scenario.scootersDropdownItems Scenario.moreDropdownItems s /\
  Container.isMobile s = false /\
  List.length (Container.timers s) <= 1 /\
  Container.activeDropdown
    (Container.advance 1000 (Container.handleDropdownEnter s)) = "motorbikes".
Proof.
  intros step s.
  assert (Container.Reachable true Scenario.entries
            Scenario.motorbikesDropdownItems Scenario.scootersDropdownItems
            Scenario.moreDropdownItems s) as R
    by (do 3 apply Container.reach_step; apply Container.reach_init).
  destruct (container_single_timer R) as (L & _ & Enter).
  split; [exact R|]. split; [reflexivity|]. split; [exact L|].
  exact (proj2 (Enter eq_refl) 1000).
Defined.

Lemma container_dropdowns_switched_off_witness :
  let step :=
    Container.handle false Scenario.entries Scenario.motorbikesDropdownItems
      Scenario.scootersDropdownItems Scenario.moreDropdownItems in
  let s := step (Container.ItemClick Scenario.entryA)
             (step (Container.ItemHover "Motorbikes")
                Container.initialState) in
  Container.Reachable false Scenario.entries Scenario.motorbikesDropdownItems
    Scenario.scootersDropdownItems Scenario.moreDropdownItems s /\
  Container.activeDropdown s = "".
Proof.
  intros step s.
  assert (Container.Reachable false Scenario.entries
            Scenario.motorbikesDropdownItems Scenario.scootersDropdownItems
            Scenario.moreDropdownItems s) as R
    by (do 2 apply Container.reach_step; apply Container.reach_init).
  split; [exact R|].
  exact (container_dropdowns_switched_off R eq_refl).
Defined.

Lemma container_leaf_selection_witness :
  let leaf := Scenario.rootItem "Fleet" false Mobile.right in
  let r := Container.handleMenuToggle Container.initialState in
  (Js.flag (Mobile.hasChildren leaf) = false /\
   Js.flag (Mobile.back leaf) = false /\ Container.mobileMenuOpen r = true) /\
  Container.mobileMenuOpen
    (Container.handleMobileItemClick Scenario.motorbikesDropdownItems
       Scenario.scootersDropdownItems Scenario.moreDropdownItems leaf r)
  = false /\
  Container.navigated
    (Container.handleMobileItemClick Scenario.motorbikesDropdownItems
       Scenario.scootersDropdownItems Scenario.moreDropdownItems leaf r)
  = ["#"].
Proof.
  intros leaf r.
  destruct (@container_leaf_selection Scenario.motorbikesDropdownItems
              Scenario.scootersDropdownItems Scenario.moreDropdownItems
              leaf r eq_refl eq_refl) as (O & _ & _ & _ & _ & N).
  split; [split; [reflexivity|split; reflexivity]|].
  split; [exact O | exact (N eq_refl)].
Defined.
